(** * GAME CpG predictor: request validation, preprocessing, prediction
      and content negotiation

    A shallow embedding of the Python sources

      - [error_checking_functions.py]  (error classes, the check functions)
      - [schema_validation.py]         ([validate_request_payload], [preprocess_data])
      - [cpg_utils.py]                 ([predict_cpg], [cpg_mean], [calculate_cpg_per_base])
      - [predictor_content_handler.py] ([decode_request], [encode_response])
      - [predictor_RestAPI.py]         (the exception wrapper of the [/predict] route)

    Modelling conventions.

      - A decoded request body is a dynamically typed Python object: the
        type [value] below.  Dictionaries are association lists in insertion
        order, as Python iterates them.
      - A Python [str] is a Rocq [string]; the model is exact for ASCII text
        ([upper] and [lower] only move the 26 ASCII letters).
      - A function that can raise returns a [result]: [Ok] or [Raise] of the
        exception, either one of the three API error classes or a built-in
        Python exception.
      - The error accumulator is a dictionary with one key whose value is a
        list of messages; every check appends under that one key, so the
        accumulator is modelled by the list.
      - An f-string is kept as its list of fragments ([Lit] text and [Fmt]
        interpolated objects); [render] turns it into text where the
        interpolated objects are [None], booleans, integers or strings.
      - Python floats are modelled by exact rationals, the base-2 logarithm
        is kept symbolic ([FLog2]) and interpreted in the reals by
        [fl_denote]; rounding is outside the model. *)

From Stdlib Require Import ZArith QArith List String Ascii Bool Arith Lia.
From Stdlib Require Import Sorted Permutation.
From Stdlib Require Import Reals Lra Qreals.
From Stdlib Require DecimalString.
Import ListNotations.

Local Open Scope string_scope.
Local Open Scope list_scope.
Local Open Scope Z_scope.

Set Implicit Arguments.
Set Warnings "-register-all".

(** ** Python objects *)

Inductive value : Type :=
| VNone
| VBool (b : bool)
| VInt (n : Z)
| VFloat (q : Q)
| VStr (s : string)
| VList (l : list value)
| VDict (d : list (string * value)).

Definition dict := list (string * value).

(** ** Exceptions *)

(** The built-in exceptions the modelled code can run into. *)
Inductive pyexc : Type :=
| TypeError | AttributeError | IndexError | KeyError | ValueError
| UnboundLocalError | ZeroDivisionError.

(** One fragment of an f-string: literal text, an interpolated object, an
    interpolated [set] of characters (whose printing order Python leaves
    open), or the text of the exception just caught (which the model does
    not track). *)
Inductive frag : Type :=
| Lit (s : string)
| Fmt (v : value)
| FmtCharSet (cs : list ascii)
| FmtCaught.

Definition msg := list frag.

(** [APIError.message] is a list of messages or one message. *)
Inductive message : Type :=
| Msgs (l : list msg)
| Msg1 (m : msg).

(** The three subclasses of [APIError]. *)
Inductive api_class : Type := BadRequest | PredictionFailed | Server.

Definition status_code (c : api_class) : Z :=
  match c with
  | BadRequest => 400
  | PredictionFailed => 422
  | Server => 500
  end.

Definition error_key (c : api_class) : string :=
  match c with
  | BadRequest => "bad_prediction_request"
  | PredictionFailed => "prediction_request_failed"
  | Server => "server_error"
  end.

Inductive exn : Type :=
| APIError (c : api_class) (m : message)
| PyExc (e : pyexc)
| LibraryError (what : string)
| Unmodelled.

Definition BadRequestError (m : message) : exn := APIError BadRequest m.
Definition PredictionFailedError (m : message) : exn := APIError PredictionFailed m.
Definition ServerError (m : message) : exn := APIError Server m.

(** The status an exception reaches the client with: [None] for an exception
    that is not an [APIError]. *)
Definition exn_status (e : exn) : option Z :=
  match e with
  | APIError c _ => Some (status_code c)
  | _ => None
  end.

(** ** The error monad *)

Inductive result (A : Type) : Type :=
| Ok (a : A)
| Raise (e : exn).

Arguments Ok {A} a.
Arguments Raise {A} e.

Definition bind {A B : Type} (r : result A) (k : A -> result B) : result B :=
  match r with
  | Ok a => k a
  | Raise e => Raise e
  end.

Declare Scope py_scope.
Delimit Scope py_scope with py.
Notation "x <- c ;; k" := (bind c (fun x => k))
  (at level 61, c at next level, right associativity) : py_scope.
Notation "' pat <- c ;; k" := (bind c (fun x => match x with pat => k end))
  (at level 61, pat pattern, c at next level, right associativity) : py_scope.
Local Open Scope py_scope.

(** A [for] loop whose body can raise, threading the loop state. *)
Fixpoint for_each {A S : Type} (body : A -> S -> result S) (xs : list A) (s : S)
  : result S :=
  match xs with
  | [] => Ok s
  | x :: xs' => s' <- body x s ;; for_each body xs' s'
  end.

(** ** Strings *)

Definition is_upper_ascii (c : ascii) : bool :=
  let n := nat_of_ascii c in (65 <=? n)%nat && (n <=? 90)%nat.

Definition is_lower_ascii (c : ascii) : bool :=
  let n := nat_of_ascii c in (97 <=? n)%nat && (n <=? 122)%nat.

Definition upper_ascii (c : ascii) : ascii :=
  if is_lower_ascii c then ascii_of_nat (nat_of_ascii c - 32) else c.

Definition lower_ascii (c : ascii) : ascii :=
  if is_upper_ascii c then ascii_of_nat (nat_of_ascii c + 32) else c.

Fixpoint map_string (f : ascii -> ascii) (s : string) : string :=
  match s with
  | EmptyString => EmptyString
  | String c s' => String (f c) (map_string f s')
  end.

(** [str.upper] and [str.lower]. *)
Definition upper (s : string) : string := map_string upper_ascii s.
Definition lower (s : string) : string := map_string lower_ascii s.

Definition len_str (s : string) : Z := Z.of_nat (String.length s).

(** [sep.join(ls)]. *)
Definition join (sep : string) (ls : list string) : string := String.concat sep ls.

(** [s.startswith(p)]. *)
Definition startswith (s p : string) : bool := String.prefix p s.

(** [needle in s] for strings: the substring test. *)
Fixpoint contains (s needle : string) : bool :=
  String.prefix needle s ||
  match s with
  | EmptyString => false
  | String _ s' => contains s' needle
  end.

(** [str(n)] for an integer. *)
Definition str_of_Z (n : Z) : string :=
  DecimalString.NilZero.string_of_int (Z.to_int n).

(** [s[start:stop]]: negative bounds count from the end, then both are
    clipped to the string. *)
Definition slice_bound (n i : Z) : Z :=
  if i <? 0 then Z.max 0 (i + n) else Z.min i n.

Definition py_slice (s : string) (start stop : Z) : string :=
  let n := len_str s in
  let a := slice_bound n start in
  let b := slice_bound n stop in
  String.substring (Z.to_nat a) (Z.to_nat (b - a)) s.

(** The characters of a string, as Python iterates it. *)
Definition chars (s : string) : list ascii := list_ascii_of_string s.

Definition str1 (c : ascii) : string := String c EmptyString.

(** ** Sets of strings and [sorted] *)

Definition mem_str (k : string) (l : list string) : bool :=
  existsb (String.eqb k) l.

(** [set(a) - set(b)], listed without repetition. *)
Definition set_minus (a b : list string) : list string :=
  nodup string_dec (filter (fun k => negb (mem_str k b)) a).

Fixpoint insert_sorted (k : string) (l : list string) : list string :=
  match l with
  | [] => [k]
  | h :: t => if String.leb k h then k :: l else h :: insert_sorted k t
  end.

(** [sorted(l)] on strings (code-point order). *)
Definition sorted (l : list string) : list string :=
  fold_right insert_sorted [] l.

(** ** Dictionaries *)

Fixpoint lookup {A : Type} (k : string) (d : list (string * A)) : option A :=
  match d with
  | [] => None
  | (k', v) :: d' => if String.eqb k k' then Some v else lookup k d'
  end.

Definition keys {A : Type} (d : list (string * A)) : list string := map fst d.

Definition has_key (k : string) (d : dict) : bool :=
  match lookup k d with Some _ => true | None => false end.

(** [d[k] = v]: an existing key keeps its place, a new one goes last. *)
Fixpoint dict_set {A : Type} (k : string) (v : A) (d : list (string * A))
  : list (string * A) :=
  match d with
  | [] => [(k, v)]
  | (k', v') :: d' =>
      if String.eqb k k' then (k, v) :: d' else (k', v') :: dict_set k v d'
  end.

(** [d.get(k, default)]. *)
Definition dict_get (k : string) (default : value) (d : dict) : value :=
  match lookup k d with Some v => v | None => default end.

(** ** Operations on objects *)

(** Truth value of an object ([bool(v)]). *)
Definition truthy (v : value) : bool :=
  match v with
  | VNone => false
  | VBool b => b
  | VInt n => negb (n =? 0)
  | VFloat q => negb (Qeq_bool q 0)
  | VStr s => negb (String.eqb s "")
  | VList l => match l with [] => false | _ => true end
  | VDict d => match d with [] => false | _ => true end
  end.

(** [v == s] for a string constant [s]. *)
Definition is_str (v : value) (s : string) : bool :=
  match v with
  | VStr s' => String.eqb s' s
  | _ => false
  end.

(** [v in [s1, ..., sn]] for a list of string constants. *)
Definition in_strs (v : value) (l : list string) : bool :=
  existsb (is_str v) l.

(** [isinstance(v, str)], [isinstance(v, list)] (also [type(v) == list]) and
    [isinstance(v, int)]; [bool] is a subclass of [int]. *)
Definition isinstance_str (v : value) : bool :=
  match v with VStr _ => true | _ => false end.
Definition isinstance_list (v : value) : bool :=
  match v with VList _ => true | _ => false end.
Definition isinstance_int (v : value) : bool :=
  match v with VInt _ | VBool _ => true | _ => false end.

(** [len(v)]. *)
Definition py_len (v : value) : result Z :=
  match v with
  | VStr s => Ok (len_str s)
  | VList l => Ok (Z.of_nat (List.length l))
  | VDict d => Ok (Z.of_nat (List.length d))
  | _ => Raise (PyExc TypeError)
  end.

(** The elements [for x in v] visits. *)
Definition py_iter (v : value) : result (list value) :=
  match v with
  | VList l => Ok l
  | VStr s => Ok (map (fun c => VStr (str1 c)) (chars s))
  | VDict d => Ok (map VStr (keys d))
  | _ => Raise (PyExc TypeError)
  end.

(** [v.keys()] and [v.items()]: only a dictionary has them. *)
Definition py_keys (v : value) : result (list string) :=
  match v with
  | VDict d => Ok (keys d)
  | _ => Raise (PyExc AttributeError)
  end.

Definition py_items (v : value) : result dict :=
  match v with
  | VDict d => Ok d
  | _ => Raise (PyExc AttributeError)
  end.

(** [v.get(k, default)]. *)
Definition py_get (v : value) (k : string) (default : value) : result value :=
  match v with
  | VDict d => Ok (dict_get k default d)
  | _ => Raise (PyExc AttributeError)
  end.

(** [v[k]] for a string key [k]. *)
Definition getitem_str (v : value) (k : string) : result value :=
  match v with
  | VDict d => match lookup k d with
               | Some x => Ok x
               | None => Raise (PyExc KeyError)
               end
  | _ => Raise (PyExc TypeError)
  end.

(** [v[i]] for a non-negative integer constant [i]. *)
Definition getitem_nat (v : value) (i : nat) : result value :=
  match v with
  | VList l => match nth_error l i with
               | Some x => Ok x
               | None => Raise (PyExc IndexError)
               end
  | VStr s => match String.get i s with
              | Some c => Ok (VStr (str1 c))
              | None => Raise (PyExc IndexError)
              end
  | VDict _ => Raise (PyExc KeyError)
  | _ => Raise (PyExc TypeError)
  end.

(** [k in v] for a string constant [k]. *)
Definition contains_str (k : string) (v : value) : result bool :=
  match v with
  | VDict d => Ok (has_key k d)
  | VList l => Ok (existsb (fun x => is_str x k) l)
  | VStr s => Ok (contains s k)
  | _ => Raise (PyExc TypeError)
  end.

(** The number an object stands for in an arithmetic comparison. *)
Definition as_number (v : value) : option Q :=
  match v with
  | VBool b => Some (if b then 1 else 0)%Q
  | VInt n => Some (inject_Z n)
  | VFloat q => Some q
  | _ => None
  end.

(** [a < b], [a > b] and [a >= b] where one side is a number: comparing a
    number with anything but a number raises [TypeError].  (Both sides
    strings or both lists would compare in Python; the modelled code never
    reaches a comparison with such a pair, see [check_prediction_ranges].) *)
Definition py_compare (a b : value) : result comparison :=
  match as_number a, as_number b with
  | Some x, Some y => Ok (Qcompare x y)
  | _, _ => Raise (PyExc TypeError)
  end.

Definition py_lt (a b : value) : result bool :=
  c <- py_compare a b ;; Ok (match c with Lt => true | _ => false end).
Definition py_gt (a b : value) : result bool :=
  c <- py_compare a b ;; Ok (match c with Gt => true | _ => false end).
Definition py_ge (a b : value) : result bool :=
  c <- py_compare a b ;; Ok (match c with Lt => false | _ => true end).

(** [x or y] on conditions that can raise: [y] is evaluated only if [x] is
    false. *)
Definition or_else (x : result bool) (y : result bool) : result bool :=
  b <- x ;; if b then Ok true else y.

(** [format(v, "")] inside an f-string that builds data: exact for [None],
    booleans, integers and strings; the printing of floats and containers is
    not modelled. *)
Definition py_format (v : value) : result string :=
  match v with
  | VNone => Ok "None"
  | VBool true => Ok "True"
  | VBool false => Ok "False"
  | VInt n => Ok (str_of_Z n)
  | VStr s => Ok s
  | _ => Raise Unmodelled
  end.

(** ** Messages *)

Definition render_frag (f : frag) : option string :=
  match f with
  | Lit s => Some s
  | Fmt v => match py_format v with Ok s => Some s | Raise _ => None end
  | FmtCharSet _ => None
  | FmtCaught => None
  end.

(** The text of a message, where its interpolated objects print exactly. *)
Fixpoint render (m : msg) : option string :=
  match m with
  | [] => Some ""
  | f :: m' => match render_frag f, render m' with
               | Some a, Some b => Some (a ++ b)%string
               | _, _ => None
               end
  end.

(** [any(errors.values())] and the flattening of the accumulator: with one
    key, the accumulator is its list of messages. *)
Definition errors := list msg.

Definition any_errors (errs : errors) : bool :=
  match errs with [] => false | _ => true end.

(** [errors[key].append(m)]. *)
Definition append_msg (errs : errors) (m : msg) : errors := errs ++ [m].

(** * error_checking_functions.py *)

Definition mandatory_keys : list string := ["readout"; "prediction_tasks"; "sequences"].

Definition check_mandatory_keys (evaluator_keys : list string) (errs : errors)
  : errors :=
  let missing := sorted (set_minus mandatory_keys evaluator_keys) in
  match missing with
  | [] => errs
  | _ =>
      append_msg errs
        [Lit "The following mandatory top-level keys are missing from the JSON: ";
         Lit (join ", " missing)]
  end.

Definition readout_options : list string := ["point"; "track"; "interaction_matrix"].

Definition check_key_values_readout (readout_value : value) (errs : errors)
  : errors :=
  let errs :=
    if negb (in_strs readout_value readout_options) then
      append_msg errs
        [Lit "readout requested is not recognized. Please choose from ['point', 'track', 'interaction_matrix']"]
    else errs in
  let errs :=
    if isinstance_str readout_value then errs
    else append_msg errs [Lit "'readout' value should be a string"] in
  if isinstance_list readout_value then
    append_msg errs [Lit "'readout' should only have 1 value"]
  else errs.

Definition task_mandatory_keys : list string := ["name"; "type"; "cell_type"; "species"].

(** The body of the loop of [check_prediction_task_mandatory_keys], at
    position [index]. *)
Definition check_one_task_mandatory_keys (index : nat) (prediction_task : value)
    (errs : errors) : result errors :=
  task_keys <- py_keys prediction_task ;;
  let missing := sorted (set_minus task_mandatory_keys task_keys) in
  match missing with
  | [] => Ok errs
  | _ =>
      d <- py_items prediction_task ;;
      let task_identifier :=
        dict_get "name" (VStr ("at index " ++ str_of_Z (Z.of_nat index))%string) d in
      Ok (append_msg errs
            [Lit "Mandatory keys missing from prediction_task '";
             Fmt task_identifier; Lit "': "; Lit (join ", " missing)])
  end.

Fixpoint enumerate_from {A : Type} (i : nat) (xs : list A) : list (nat * A) :=
  match xs with
  | [] => []
  | x :: xs' => (i, x) :: enumerate_from (S i) xs'
  end.

Definition check_prediction_task_mandatory_keys (prediction_tasks : value)
    (errs : errors) : result errors :=
  tasks <- py_iter prediction_tasks ;;
  for_each (fun '(index, task) => check_one_task_mandatory_keys index task)
           (enumerate_from 0 tasks) errs.

Definition check_one_task_name (prediction_task : value) (errs : errors)
  : result errors :=
  name <- getitem_str prediction_task "name" ;;
  let errs :=
    if isinstance_list name then append_msg errs [Lit "'name' should only have 1 value"]
    else errs in
  Ok (if isinstance_str name then errs
      else append_msg errs [Lit "'name' value should be a string"]).

Definition check_prediction_task_name (prediction_tasks : value) (errs : errors)
  : result errors :=
  tasks <- py_iter prediction_tasks ;;
  for_each check_one_task_name tasks errs.

Definition prediction_task_options : list string := ["accessibility"; "expression"].
Definition prediction_task_prefixes : list string :=
  ["binding_"; "expression_"; "conformation_"].

Definition check_one_task_type (prediction_task : value) (errs : errors)
  : result errors :=
  ty <- getitem_str prediction_task "type" ;;
  Ok (match ty with
      | VList _ => append_msg errs [Lit "'type' should only have 1 value"]
      | VStr t =>
          if mem_str t prediction_task_options
             || existsb (startswith t) prediction_task_prefixes
          then errs
          else append_msg errs [Lit ("prediction type " ++ t ++ " is not recognized")%string]
      | _ => append_msg errs [Lit "'type' value should be a string"]
      end).

Definition check_prediction_task_type (prediction_tasks : value) (errs : errors)
  : result errors :=
  tasks <- py_iter prediction_tasks ;;
  for_each check_one_task_type tasks errs.

(** The common shape of the checks of [cell_type], [species] and the two
    flanks: a list is reported as such, anything else that is not a string
    as not a string. *)
Definition check_scalar_string (field : string) (v : value) (errs : errors)
  : errors :=
  if isinstance_list v then
    append_msg errs [Lit ("'" ++ field ++ "' should only have 1 value")%string]
  else if isinstance_str v then errs
  else append_msg errs [Lit ("'" ++ field ++ "' value should be a string")%string].

Definition check_one_task_cell_type (prediction_task : value) (errs : errors)
  : result errors :=
  v <- getitem_str prediction_task "cell_type" ;;
  Ok (check_scalar_string "cell_type" v errs).

Definition check_prediction_task_cell_type (prediction_tasks : value)
    (errs : errors) : result errors :=
  tasks <- py_iter prediction_tasks ;;
  for_each check_one_task_cell_type tasks errs.

Definition check_one_task_species (prediction_task : value) (errs : errors)
  : result errors :=
  v <- getitem_str prediction_task "species" ;;
  Ok (check_scalar_string "species" v errs).

Definition check_prediction_task_species (prediction_tasks : value)
    (errs : errors) : result errors :=
  tasks <- py_iter prediction_tasks ;;
  for_each check_one_task_species tasks errs.

Definition prediction_scale_options : list string := ["linear"; "log"].

(** What the check of one [scale] value appends. *)
Definition check_scale_value (scale : value) (errs : errors) : errors :=
  if isinstance_list scale then
    append_msg errs [Lit "'scale' should only have 1 value"]
  else
    let errs :=
      if negb (in_strs scale prediction_scale_options) then
        append_msg errs
          [Lit "scale requested is not recognized. Please choose from ['log', 'linear']"]
      else errs in
    if isinstance_str scale then errs
    else append_msg errs [Lit "'scale' value should be a string"].

Definition check_one_task_scale (prediction_task : value) (errs : errors)
  : result errors :=
  present <- contains_str "scale" prediction_task ;;
  if present then
    scale <- getitem_str prediction_task "scale" ;;
    Ok (check_scale_value scale errs)
  else Ok errs.

Definition check_prediction_task_scale (prediction_tasks : value) (errs : errors)
  : result errors :=
  tasks <- py_iter prediction_tasks ;;
  for_each check_one_task_scale tasks errs.

(** The body of the loop of [check_prediction_ranges] for one entry
    [key: value] of [prediction_ranges]. *)
Definition check_one_prediction_range (sequences : value) (key : string)
    (value : value) (errs : errors) : result errors :=
  let errs :=
    if negb (isinstance_list value) then
      append_msg errs
        [Lit "Values for '"; Fmt (VStr key); Lit "' in 'prediction_ranges' must be in a list"]
    else errs in
  if negb (truthy value) then Ok errs        (* continue *)
  else
    n <- py_len value ;;
    let errs :=
      if negb (n =? 2) then
        append_msg errs
          [Lit "Range array for '"; Fmt (VStr key);
           Lit "' in 'prediction_ranges' must have 2 elements"]
      else errs in
    elems <- py_iter value ;;
    let errs :=
      if negb (forallb isinstance_int elems) then
        append_msg errs
          [Lit "Values in '"; Fmt (VStr key);
           Lit "' in 'prediction_ranges' must be integers"]
      else errs in
    start <- getitem_nat value 0 ;;
    end_ <- getitem_nat value 1 ;;
    negative <- or_else (py_lt start (VInt 0)) (py_lt end_ (VInt 0)) ;;
    let errs :=
      if negative then
        append_msg errs
          [Lit "Invalid range for '"; Fmt (VStr key);
           Lit "' in 'prediction_ranges': indices must be positive. Received [";
           Fmt start; Lit ", "; Fmt end_; Lit "]"]
      else errs in
    reversed <- py_gt start end_ ;;
    let errs :=
      if reversed then
        append_msg errs
          [Lit "Invalid range for '"; Fmt (VStr key);
           Lit "' in 'prediction_ranges': start index ("; Fmt start;
           Lit ") cannot be greater than end index ("; Fmt end_;
           Lit "). Received ["; Fmt start; Lit ", "; Fmt end_; Lit "]"]
      else errs in
    seq <- py_get sequences key (VStr "") ;;
    seq_len <- py_len seq ;;
    out <- or_else (py_ge start (VInt seq_len)) (py_ge end_ (VInt seq_len)) ;;
    if out then
      let err_msg :=
        if seq_len =? 0 then
          [Lit "Invalid range for '"; Fmt (VStr key);
           Lit "': cannot specify a range for a non-existent or empty sequence."]
        else
          [Lit "Invalid range for '"; Fmt (VStr key);
           Lit "': index is out of bounds. The maximum valid index for a sequence of length ";
           Fmt (VInt seq_len); Lit " is "; Fmt (VInt (seq_len - 1)); Lit "."] in
      Ok (append_msg errs err_msg)
    else Ok errs.

Definition check_prediction_ranges (prediction_ranges sequences : value)
    (errs : errors) : result errors :=
  ranges <- py_items prediction_ranges ;;
  for_each (fun '(key, value) => check_one_prediction_range sequences key value)
           ranges errs.

(** [a.keys() == b.keys()]: the two key views hold the same keys. *)
Definition same_keys (a b : list string) : bool :=
  forallb (fun k => mem_str k b) a && forallb (fun k => mem_str k a) b.

Definition check_seq_ids (prediction_ranges sequences : value) (errs : errors)
  : result errors :=
  range_keys <- py_keys prediction_ranges ;;
  seq_keys <- py_keys sequences ;;
  if same_keys range_keys seq_keys then Ok errs
  else Ok (append_msg errs
             [Lit "sequence ids in prediction_ranges do not match those in sequences"]).

Definition check_key_values_upstream_flank (upstream_seq : value) (errs : errors)
  : errors :=
  check_scalar_string "upstream_seq" upstream_seq errs.

Definition check_key_values_downstream_flank (downstream_seq : value)
    (errs : errors) : errors :=
  check_scalar_string "downstream_seq" downstream_seq errs.

Definition valid_bases : list ascii := ["A"; "T"; "C"; "G"; "N"]%char.

Definition mem_ascii (c : ascii) (l : list ascii) : bool :=
  existsb (Ascii.eqb c) l.

(** [set(s) - valid_bases], listed without repetition. *)
Definition invalid_chars_of (s : string) : list ascii :=
  nodup ascii_dec (filter (fun c => negb (mem_ascii c valid_bases)) (chars s)).

Definition check_one_seq_specifications (seq_id : string) (seq : value)
    (errs : errors) : result errors :=
  let errs :=
    if negb (truthy seq) then
      append_msg errs [Lit "sequence '"; Fmt (VStr seq_id); Lit "' is empty"]
    else errs in
  match seq with
  | VStr s =>
      match invalid_chars_of (upper s) with
      | [] => Ok errs
      | invalid_chars =>
          Ok (append_msg errs
                [Lit "sequence '"; Fmt (VStr seq_id);
                 Lit "' has invalid character(s): "; FmtCharSet invalid_chars])
      end
  | _ => Raise (PyExc AttributeError)
  end.

Definition check_seqs_specifications (sequences : value) (errs : errors)
  : result errors :=
  seqs <- py_items sequences ;;
  for_each (fun '(seq_id, seq) => check_one_seq_specifications seq_id seq) seqs errs.

(** * schema_validation.py *)

(** [raise BadRequestError(flagged_errors)] when the accumulator holds a
    message. *)
Definition raise_if_any (errs : errors) : result unit :=
  if any_errors errs then Raise (BadRequestError (Msgs errs)) else Ok tt.

(** The checks of [validate_request_payload] between the two key-presence
    stages and the final [raise]. *)
Definition remaining_checks (payload : dict) (errs : errors) : result errors :=
  readout <- getitem_str (VDict payload) "readout" ;;
  let errs := check_key_values_readout readout errs in
  tasks <- getitem_str (VDict payload) "prediction_tasks" ;;
  errs <- check_prediction_task_name tasks errs ;;
  errs <- check_prediction_task_type tasks errs ;;
  errs <- check_prediction_task_cell_type tasks errs ;;
  errs <- check_prediction_task_species tasks errs ;;
  errs <- check_prediction_task_scale tasks errs ;;
  errs <-
    (if has_key "prediction_ranges" payload then
       ranges <- getitem_str (VDict payload) "prediction_ranges" ;;
       sequences <- getitem_str (VDict payload) "sequences" ;;
       errs <- check_seq_ids ranges sequences errs ;;
       check_prediction_ranges ranges sequences errs
     else Ok errs) ;;
  errs <-
    (if has_key "upstream_seq" payload then
       up <- getitem_str (VDict payload) "upstream_seq" ;;
       Ok (check_key_values_upstream_flank up errs)
     else Ok errs) ;;
  if has_key "downstream_seq" payload then
    down <- getitem_str (VDict payload) "downstream_seq" ;;
    Ok (check_key_values_downstream_flank down errs)
  else Ok errs.

Definition validate_request_payload (payload : value) : result unit :=
  evaluator_keys <- py_keys payload ;;
  let errs := check_mandatory_keys evaluator_keys [] in
  _ <- raise_if_any errs ;;
  tasks <- getitem_str payload "prediction_tasks" ;;
  errs <- check_prediction_task_mandatory_keys tasks errs ;;
  _ <- raise_if_any errs ;;
  d <- py_items payload ;;
  errs <- remaining_checks d errs ;;
  raise_if_any errs.

(** The first loop of [preprocess_data]: every sequence becomes
    [upstream + sequence + downstream], assigned back under its own key
    while the items are visited. *)
Definition flank_one (upstream_seq downstream_seq : value) (seq_id : string)
    (sequence : value) (sequences : dict) : result dict :=
  u <- py_format upstream_seq ;;
  s <- py_format sequence ;;
  d <- py_format downstream_seq ;;
  Ok (dict_set seq_id (VStr (u ++ s ++ d)%string) sequences).

(** The flanking step; [sequences] is the object under the key
    [sequences] of the payload, mutated in place. *)
Definition apply_flanks (payload : dict) (sequences : value) : result value :=
  if has_key "upstream_seq" payload || has_key "downstream_seq" payload then
    let upstream_seq := dict_get "upstream_seq" (VStr "") payload in
    let downstream_seq := dict_get "downstream_seq" (VStr "") payload in
    if truthy upstream_seq || truthy downstream_seq then
      _ <- py_len upstream_seq ;;          (* printed in the progress message *)
      _ <- py_len downstream_seq ;;
      items <- py_items sequences ;;
      seqs <- for_each (fun '(seq_id, sequence) =>
                          flank_one upstream_seq downstream_seq seq_id sequence)
                       items items ;;
      Ok (VDict seqs)
    else Ok sequences
  else Ok sequences.

(** [start, end = pr]: unpacking needs exactly two elements. *)
Definition unpack2 (pr : value) : result (value * value) :=
  elems <- py_iter pr ;;
  match elems with
  | [a; b] => Ok (a, b)
  | _ => Raise (PyExc ValueError)
  end.

(** An object used as the lower bound of a slice ([None] stands for the
    beginning) and as its upper bound. *)
Definition as_index (v : value) : result Z :=
  match v with
  | VInt n => Ok n
  | VBool b => Ok (if b then 1 else 0)
  | _ => Raise (PyExc TypeError)
  end.

Definition as_start (v : value) : result Z :=
  match v with
  | VNone => Ok 0
  | _ => as_index v
  end.

(** [end + 1]. *)
Definition plus_one (v : value) : result value :=
  match v with
  | VInt n => Ok (VInt (n + 1))
  | VBool b => Ok (VInt ((if b then 1 else 0) + 1))
  | VFloat q => Ok (VFloat (q + 1))
  | _ => Raise (PyExc TypeError)
  end.

(** [seq[start:stop]] on an object: strings are sliced; slicing a list or a
    dictionary is outside the model. *)
Definition slice_value (seq start stop : value) : result value :=
  match seq with
  | VStr s =>
      a <- as_start start ;;
      b <- as_index stop ;;
      Ok (VStr (py_slice s a b))
  | VList _ | VDict _ => Raise Unmodelled
  | _ => Raise (PyExc TypeError)
  end.

(** The body of the second loop of [preprocess_data]. *)
Definition trim_one (seq_id : string) (pr : value) (sequences : value)
  : result value :=
  if truthy pr then
    '(start, end_) <- unpack2 pr ;;
    seq <- getitem_str sequences seq_id ;;
    stop <- plus_one end_ ;;
    trimmed <- slice_value seq start stop ;;
    seqs <- py_items sequences ;;
    Ok (VDict (dict_set seq_id trimmed seqs))
  else Ok sequences.

Definition apply_ranges (payload : dict) (sequences : value) : result value :=
  if has_key "prediction_ranges" payload then
    ranges <- getitem_str (VDict payload) "prediction_ranges" ;;
    items <- py_items ranges ;;
    for_each (fun '(seq_id, pr) => trim_one seq_id pr) items sequences
  else Ok sequences.

Definition supported_readouts : list string := ["point"; "track"].

(** The end of [preprocess_data]: the model-specific checks on the final
    sequences, then the readout check, which raises before the accumulated
    sequence errors are looked at. *)
Definition check_and_return (payload : dict) (sequences : value) : result dict :=
  errs <- check_seqs_specifications sequences [] ;;
  readout_type <- getitem_str (VDict payload) "readout" ;;
  if negb (in_strs readout_type supported_readouts) then
    Raise (BadRequestError
             (Msg1 [Lit "Test Predictor cannot process '"; Fmt readout_type;
                    Lit "' readout type."]))
  else if any_errors errs then Raise (PredictionFailedError (Msgs errs))
  else py_items sequences.

Definition preprocess_data (payload : value) : result dict :=
  p <- py_items payload ;;
  let sequences := dict_get "sequences" (VDict []) p in
  sequences <- apply_flanks p sequences ;;
  sequences <- apply_ranges p sequences ;;
  check_and_return p sequences.

(** * cpg_utils.py *)

(** A float the prediction code produces: a rational, or the base-2
    logarithm of one. *)
Inductive fl : Type :=
| FQ (q : Q)
| FLog2 (q : Q).

(** [epsilon = 1e-9]. *)
Definition epsilon : Q := 1 # 1000000000.

(** [sum(1 for i in range(len(s)-1) if s[i:i+2] == "CG")]. *)
Definition total_cpg (s : string) : nat :=
  List.length
    (filter (fun i => String.eqb (String.substring i 2 s) "CG")
            (List.seq 0 (String.length s - 1))).

(** The two [if]s on the scale that end [cpg_mean] and
    [calculate_cpg_per_base]: the result variable is bound under "linear"
    and under "log", and returning it unbound raises. *)
Definition by_scale {A : Type} (scale_actual : value) (linear log : A) : result A :=
  let r := if is_str scale_actual "linear" then Some linear else None in
  let r := if is_str scale_actual "log" then Some log else r in
  match r with
  | Some x => Ok x
  | None => Raise (PyExc UnboundLocalError)
  end.

Definition cpg_mean (seq scale_actual : value) : result fl :=
  match seq with
  | VStr raw =>
      let s := upper raw in
      let total := total_cpg s in
      if len_str s =? 0 then Raise (PyExc ZeroDivisionError)
      else
        let mean_val := ((inject_Z (Z.of_nat total) + epsilon) / inject_Z (len_str s))%Q in
        by_scale scale_actual (FQ mean_val) (FLog2 mean_val)
  | _ => Raise (PyExc AttributeError)
  end.

(** [s.replace(c, '')] for a one-character [c]. *)
Fixpoint remove_char (c : ascii) (s : string) : string :=
  match s with
  | EmptyString => EmptyString
  | String a s' => if Ascii.eqb a c then remove_char c s' else String a (remove_char c s')
  end.

(** [s.count('CG')]: occurrences found left to right, the search resuming
    after each one. *)
Fixpoint count_CG (s : string) : nat :=
  match s with
  | EmptyString => O
  | String a rest =>
      match rest with
      | EmptyString => O
      | String b rest' =>
          if Ascii.eqb a "C" && Ascii.eqb b "G" then S (count_CG rest')
          else count_CG rest
      end
  end.

Definition newline : ascii := ascii_of_nat 10.

(** The density the second loop of [calculate_cpg_per_base] stores at
    position [i]. *)
Definition density_at (sequence : string) (half_window i : Z) : Q :=
  let seq_len := len_str sequence in
  let start := Z.max 0 (i - half_window) in
  let end_ := Z.min seq_len (i + half_window) in
  let window_seq := py_slice sequence start end_ in
  let cpgs_in_window := count_CG window_seq in
  let window_len := end_ - start in
  if 0 <? window_len then
    (inject_Z (Z.of_nat cpgs_in_window) / inject_Z window_len * 100)%Q
  else 0%Q.

(** [range(n)]. *)
Definition range (n : Z) : list Z := map Z.of_nat (List.seq 0 (Z.to_nat n)).

Definition calculate_cpg_per_base (sequence scale_actual : value) (window_size : Z)
  : result (list fl) :=
  match sequence with
  | VStr raw =>
      let sequence := remove_char newline (remove_char " "%char (upper raw)) in
      let seq_len := len_str sequence in
      let half_window := window_size / 2 in
      let cpg_density := map (density_at sequence half_window) (range seq_len) in
      by_scale scale_actual
        (map FQ cpg_density)
        (map (fun d => FLog2 (d + epsilon)%Q) cpg_density)
  | _ => Raise (PyExc AttributeError)
  end.

Definition predictions := list (string * list fl).

Definition predict_cpg (sequences readout scale_requested : value)
  : result (predictions * value) :=
  let scale_actual :=
    match scale_requested with
    | VNone => VStr "linear"
    | _ => scale_requested
    end in
  preds <-
    (if is_str readout "point" then
       items <- py_items sequences ;;
       for_each (fun '(seq_id, sequence) (preds : predictions) =>
                   x <- cpg_mean sequence scale_actual ;;
                   Ok (dict_set seq_id [x] preds))
                items []
     else Ok []) ;;
  preds <-
    (if is_str readout "track" then
       items <- py_items sequences ;;
       for_each (fun '(seq_id, sequence) (preds : predictions) =>
                   xs <- calculate_cpg_per_base sequence scale_actual 50 ;;
                   Ok (dict_set seq_id xs preds))
                items preds
     else Ok preds) ;;
  Ok (preds, scale_actual).

(** * predictor_content_handler.py *)

(** What the handlers read of the Flask request. *)
Record request : Type := {
  content_type_header : option string;
  accept_header : option string;
  data : string
}.

(** A response: body, status and media type. *)
Record response : Type := {
  body : string;
  status : Z;
  mimetype : string
}.

Section ContentHandler.

(** The parsers and serialisers of Flask and msgpack, which are libraries:
    each returns or raises. *)
Variable get_json : request -> result value.
Variable unpackb : string -> result value.
Variable packb : value -> result string.
Variable jsonify : value -> result string.

(** The content type [decode_request] decodes under. *)
Definition resolved_content_type (req : request) : string :=
  match content_type_header req with
  | None => "application/json"
  | Some h => if String.eqb h "" then "application/json" else lower h
  end.

Definition unsupported_content_type (content_type : string)
    (supported_request_formats : list string) : exn :=
  BadRequestError
    (Msg1 [Lit "Unsupported Content-Type: "; Fmt (VStr content_type);
           Lit ". Must be one of "; Fmt (VList (map VStr supported_request_formats))]).

Definition decode_request (req : request) (supported_request_formats : list string)
  : result value :=
  let content_type := resolved_content_type req in
  if negb (mem_str content_type supported_request_formats) then
    Raise (unsupported_content_type content_type supported_request_formats)
  else if String.eqb content_type "application/json" then
    match get_json req with
    | Ok v => Ok v
    | Raise _ =>
        Raise (BadRequestError (Msg1 [Lit "Could not parse JSON payload: "; FmtCaught]))
    end
  else if String.eqb content_type "application/msgpack" then
    match unpackb (data req) with
    | Ok v => Ok v
    | Raise _ =>
        Raise (BadRequestError (Msg1 [Lit "Could not decode MsgPack payload: "; FmtCaught]))
    end
  else Raise (unsupported_content_type content_type supported_request_formats).

(** The media type [encode_response] settles on. *)
Definition response_format (req : request) (isError : bool)
    (supported_response_formats : list string) : string :=
  if isError then "application/json"
  else
    let accept := lower (match accept_header req with Some h => h | None => "" end) in
    if contains accept "application/msgpack"
       && mem_str "application/msgpack" supported_response_formats
    then "application/msgpack"
    else "application/json".

Definition encode_response (req : request) (payload : dict) (status_code : Z)
    (isError : bool) (supported_response_formats : option (list string))
    (predictor_name : string) : result response :=
  let supported :=
    match supported_response_formats with
    | None => ["application/json"]
    | Some l => l
    end in
  let payload :=
    if negb (has_key "predictor_name" payload)
    then ("predictor_name", VStr predictor_name) :: payload
    else payload in
  let fmt := response_format req isError supported in
  if String.eqb fmt "application/msgpack" then
    match packb (VDict payload) with
    | Ok b => Ok {| body := b; status := status_code; mimetype := "application/msgpack" |}
    | Raise _ =>
        Raise (ServerError (Msg1 [Lit "Failed to serialize successful response as MsgPack."]))
    end
  else
    match jsonify (VDict payload) with
    | Ok b => Ok {| body := b; status := status_code; mimetype := "application/json" |}
    | Raise _ =>
        Raise (ServerError
                 (Msg1 [Lit "Internal Server Error: Failed to serialize response as JSON: ";
                        FmtCaught]))
    end.

End ContentHandler.

(** * predictor_RestAPI.py *)

(** The [except Exception] clause of the [/predict] route: an [APIError] is
    raised again as it is, anything else becomes a [ServerError]. *)
Definition reraise {A : Type} (r : result A) : result A :=
  match r with
  | Ok a => Ok a
  | Raise (APIError c m) => Raise (APIError c m)
  | Raise _ =>
      Raise (ServerError
               (Msg1 [Lit "An unexpected internal error occurred: "; FmtCaught; Lit "."]))
  end.

(** * Notions used in the statements *)

(** The order [sorted] sorts by. *)
Definition le_str (a b : string) : Prop := String.leb a b = true.

(** The keys stage 1 reports for a payload with the keys [ks]. *)
Definition missing_keys (ks : list string) : list string :=
  sorted (set_minus mandatory_keys ks).

(** The message of stage 1 for the missing keys [missing]. *)
Definition missing_keys_message (missing : list string) : msg :=
  [Lit "The following mandatory top-level keys are missing from the JSON: ";
   Lit (join ", " missing)].

(** A dictionary of strings as a Python object. *)
Definition str_dict (seqs : list (string * string)) : dict :=
  map (fun '(k, s) => (k, VStr s)) seqs.

(** ** Sample requests *)

Definition sample_task : value :=
  VDict [("name", VStr "t1"); ("type", VStr "expression");
         ("cell_type", VStr "K562"); ("species", VStr "human")].

(** [{"readout": r, "prediction_tasks": [task], "sequences": {"s1": "AAAA"},
     "prediction_ranges": {"s1": range}}]. *)
Definition sample_payload (readout range : value) : value :=
  VDict [("readout", readout); ("prediction_tasks", VList [sample_task]);
         ("sequences", VDict [("s1", VStr "AAAA")]);
         ("prediction_ranges", VDict [("s1", range)])].

(** ** Typed requests *)

(** The flank under [key]: the empty string when the key is absent. *)
Definition flank_of (key : string) (p : dict) : string :=
  match lookup key p with
  | Some (VStr u) => u
  | _ => ""
  end.

(** The flank under [key] is absent or a string, as validation leaves it. *)
Definition flank_ok (key : string) (p : dict) : Prop :=
  lookup key p = None \/ exists u, lookup key p = Some (VStr u).

(** A range as validation leaves it: the empty list or two integers. *)
Definition range_value (r : option (Z * Z)) : value :=
  match r with
  | None => VList []
  | Some (a, b) => VList [VInt a; VInt b]
  end.

Definition range_dict (rs : list (string * option (Z * Z))) : dict :=
  map (fun '(k, r) => (k, range_value r)) rs.

(** The payload has the ranges [rs] (none when the key is absent). *)
Definition ranges_are (p : dict) (rs : list (string * option (Z * Z))) : Prop :=
  (lookup "prediction_ranges" p = None /\ rs = []) \/
  lookup "prediction_ranges" p = Some (VDict (range_dict rs)).

Definition range_ok (kr : string * option (Z * Z)) : Prop :=
  match snd kr with
  | None => True
  | Some (a, b) => 0 <= a <= b
  end.

(** The characters of [s] at the positions [a] to [b], both included. *)
Definition inclusive_slice (s : string) (a b : Z) : string :=
  String.substring (Z.to_nat a) (Z.to_nat (b - a + 1)) s.

(** A sequence after the range looked up for it: cut for a two-element
    range, unchanged for the empty range and for no range. *)
Definition trim (r : option (option (Z * Z))) (s : string) : string :=
  match r with
  | Some (Some (a, b)) => inclusive_slice s a b
  | _ => s
  end.

(** Every sequence between the two flanks of the payload. *)
Definition flanked (p : dict) (seqs : list (string * string)) : list (string * string) :=
  map (fun '(id, s) =>
         (id, (flank_of "upstream_seq" p ++ s ++ flank_of "downstream_seq" p)%string))
      seqs.

(** Every sequence cut to its range. *)
Definition trimmed (rs : list (string * option (Z * Z))) (seqs : list (string * string))
  : list (string * string) :=
  map (fun '(id, s) => (id, trim (lookup id rs) s)) seqs.

(** The messages [check_seqs_specifications] appends for the sequence [s]
    under [seq_id]. *)
Definition seq_violations (seq_id s : string) : list msg :=
  (if String.eqb s "" then [[Lit "sequence '"; Fmt (VStr seq_id); Lit "' is empty"]]
   else []) ++
  match invalid_chars_of (upper s) with
  | [] => []
  | invalid_chars =>
      [[Lit "sequence '"; Fmt (VStr seq_id); Lit "' has invalid character(s): ";
        FmtCharSet invalid_chars]]
  end.

Definition all_violations (seqs : list (string * string)) : list msg :=
  flat_map (fun '(seq_id, s) => seq_violations seq_id s) seqs.

(** [{"readout": "point", "sequences": {"s1": "AT"}, "upstream_seq": "CG",
     "prediction_ranges": {"s1": [0, 1]}}]. *)
Definition sample_flank_payload : dict :=
  [("readout", VStr "point"); ("sequences", VDict [("s1", VStr "AT")]);
   ("upstream_seq", VStr "CG");
   ("prediction_ranges", VDict [("s1", VList [VInt 0; VInt 1])])].

(** A sequence the model cannot take: empty, or with a character that is
    not a valid base once in upper case. *)
Definition violates_specifications (s : string) : Prop :=
  s = "" \/ exists c, In c (chars (upper s)) /\ ~ In c valid_bases.

(** The message of [preprocess_data] for a readout it does not support. *)
Definition unsupported_readout_message (readout_type : value) : msg :=
  [Lit "Test Predictor cannot process '"; Fmt readout_type; Lit "' readout type."].

(** [{"readout": "interaction_matrix", "sequences": {"s1": "AXGT", "s2": ""}}]. *)
Definition sample_bad_readout_payload : dict :=
  [("readout", VStr "interaction_matrix");
   ("sequences", VDict [("s1", VStr "AXGT"); ("s2", VStr "")])].

(** ** Content negotiation *)

(** The [Accept] header of the request, lower-cased, names msgpack. *)
Definition accepts_msgpack (req : request) : bool :=
  contains (lower (match accept_header req with Some h => h | None => "" end))
           "application/msgpack".

(** The formats [encode_response] works with when given [None]. *)
Definition supported_or_default (supported_response_formats : option (list string))
  : list string :=
  match supported_response_formats with
  | None => ["application/json"]
  | Some l => l
  end.

(** ** Prediction *)

(** The number of positions [i] of [s] where the adjacent pair
    [s[i], s[i+1]] is "CG". *)
Fixpoint adjacent_CG (s : string) : nat :=
  match s with
  | EmptyString => O
  | String a rest =>
      match rest with
      | EmptyString => O
      | String b _ =>
          ((if Ascii.eqb a "C" && Ascii.eqb b "G" then 1 else 0) + adjacent_CG rest)%nat
      end
  end.

(** [(count + 1e-9) / length] for the sequence [s]. *)
Definition smoothed_ratio (s : string) : Q :=
  ((inject_Z (Z.of_nat (adjacent_CG (upper s))) + epsilon) / inject_Z (len_str s))%Q.

(** The scale [predict_cpg] works with. *)
Definition resolved_scale (scale_requested : value) : value :=
  match scale_requested with
  | VNone => VStr "linear"
  | _ => scale_requested
  end.

(** The sequence [calculate_cpg_per_base] works on: upper case, spaces and
    newlines removed. *)
Definition cleaned (raw : string) : string :=
  remove_char newline (remove_char " "%char (upper raw)).

(** The density of the window around position [i]: the "CG" pairs among the
    positions [max(0, i-25)] to [min(n, i+25) - 1], over the number of these
    positions, times 100. *)
Definition window_density (sequence : string) (i : Z) : Q :=
  let n := len_str sequence in
  let first := Z.max 0 (i - 25) in
  let last := Z.min n (i + 25) - 1 in
  (inject_Z (Z.of_nat (adjacent_CG (inclusive_slice sequence first last)))
   / inject_Z (last - first + 1) * 100)%Q.

(** The density of the window that takes [i+25] in: positions
    [max(0, i-25)] to [min(n-1, i+25)], both included. *)
Definition closed_window_density (sequence : string) (i : Z) : Q :=
  let n := len_str sequence in
  let first := Z.max 0 (i - 25) in
  let last := Z.min (n - 1) (i + 25) in
  (inject_Z (Z.of_nat (adjacent_CG (inclusive_slice sequence first last)))
   / inject_Z (last - first + 1) * 100)%Q.

(** A sequence as the caller of [predict_cpg] guarantees it: not empty and,
    in upper case, over the alphabet. *)
Definition valid_sequence (s : string) : Prop :=
  s <> "" /\ Forall (fun c => In c valid_bases) (chars (upper s)).

(** A scale validation lets through: absent, "linear" or "log". *)
Definition valid_scale (scale_requested : value) : Prop :=
  scale_requested = VNone \/ scale_requested = VStr "linear" \/
  scale_requested = VStr "log".

(** Twenty-four "A" followed by "CG". *)
Definition sample_track_sequence : string := "AAAAAAAAAAAAAAAAAAAAAAAACG".

(** The base-2 logarithm on the reals, and the real number a float of the
    model stands for. *)
Definition log2R (x : R) : R := (ln x / ln 2)%R.

Definition fl_denote (x : fl) : R :=
  match x with
  | FQ q => Q2R q
  | FLog2 q => log2R (Q2R q)
  end.

(** The test for [valid_sequence]. *)
Definition valid_sequenceb (s : string) : bool :=
  negb (String.eqb s "") && forallb (fun c => mem_ascii c valid_bases) (chars (upper s)).

(** ** Accumulation *)

(** The outcome of a check run on its own, put behind the messages [errs]
    accumulated before it. *)
Definition after (errs : errors) (own : result errors) : result errors :=
  added <- own ;; Ok (errs ++ added).

(** The messages of the checks of stage 3, each check run on its own empty
    accumulator, in the order of the checks. *)
Definition remaining_messages (payload : dict) : result errors :=
  readout <- getitem_str (VDict payload) "readout" ;;
  tasks <- getitem_str (VDict payload) "prediction_tasks" ;;
  names <- check_prediction_task_name tasks [] ;;
  types <- check_prediction_task_type tasks [] ;;
  cell_types <- check_prediction_task_cell_type tasks [] ;;
  species <- check_prediction_task_species tasks [] ;;
  scales <- check_prediction_task_scale tasks [] ;;
  ranges <-
    (if has_key "prediction_ranges" payload then
       ranges <- getitem_str (VDict payload) "prediction_ranges" ;;
       sequences <- getitem_str (VDict payload) "sequences" ;;
       ids <- check_seq_ids ranges sequences [] ;;
       bounds <- check_prediction_ranges ranges sequences [] ;;
       Ok (ids ++ bounds)
     else Ok []) ;;
  let upstream :=
    match lookup "upstream_seq" payload with
    | Some up => check_key_values_upstream_flank up []
    | None => []
    end in
  let downstream :=
    match lookup "downstream_seq" payload with
    | Some down => check_key_values_downstream_flank down []
    | None => []
    end in
  Ok (check_key_values_readout readout [] ++ names ++ types ++ cell_types
      ++ species ++ scales ++ ranges ++ upstream ++ downstream).

(** * predictor_RestAPI.py: the error handler and the [/predict] route *)

Definition PREDICTOR_NAME : string := "CpG Predictor".

Definition SUPPORTED_REQUEST_FORMATS : list string :=
  map lower ["application/json"; "application/msgpack"].

Definition SUPPORTED_RESPONSE_FORMATS : list string :=
  map lower ["application/json"; "application/msgpack"].

Section ErrorHandler.

(** The text of a message ([str] of the formatted string), and the two
    serialisers. *)
Variable text : msg -> string.
Variable packb : value -> result string.
Variable jsonify : value -> result string.

(** [create_error_response]: a message that is not a list becomes the list
    of its text; every message goes under [error_key]. *)
Definition create_error_response (error_key : string) (messages : message)
    (status_code : Z) : dict * Z :=
  let messages :=
    match messages with
    | Msgs l => map text l
    | Msg1 m => [text m]
    end in
  ([("error", VList (map (fun m => VDict [(error_key, VStr m)]) messages))],
   status_code).

(** [handle_api_error], the handler registered for [APIError]. *)
Definition handle_api_error (req : request) (c : api_class) (m : message)
  : result response :=
  let '(payload, status) := create_error_response (error_key c) m (status_code c) in
  encode_response packb jsonify req payload status true None PREDICTOR_NAME.

End ErrorHandler.

(** One entry of [prediction_tasks] in the response of the route. *)
Record task_output : Type := {
  out_name : value;
  type_requested : value;
  type_actual : list string;
  cell_type_requested : value;
  cell_type_actual : string;
  species_requested : value;
  species_actual : string;
  scale_prediction_requested : value;
  scale_prediction_actual : value;
  out_predictions : predictions
}.

(** [json_return]: [bin_size] is there for the track readout only. *)
Record route_output : Type := {
  bin_size : option Z;
  prediction_tasks : list task_output
}.

(** The body of the loop over the prediction tasks. *)
Definition predict_task (sequences : dict) (readout_type prediction_task : value)
  : result task_output :=
  request_type <- getitem_str prediction_task "type" ;;
  cell_type <- getitem_str prediction_task "cell_type" ;;
  scale_requested <- py_get prediction_task "scale" VNone ;;
  '(task_prediction, scale_actual) <-
      predict_cpg (VDict sequences) readout_type scale_requested ;;
  name <- getitem_str prediction_task "name" ;;
  species <- getitem_str prediction_task "species" ;;
  Ok {| out_name := name;
        type_requested := request_type;
        type_actual := ["NA"];
        cell_type_requested := cell_type;
        cell_type_actual := "NA";
        species_requested := species;
        species_actual := "NA";
        scale_prediction_requested := scale_requested;
        scale_prediction_actual := scale_actual;
        out_predictions := task_prediction |}.

(** The route between [preprocess_data] and [encode_response]:
    [json_return] is bound under the readouts "track" and "point" only, and
    using it unbound raises. *)
Definition predict_tasks (evaluator_request : value) (sequences : dict)
  : result route_output :=
  readout_type <- py_get evaluator_request "readout" VNone ;;
  let json_return :=
    if in_strs readout_type ["track"] then Some (Some 1) else None in
  let json_return :=
    if in_strs readout_type ["point"] then Some None else json_return in
  tasks <- getitem_str evaluator_request "prediction_tasks" ;;
  ts <- py_iter tasks ;;
  outs <-
    for_each (fun prediction_task (outs : list task_output) =>
                out <- predict_task sequences readout_type prediction_task ;;
                match json_return with
                | Some _ => Ok (outs ++ [out])
                | None => Raise (PyExc UnboundLocalError)
                end)
             ts [] ;;
  match json_return with
  | Some b => Ok {| bin_size := b; prediction_tasks := outs |}
  | None => Raise (PyExc UnboundLocalError)
  end.

Section Route.

Variable get_json : request -> result value.
Variable unpackb : string -> result value.

(** The [/predict] route up to the encoding of [json_return], with its
    [except] clause. *)
Definition predict_before_encode (req : request) : result route_output :=
  reraise
    (evaluator_request <- decode_request get_json unpackb req SUPPORTED_REQUEST_FORMATS ;;
     _ <- validate_request_payload evaluator_request ;;
     sequences <- preprocess_data evaluator_request ;;
     predict_tasks evaluator_request sequences).

End Route.

(** ** Notions used in the further properties *)

(** A task type the type check lets through. *)
Definition recognized_type (t : string) : bool :=
  mem_str t prediction_task_options || existsb (startswith t) prediction_task_prefixes.

(** The message of stage 2 for the task [task] at position [index], if it
    lacks a mandatory key. *)
Definition task_key_messages (it : nat * dict) : list msg :=
  let '(index, task) := it in
  match sorted (set_minus task_mandatory_keys (keys task)) with
  | [] => []
  | missing =>
      [[Lit "Mandatory keys missing from prediction_task '";
        Fmt (dict_get "name" (VStr ("at index " ++ str_of_Z (Z.of_nat index))%string) task);
        Lit "': "; Lit (join ", " missing)]]
  end.

(** A task whose [field] is a string. *)
Definition string_field (field : string) (task : dict) : Prop :=
  exists s, lookup field task = Some (VStr s).

(** A task whose type is a recognized string. *)
Definition type_ok (task : dict) : Prop :=
  exists t, lookup "type" task = Some (VStr t) /\ recognized_type t = true.

(** A task without scale, or with the scale "linear" or "log". *)
Definition scale_ok (task : dict) : Prop :=
  lookup "scale" task = None \/ lookup "scale" task = Some (VStr "linear") \/
  lookup "scale" task = Some (VStr "log").

(** A list of task dictionaries as a Python object. *)
Definition task_list (ts : list dict) : value := VList (map VDict ts).

(** A task that has the four mandatory keys. *)
Definition has_task_keys (task : dict) : Prop :=
  forall k, In k task_mandatory_keys -> In k (keys task).

(** The messages of stage 2 for the tasks [ts]. *)
Definition all_task_key_messages (ts : list dict) : list msg :=
  flat_map task_key_messages (enumerate_from 0 ts).

(** A range entry the range check lets through: the empty list, or two
    integers (booleans count as 1 and 0) with [0 <= start <= end] and [end]
    below the length of what [sequences] holds under the key (of the empty
    string when it holds nothing). *)
Definition range_entry_ok (sequences : dict) (entry : string * value) : Prop :=
  snd entry = VList [] \/
  exists x y a b n,
    snd entry = VList [x; y] /\ as_index x = Ok a /\ as_index y = Ok b /\
    py_len (dict_get (fst entry) (VStr "") sequences) = Ok n /\
    0 <= a <= b /\ b < n.

(** The messages of the range check for the pair of integers [x], [y]
    (standing for [a], [b]) under [key] and a sequence of length [n]. *)
Definition range_pair_messages (key : string) (x y : value) (a b n : Z) : list msg :=
  (if (a <? 0) || (b <? 0) then
     [[Lit "Invalid range for '"; Fmt (VStr key);
       Lit "' in 'prediction_ranges': indices must be positive. Received [";
       Fmt x; Lit ", "; Fmt y; Lit "]"]]
   else []) ++
  (if b <? a then
     [[Lit "Invalid range for '"; Fmt (VStr key);
       Lit "' in 'prediction_ranges': start index ("; Fmt x;
       Lit ") cannot be greater than end index ("; Fmt y;
       Lit "). Received ["; Fmt x; Lit ", "; Fmt y; Lit "]"]]
   else []) ++
  (if (n <=? a) || (n <=? b) then
     [if n =? 0 then
        [Lit "Invalid range for '"; Fmt (VStr key);
         Lit "': cannot specify a range for a non-existent or empty sequence."]
      else
        [Lit "Invalid range for '"; Fmt (VStr key);
         Lit "': index is out of bounds. The maximum valid index for a sequence of length ";
         Fmt (VInt n); Lit " is "; Fmt (VInt (n - 1)); Lit "."]]
   else []).

(** A task validation lets through. *)
Definition task_accepted (task : dict) : Prop :=
  string_field "name" task /\ type_ok task /\ string_field "cell_type" task /\
  string_field "species" task /\ scale_ok task.

(** The ranges of a payload as validation lets them through: absent, or a
    dictionary with the keys of the sequences, themselves a dictionary, and
    every entry within its sequence. *)
Definition ranges_accepted (payload : dict) : Prop :=
  lookup "prediction_ranges" payload = None \/
  exists ranges sequences,
    lookup "prediction_ranges" payload = Some (VDict ranges) /\
    lookup "sequences" payload = Some (VDict sequences) /\
    (forall k, In k (keys ranges) <-> In k (keys sequences)) /\
    Forall (range_entry_ok sequences) ranges.

(** A request that passes validation: one task, the sequence "AAAA", the
    range [[0, 3]]. *)
Definition sample_task_dict : dict :=
  [("name", VStr "t1"); ("type", VStr "expression");
   ("cell_type", VStr "K562"); ("species", VStr "human")].

Definition sample_valid_payload : dict :=
  [("readout", VStr "point"); ("prediction_tasks", VList [VDict sample_task_dict]);
   ("sequences", VDict [("s1", VStr "AAAA")]);
   ("prediction_ranges", VDict [("s1", VList [VInt 0; VInt 3])])].

(** Text the model of [str] is exact for: every character is an ASCII
    character. *)
Definition ascii_text (s : string) : Prop :=
  Forall (fun c => (nat_of_ascii c < 128)%nat) (chars s).

(** [{"readout": "point", "sequences": {"s1": "AXGT", "s2": "ACGT"}}]. *)
Definition sample_invalid_sequence_payload : dict :=
  [("readout", VStr "point");
   ("sequences", VDict [("s1", VStr "AXGT"); ("s2", VStr "ACGT")])].

(** An outcome that is a value or a built-in Python exception: no API
    error is raised, and nothing outside the model is met. *)
Definition builtin_only {A : Type} (r : result A) : Prop :=
  match r with
  | Ok _ => True
  | Raise (PyExc _) => True
  | Raise _ => False
  end.

(** What validation can end with: a [BadRequestError] with at least one
    message, or a built-in Python exception. *)
Definition bad_request_or_builtin (e : exn) : Prop :=
  (exists msgs, msgs <> [] /\ e = BadRequestError (Msgs msgs)) \/
  (exists x, e = PyExc x).

(** The [ServerError] the [/predict] route turns any other exception into. *)
Definition unexpected_error : exn :=
  ServerError (Msg1 [Lit "An unexpected internal error occurred: "; FmtCaught; Lit "."]).

(** The track of the sequence [s] under the scale [scale_actual], "linear"
    or "log": one value per character of the cleaned sequence. *)
Definition track_values (scale_actual : value) (s : string) : list fl :=
  let sequence := cleaned s in
  if is_str scale_actual "log" then
    map (fun i => FLog2 (window_density sequence i + epsilon)%Q) (range (len_str sequence))
  else
    map (fun i => FQ (window_density sequence i)) (range (len_str sequence)).

(** The payload [encode_response] serialises: the name of the predictor
    goes first unless the payload has one. *)
Definition named_payload (predictor_name : string) (payload : dict) : dict :=
  if has_key "predictor_name" payload then payload
  else ("predictor_name", VStr predictor_name) :: payload.

(** * Properties *)

(** ** The error monad and Python primitives *)

Lemma bind_Ok {A B : Type} (a : A) (k : A -> result B) : bind (Ok a) k = k a.
Proof. reflexivity. Qed.

Lemma bind_Raise {A B : Type} (e : exn) (k : A -> result B) :
  bind (Raise e) k = Raise e.
Proof. reflexivity. Qed.

Lemma mem_str_In (k : string) (l : list string) : mem_str k l = true <-> In k l.
Proof.
  unfold mem_str. rewrite existsb_exists. split.
  - intros [x [Hin Heq]]. apply String.eqb_eq in Heq. now subst.
  - intros Hin. exists k. split; [assumption | apply String.eqb_refl].
Qed.

Lemma mem_str_false (k : string) (l : list string) : mem_str k l = false <-> ~ In k l.
Proof.
  rewrite <- mem_str_In. destruct (mem_str k l); split; congruence.
Qed.

Lemma lookup_None_keys {A : Type} (k : string) (d : list (string * A)) :
  lookup k d = None <-> ~ In k (keys d).
Proof.
  induction d as [| [k' v] d IH]; simpl.
  - tauto.
  - destruct (String.eqb k k') eqn:E.
    + apply String.eqb_eq in E. subst. split; [discriminate | intros H; exfalso; auto].
    + apply String.eqb_neq in E. rewrite IH. split.
      * intros H [H1 | H1]; [congruence | auto].
      * intros H H1. apply H. now right.
Qed.

Lemma has_key_keys (k : string) (d : dict) : has_key k d = mem_str k (keys d).
Proof.
  unfold has_key. destruct (lookup k d) eqn:E.
  - symmetry. apply mem_str_In. destruct (in_dec string_dec k (keys d)) as [H | H]; auto.
    apply lookup_None_keys in H. congruence.
  - symmetry. apply mem_str_false. now apply lookup_None_keys.
Qed.

(** ** [set_minus] and [sorted] *)

Lemma set_minus_In (k : string) (a b : list string) :
  In k (set_minus a b) <-> In k a /\ ~ In k b.
Proof.
  unfold set_minus. rewrite nodup_In, filter_In, negb_true_iff, mem_str_false.
  reflexivity.
Qed.

Lemma set_minus_NoDup (a b : list string) : NoDup (set_minus a b).
Proof. apply NoDup_nodup. Qed.

Lemma insert_sorted_perm (k : string) (l : list string) :
  Permutation (insert_sorted k l) (k :: l).
Proof.
  induction l as [| h t IH]; simpl.
  - apply Permutation_refl.
  - destruct (String.leb k h).
    + apply Permutation_refl.
    + eapply perm_trans; [apply perm_skip, IH | apply perm_swap].
Qed.

Lemma sorted_perm (l : list string) : Permutation (sorted l) l.
Proof.
  induction l as [| h t IH]; simpl.
  - apply perm_nil.
  - eapply perm_trans; [apply insert_sorted_perm | now apply perm_skip].
Qed.

Lemma sorted_In (k : string) (l : list string) : In k (sorted l) <-> In k l.
Proof.
  split; apply Permutation_in; [apply sorted_perm | apply Permutation_sym, sorted_perm].
Qed.

Lemma leb_total (a b : string) : String.leb a b = false -> String.leb b a = true.
Proof.
  unfold String.leb. rewrite (String.compare_antisym b a).
  destruct (String.compare a b); simpl; congruence.
Qed.

Lemma insert_sorted_HdRel (k a : string) (l : list string) :
  le_str a k -> HdRel le_str a l -> HdRel le_str a (insert_sorted k l).
Proof.
  intros Hak Hl. destruct l as [| h t]; simpl.
  - now constructor.
  - inversion Hl; subst. destruct (String.leb k h); now constructor.
Qed.

Lemma insert_sorted_Sorted (k : string) (l : list string) :
  Sorted le_str l -> Sorted le_str (insert_sorted k l).
Proof.
  induction 1 as [| h t Ht IH Hhd]; simpl.
  - repeat constructor.
  - destruct (String.leb k h) eqn:E.
    + constructor; [now constructor | now constructor].
    + constructor; [assumption |].
      apply insert_sorted_HdRel; [now apply leb_total | assumption].
Qed.

Lemma sorted_Sorted (l : list string) : Sorted le_str (sorted l).
Proof.
  induction l as [| h t IH]; simpl.
  - constructor.
  - now apply insert_sorted_Sorted.
Qed.

Lemma sorted_NoDup (l : list string) : NoDup l -> NoDup (sorted l).
Proof.
  intros H. eapply Permutation_NoDup; [apply Permutation_sym, sorted_perm | assumption].
Qed.

(** ** Stage 1 of validation *)

Lemma missing_keys_In (k : string) (ks : list string) :
  In k (missing_keys ks) <-> In k mandatory_keys /\ ~ In k ks.
Proof. unfold missing_keys. now rewrite sorted_In, set_minus_In. Qed.

Lemma check_mandatory_keys_missing (ks : list string) (errs : errors) :
  missing_keys ks <> [] ->
  check_mandatory_keys ks errs = errs ++ [missing_keys_message (missing_keys ks)].
Proof.
  intros H. unfold check_mandatory_keys. fold (missing_keys ks).
  destruct (missing_keys ks); [congruence | reflexivity].
Qed.

Lemma check_mandatory_keys_complete (ks : list string) (errs : errors) :
  missing_keys ks = [] -> check_mandatory_keys ks errs = errs.
Proof.
  intros H. unfold check_mandatory_keys. fold (missing_keys ks). now rewrite H.
Qed.

(** C1. A payload (a dictionary) that lacks one of the mandatory top-level
    keys [readout], [prediction_tasks], [sequences] makes
    [validate_request_payload] raise a [BadRequestError] (status 400) whose
    message list is exactly one message: the fixed text followed by the
    missing keys joined by a comma, where the missing keys are exactly the
    mandatory keys absent from the payload, each once, in sorted order.  No
    message of a later stage is in the list. *)
Theorem validate_missing_top_level_keys (payload : dict) (k : string) :
  In k mandatory_keys ->
  has_key k payload = false ->
  let missing := missing_keys (keys payload) in
  (forall k', In k' missing <-> In k' mandatory_keys /\ has_key k' payload = false) /\
  NoDup missing /\
  Sorted le_str missing /\
  validate_request_payload (VDict payload) =
    Raise (BadRequestError (Msgs [missing_keys_message missing])) /\
  exn_status (BadRequestError (Msgs [missing_keys_message missing])) = Some 400.
Proof.
  intros Hk Habs missing.
  assert (Hmem : forall k', has_key k' payload = false <-> ~ In k' (keys payload)).
  { intros k'. rewrite has_key_keys. apply mem_str_false. }
  split; [| split; [| split; [| split]]].
  - intros k'. unfold missing. rewrite missing_keys_In, Hmem. reflexivity.
  - apply sorted_NoDup, set_minus_NoDup.
  - apply sorted_Sorted.
  - assert (Hne : missing_keys (keys payload) <> []).
    { intros E. assert (Hin : In k (missing_keys (keys payload))).
      { apply missing_keys_In. split; [assumption | now apply Hmem]. }
      rewrite E in Hin. inversion Hin. }
    unfold validate_request_payload. simpl py_keys. rewrite bind_Ok.
    rewrite check_mandatory_keys_missing by exact Hne. simpl app.
    reflexivity.
  - reflexivity.
Qed.

(** The theorem at the payload [{"readout": "point"}]. *)
Lemma validate_missing_top_level_keys_witness :
  validate_request_payload (VDict [("readout", VStr "point")]) =
    Raise (BadRequestError
             (Msgs [[Lit "The following mandatory top-level keys are missing from the JSON: ";
                     Lit "prediction_tasks, sequences"]])).
Proof.
  pose proof (@validate_missing_top_level_keys
                [("readout", VStr "point")] "sequences") as H.
  simpl in H.
  destruct (H (or_intror (or_intror (or_introl eq_refl))) eq_refl)
    as [_ [_ [_ [Hv _]]]].
  exact Hv.
Defined.

(** ** Stage 3 of validation: the range check *)

(** A range list shorter than two elements: the check records the wrong
    length and then reads [value[1]]. *)
Lemma check_one_prediction_range_short (sequences : value) (key : string)
    (x : value) (errs : errors) :
  check_one_prediction_range sequences key (VList [x]) errs = Raise (PyExc IndexError).
Proof. reflexivity. Qed.

(** The out-of-bounds message for the key [s1] and a sequence of length 4,
    as text. *)
Example out_of_bounds_message_text :
  render [Lit "Invalid range for '"; Fmt (VStr "s1");
          Lit "': index is out of bounds. The maximum valid index for a sequence of length ";
          Fmt (VInt 4); Lit " is "; Fmt (VInt 3); Lit "."] =
  Some "Invalid range for 's1': index is out of bounds. The maximum valid index for a sequence of length 4 is 3.".
Proof. reflexivity. Qed.

(** C3. The range check on the request with sequences [{"s1": "AAAA"}]:
    the range [[0, 5]] is rejected with status 400 and the single
    out-of-bounds message naming the maximum valid index 3; but the
    one-element range [[0]], a non-empty list without exactly two elements,
    does not end in a 400: the check raises [IndexError], which the route
    turns into a [ServerError] (status 500). *)
Theorem validate_range_one_element_raises_IndexError :
  validate_request_payload (sample_payload (VStr "point") (VList [VInt 0; VInt 5])) =
    Raise (BadRequestError
             (Msgs [[Lit "Invalid range for '"; Fmt (VStr "s1");
                     Lit "': index is out of bounds. The maximum valid index for a sequence of length ";
                     Fmt (VInt 4); Lit " is "; Fmt (VInt 3); Lit "."]])) /\
  validate_request_payload (sample_payload (VStr "point") (VList [VInt 0])) =
    Raise (PyExc IndexError) /\
  (exists e,
     reraise (validate_request_payload (sample_payload (VStr "point") (VList [VInt 0]))) =
       Raise e /\ exn_status e = Some 500).
Proof.
  split; [reflexivity | split; [reflexivity |]].
  eexists. split; reflexivity.
Qed.

(** C2. Accumulation in stage 3, and where it breaks.  With an unknown
    readout and a three-element range both violations reach the caller in
    one 400 error; with an unknown readout and a one-element range no 400 is
    raised at all: [check_prediction_ranges] raises [IndexError] and the
    messages accumulated so far are lost, the route answering with status
    500. *)
Theorem validate_accumulated_messages_lost_on_IndexError :
  validate_request_payload
    (sample_payload (VStr "bogus") (VList [VInt 0; VInt 1; VInt 2])) =
    Raise (BadRequestError
             (Msgs [[Lit "readout requested is not recognized. Please choose from ['point', 'track', 'interaction_matrix']"];
                    [Lit "Range array for '"; Fmt (VStr "s1");
                     Lit "' in 'prediction_ranges' must have 2 elements"]])) /\
  validate_request_payload (sample_payload (VStr "bogus") (VList [VInt 0])) =
    Raise (PyExc IndexError) /\
  (exists e,
     reraise (validate_request_payload (sample_payload (VStr "bogus") (VList [VInt 0]))) =
       Raise e /\ exn_status e = Some 500).
Proof.
  split; [reflexivity | split; [reflexivity |]].
  eexists. split; reflexivity.
Qed.

(** Other malformed ranges that end in a built-in exception rather than in
    the accumulated 400: a number in place of the list, and a list of two
    strings. *)
Example validate_range_number :
  validate_request_payload (sample_payload (VStr "point") (VInt 5)) =
    Raise (PyExc TypeError).
Proof. reflexivity. Qed.

Example validate_range_strings :
  validate_request_payload
    (sample_payload (VStr "point") (VList [VStr "a"; VStr "b"])) =
    Raise (PyExc TypeError).
Proof. reflexivity. Qed.

(** A malformed range that is reported as the accumulation intends: a
    list of two floats. *)
Example validate_range_floats :
  validate_request_payload
    (sample_payload (VStr "point") (VList [VFloat (1 # 2); VFloat (3 # 2)])) =
    Raise (BadRequestError
             (Msgs [[Lit "Values in '"; Fmt (VStr "s1");
                     Lit "' in 'prediction_ranges' must be integers"]])).
Proof. reflexivity. Qed.

(** ** Strings and slices *)

Lemma append_empty_r (s : string) : (s ++ "")%string = s.
Proof. induction s as [| c s IH]; simpl; [reflexivity | now rewrite IH]. Qed.

Lemma substring_beyond (s : string) : forall n m : nat,
  (String.length s <= n)%nat -> String.substring n m s = "".
Proof.
  induction s as [| c s IH]; intros n m H.
  - destruct n, m; reflexivity.
  - destruct n as [| n]; simpl in *; [lia |]. apply IH. lia.
Qed.

Lemma substring_truncate (s : string) : forall n m : nat,
  String.substring n m s = String.substring n (Nat.min m (String.length s - n)) s.
Proof.
  induction s as [| c s IH]; intros n m.
  - destruct n, m; reflexivity.
  - destruct n as [| n]; simpl String.length.
    + destruct m as [| m]; [reflexivity |].
      replace (Nat.min (S m) (S (String.length s) - 0))
        with (S (Nat.min m (String.length s - 0))) by lia.
      simpl. f_equal. apply IH.
    + simpl. rewrite IH. reflexivity.
Qed.

(** On a range [0 <= a <= b] the slice [s[a:b+1]] is the inclusive slice. *)
Lemma py_slice_inclusive (s : string) (a b : Z) :
  0 <= a <= b -> py_slice s a (b + 1) = inclusive_slice s a b.
Proof.
  intros H. unfold py_slice, inclusive_slice, slice_bound, len_str.
  destruct (a <? 0) eqn:Ea; [apply Z.ltb_lt in Ea; lia |].
  destruct (b + 1 <? 0) eqn:Eb; [apply Z.ltb_lt in Eb; lia |].
  set (n := String.length s).
  destruct (Z_le_gt_dec a (Z.of_nat n)) as [Hle | Hgt].
  - rewrite Z.min_l by assumption.
    rewrite (substring_truncate s (Z.to_nat a) (Z.to_nat (b - a + 1))).
    f_equal. fold n. lia.
  - rewrite Z.min_r by lia. rewrite Z.min_r by lia.
    rewrite !substring_beyond; [reflexivity | fold n; lia | fold n; lia].
Qed.

(** The inclusive slice holds the characters at [a], [a+1], ..., [b]. *)
Lemma inclusive_slice_get (s : string) (a b : Z) (i : nat) :
  0 <= a -> (Z.of_nat i <= b - a) ->
  String.get i (inclusive_slice s a b) = String.get (i + Z.to_nat a) s.
Proof.
  intros Ha Hi. unfold inclusive_slice. apply String.substring_correct1. lia.
Qed.

(** ** Dictionaries *)

Lemma keys_str_dict (seqs : list (string * string)) : keys (str_dict seqs) = keys seqs.
Proof.
  unfold keys, str_dict. rewrite map_map. apply map_ext. now intros [k v].
Qed.

Lemma lookup_str_dict (k : string) (seqs : list (string * string)) :
  lookup k (str_dict seqs) = option_map VStr (lookup k seqs).
Proof.
  induction seqs as [| [k' v] seqs IH]; simpl; [reflexivity |].
  destruct (String.eqb k k'); [reflexivity | exact IH].
Qed.

Lemma lookup_In_NoDup {A : Type} (k : string) (v : A) (d : list (string * A)) :
  NoDup (keys d) -> In (k, v) d -> lookup k d = Some v.
Proof.
  induction d as [| [k' v'] d IH]; simpl; intros Hnd Hin; [contradiction |].
  inversion Hnd as [| ? ? Hnotin Hnd']; subst.
  destruct Hin as [Heq | Hin].
  - inversion Heq; subst. now rewrite String.eqb_refl.
  - destruct (String.eqb k k') eqn:E.
    + apply String.eqb_eq in E. subst. exfalso. apply Hnotin.
      unfold keys. apply (in_map fst) in Hin. exact Hin.
    + now apply IH.
Qed.

Lemma lookup_Some_In {A : Type} (k : string) (v : A) (d : list (string * A)) :
  lookup k d = Some v -> In (k, v) d.
Proof.
  induction d as [| [k' v'] d IH]; simpl; [discriminate |].
  destruct (String.eqb k k') eqn:E.
  - apply String.eqb_eq in E. intros H. inversion H; subst. now left.
  - intros H. right. now apply IH.
Qed.

Lemma lookup_in_keys {A : Type} (k : string) (d : list (string * A)) :
  In k (keys d) -> exists v, lookup k d = Some v.
Proof.
  intros H. destruct (lookup k d) eqn:E; [now eexists |].
  apply lookup_None_keys in E. contradiction.
Qed.

Lemma dict_set_middle {A : Type} (k : string) (x v : A) (l1 l2 : list (string * A)) :
  ~ In k (keys l1) -> dict_set k x (l1 ++ (k, v) :: l2) = l1 ++ (k, x) :: l2.
Proof.
  induction l1 as [| [k' v'] l1 IH]; simpl; intros H.
  - now rewrite String.eqb_refl.
  - destruct (String.eqb k k') eqn:E.
    + apply String.eqb_eq in E. subst. exfalso. apply H. now left.
    + f_equal. apply IH. intros Hin. apply H. now right.
Qed.

(** Assigning under a key maps over the dictionary. *)
Lemma dict_set_as_map {A : Type} (k : string) (x : A) (d : list (string * A)) :
  In k (keys d) -> NoDup (keys d) ->
  dict_set k x d = map (fun '(k', v) => (k', if String.eqb k' k then x else v)) d.
Proof.
  induction d as [| [k' v'] d IH]; simpl; intros Hin Hnd; [contradiction |].
  inversion Hnd as [| ? ? Hnotin Hnd']; subst.
  destruct (String.eqb k k') eqn:E.
  - apply String.eqb_eq in E. subst. rewrite String.eqb_refl. f_equal.
    rewrite <- (map_id d) at 1. apply map_ext_in. intros [k2 v2] H2.
    destruct (String.eqb k2 k') eqn:E2; [| reflexivity].
    apply String.eqb_eq in E2. subst. exfalso. apply Hnotin.
    apply (in_map fst) in H2. exact H2.
  - rewrite String.eqb_sym, E. f_equal. apply IH; [| assumption].
    destruct Hin as [Heq | Hin]; [| assumption].
    apply String.eqb_neq in E. congruence.
Qed.

Lemma keys_dict_set {A : Type} (k : string) (x : A) (d : list (string * A)) :
  In k (keys d) -> keys (dict_set k x d) = keys d.
Proof.
  induction d as [| [k' v'] d IH]; simpl; intros Hin; [contradiction |].
  destruct (String.eqb k k') eqn:E.
  - apply String.eqb_eq in E. now subst.
  - simpl. f_equal. apply IH. destruct Hin as [Heq | Hin]; [| assumption].
    apply String.eqb_neq in E. congruence.
Qed.

Lemma str_dict_dict_set (k x : string) (seqs : list (string * string)) :
  dict_set k (VStr x) (str_dict seqs) = str_dict (dict_set k x seqs).
Proof.
  induction seqs as [| [k' v'] seqs IH]; simpl; [reflexivity |].
  destruct (String.eqb k k'); simpl; [reflexivity | now rewrite IH].
Qed.

(** ** The two loops of [preprocess_data] *)

Lemma for_each_cons {A St : Type} (body : A -> St -> result St) (x : A)
    (xs : list A) (s : St) :
  for_each body (x :: xs) s = bind (body x s) (for_each body xs).
Proof. reflexivity. Qed.

Lemma flank_one_str (up down k s : string) (acc : dict) :
  flank_one (VStr up) (VStr down) k (VStr s) acc =
  Ok (dict_set k (VStr (up ++ s ++ down)%string) acc).
Proof. reflexivity. Qed.

Lemma flank_loop (up down : string) (post pre : list (string * string)) :
  NoDup (keys (pre ++ post)) ->
  let f := fun '(id, s) => (id, (up ++ s ++ down)%string) : string * string in
  for_each (fun '(seq_id, sequence) =>
              flank_one (VStr up) (VStr down) seq_id sequence)
           (str_dict post) (str_dict (map f pre ++ post)) =
  Ok (str_dict (map f (pre ++ post))).
Proof.
  intros Hnd f. revert pre Hnd.
  induction post as [| [k s] post IH]; intros pre Hnd.
  - simpl. now rewrite !app_nil_r.
  - change (str_dict ((k, s) :: post)) with ((k, VStr s) :: str_dict post).
    rewrite for_each_cons. cbv beta iota. rewrite flank_one_str, bind_Ok.
    assert (Hnotin : ~ In k (keys (str_dict (map f pre)))).
    { rewrite keys_str_dict. unfold keys in *. rewrite map_map.
      rewrite map_app in Hnd. simpl in Hnd. apply NoDup_remove_2 in Hnd.
      intros Hin. apply Hnd. apply in_or_app. left.
      erewrite map_ext; [exact Hin |]. now intros [k' s']. }
    unfold str_dict at 2. rewrite map_app. simpl map.
    fold (str_dict (map f pre)). fold (str_dict post).
    rewrite dict_set_middle by exact Hnotin.
    assert (E1 : (pre ++ [(k, s)]) ++ post = pre ++ (k, s) :: post)
      by now rewrite <- app_assoc.
    specialize (IH (pre ++ [(k, s)])). rewrite E1 in IH.
    rewrite <- (IH Hnd). f_equal.
    unfold str_dict. rewrite !map_app. simpl. rewrite <- app_assoc. reflexivity.
Qed.

Lemma apply_flanks_closed (p : dict) (seqs : list (string * string)) :
  flank_ok "upstream_seq" p -> flank_ok "downstream_seq" p ->
  NoDup (keys seqs) ->
  apply_flanks p (VDict (str_dict seqs)) = Ok (VDict (str_dict (flanked p seqs))).
Proof.
  intros Hup Hdown Hnd.
  assert (Hid : seqs = map (fun '(id, s) => (id, ("" ++ s ++ "")%string)) seqs).
  { rewrite <- (map_id seqs) at 1. apply map_ext. intros [k s]. simpl.
    now rewrite append_empty_r. }
  assert (Hloop : forall up down,
    (items <- py_items (VDict (str_dict seqs)) ;;
     seqs' <- for_each (fun '(seq_id, sequence) =>
                          flank_one (VStr up) (VStr down) seq_id sequence)
                       items items ;;
     Ok (VDict seqs')) =
    Ok (VDict (str_dict (map (fun '(id, s) => (id, (up ++ s ++ down)%string)) seqs)))).
  { intros up down. simpl py_items. rewrite bind_Ok.
    pose proof (@flank_loop up down seqs [] Hnd) as H. simpl in H.
    rewrite H. reflexivity. }
  unfold apply_flanks, flanked, flank_of, has_key, dict_get.
  destruct Hup as [Hup | [u Hup]], Hdown as [Hdown | [d Hdown]];
    rewrite Hup, Hdown; simpl orb; cbv iota.
  - now rewrite <- Hid.
  - simpl truthy. simpl orb. destruct (String.eqb d "") eqn:E; simpl negb; cbv iota.
    + apply String.eqb_eq in E. subst d. now rewrite <- Hid.
    + simpl py_len. rewrite !bind_Ok. apply Hloop.
  - simpl truthy. rewrite orb_false_r.
    destruct (String.eqb u "") eqn:E; simpl negb; cbv iota.
    + apply String.eqb_eq in E. subst u. now rewrite <- Hid.
    + simpl py_len. rewrite !bind_Ok. apply Hloop.
  - simpl truthy.
    destruct (String.eqb u "") eqn:Eu, (String.eqb d "") eqn:Ed; simpl negb; simpl orb;
      cbv iota.
    + apply String.eqb_eq in Eu, Ed. subst u d. now rewrite <- Hid.
    + simpl py_len. rewrite !bind_Ok. apply Hloop.
    + simpl py_len. rewrite !bind_Ok. apply Hloop.
    + simpl py_len. rewrite !bind_Ok. apply Hloop.
Qed.

Lemma trim_one_empty (k : string) (sequences : value) :
  trim_one k (VList []) sequences = Ok sequences.
Proof. reflexivity. Qed.

Lemma trim_one_pair (k s : string) (a b : Z) (seqs : list (string * string)) :
  lookup k seqs = Some s ->
  trim_one k (VList [VInt a; VInt b]) (VDict (str_dict seqs)) =
  Ok (VDict (str_dict (dict_set k (py_slice s a (b + 1)) seqs))).
Proof.
  intros H. unfold trim_one, unpack2, getitem_str. simpl truthy. cbv iota.
  simpl py_iter. rewrite bind_Ok.
  rewrite lookup_str_dict, H. simpl. now rewrite str_dict_dict_set.
Qed.

Lemma trim_loop (rs : list (string * option (Z * Z))) :
  forall seqs : list (string * string),
  NoDup (keys rs) -> NoDup (keys seqs) -> incl (keys rs) (keys seqs) ->
  Forall range_ok rs ->
  for_each (fun '(seq_id, pr) => trim_one seq_id pr) (range_dict rs)
           (VDict (str_dict seqs)) =
  Ok (VDict (str_dict (trimmed rs seqs))).
Proof.
  induction rs as [| [k r] rs IH]; intros seqs Hrs Hseqs Hincl Hok.
  - simpl. unfold trimmed. do 3 f_equal. rewrite <- (map_id seqs) at 1.
    apply map_ext. now intros [id s].
  - inversion Hrs as [| ? ? Hnotin Hrs']; subst.
    inversion Hok as [| ? ? Hk Hok']; subst.
    assert (Hkin : In k (keys seqs)) by (apply Hincl; now left).
    assert (Hincl' : incl (keys rs) (keys seqs)).
    { intros x Hx. apply Hincl. now right. }
    assert (Hnone : lookup k rs = None) by now apply lookup_None_keys.
    change (range_dict ((k, r) :: rs)) with ((k, range_value r) :: range_dict rs).
    rewrite for_each_cons. cbv beta iota.
    destruct r as [[a b] |]; simpl range_value.
    + destruct (lookup_in_keys k seqs Hkin) as [s Hs].
      rewrite trim_one_pair with (s := s) by exact Hs. rewrite bind_Ok.
      rewrite IH; [| assumption | now rewrite keys_dict_set
                   | now rewrite keys_dict_set | assumption].
      do 3 f_equal. unfold trimmed.
      rewrite dict_set_as_map by assumption. rewrite map_map.
      apply map_ext_in. intros [id s'] Hin. simpl lookup.
      destruct (String.eqb id k) eqn:E.
      * apply String.eqb_eq in E. subst id. rewrite Hnone. simpl trim.
        pose proof (lookup_In_NoDup k s' seqs Hseqs Hin) as Hs'.
        rewrite Hs in Hs'. inversion Hs'; subst s'.
        f_equal. apply py_slice_inclusive. exact Hk.
      * reflexivity.
    + rewrite trim_one_empty, bind_Ok.
      rewrite IH by assumption.
      do 3 f_equal. unfold trimmed. apply map_ext_in. intros [id s'] Hin. simpl lookup.
      destruct (String.eqb id k) eqn:E; [| reflexivity].
      apply String.eqb_eq in E. subst id. now rewrite Hnone.
Qed.

Lemma keys_flanked (p : dict) (seqs : list (string * string)) :
  keys (flanked p seqs) = keys seqs.
Proof.
  unfold keys, flanked. rewrite map_map. apply map_ext. now intros [k s].
Qed.

Lemma apply_ranges_closed (p : dict) (rs : list (string * option (Z * Z)))
    (seqs : list (string * string)) :
  ranges_are p rs -> NoDup (keys rs) -> NoDup (keys seqs) ->
  incl (keys rs) (keys seqs) -> Forall range_ok rs ->
  apply_ranges p (VDict (str_dict seqs)) = Ok (VDict (str_dict (trimmed rs seqs))).
Proof.
  intros Hr Hrs Hseqs Hincl Hok. unfold apply_ranges, has_key.
  destruct Hr as [[Hnone Hnil] | Hsome].
  - rewrite Hnone. subst rs. unfold trimmed. do 3 f_equal.
    rewrite <- (map_id seqs) at 1. apply map_ext. now intros [id s].
  - rewrite Hsome. unfold getitem_str. rewrite Hsome. rewrite bind_Ok.
    simpl py_items. rewrite bind_Ok. now apply trim_loop.
Qed.

(** The two steps of [preprocess_data] in closed form, on a payload whose
    sequences, flanks and ranges are of the types validation leaves. *)
Lemma preprocess_data_closed (p : dict) (seqs : list (string * string))
    (rs : list (string * option (Z * Z))) :
  lookup "sequences" p = Some (VDict (str_dict seqs)) ->
  NoDup (keys seqs) ->
  flank_ok "upstream_seq" p -> flank_ok "downstream_seq" p ->
  ranges_are p rs -> NoDup (keys rs) -> incl (keys rs) (keys seqs) ->
  Forall range_ok rs ->
  apply_flanks p (VDict (str_dict seqs)) = Ok (VDict (str_dict (flanked p seqs))) /\
  apply_ranges p (VDict (str_dict (flanked p seqs))) =
    Ok (VDict (str_dict (trimmed rs (flanked p seqs)))) /\
  preprocess_data (VDict p) =
    check_and_return p (VDict (str_dict (trimmed rs (flanked p seqs)))).
Proof.
  intros Hseq Hnd Hup Hdown Hr Hrs Hincl Hok.
  assert (H1 := apply_flanks_closed seqs Hup Hdown Hnd).
  assert (H2 : apply_ranges p (VDict (str_dict (flanked p seqs))) =
               Ok (VDict (str_dict (trimmed rs (flanked p seqs))))).
  { apply apply_ranges_closed; try assumption; now rewrite keys_flanked. }
  split; [exact H1 | split; [exact H2 |]].
  unfold preprocess_data. simpl py_items. rewrite bind_Ok.
  unfold dict_get. rewrite Hseq. rewrite H1, bind_Ok, H2, bind_Ok. reflexivity.
Qed.

(** ** The model-specific checks that end [preprocess_data] *)

Lemma check_one_seq_closed (seq_id s : string) (errs : errors) :
  check_one_seq_specifications seq_id (VStr s) errs = Ok (errs ++ seq_violations seq_id s).
Proof.
  unfold check_one_seq_specifications, seq_violations, append_msg. simpl truthy.
  rewrite negb_involutive.
  destruct (String.eqb s ""), (invalid_chars_of (upper s)); simpl;
    rewrite ?app_nil_r, <- ?app_assoc; reflexivity.
Qed.

Lemma check_seqs_loop (seqs : list (string * string)) : forall errs : errors,
  for_each (fun '(seq_id, seq) => check_one_seq_specifications seq_id seq)
           (str_dict seqs) errs =
  Ok (errs ++ all_violations seqs).
Proof.
  induction seqs as [| [k s] seqs IH]; intros errs.
  - simpl. now rewrite app_nil_r.
  - change (str_dict ((k, s) :: seqs)) with ((k, VStr s) :: str_dict seqs).
    rewrite for_each_cons. cbv beta iota. rewrite check_one_seq_closed, bind_Ok, IH.
    simpl all_violations. now rewrite app_assoc.
Qed.

Lemma check_seqs_specifications_closed (seqs : list (string * string)) (errs : errors) :
  check_seqs_specifications (VDict (str_dict seqs)) errs = Ok (errs ++ all_violations seqs).
Proof.
  unfold check_seqs_specifications. simpl py_items. rewrite bind_Ok.
  apply check_seqs_loop.
Qed.

(** The final sequences are returned when the readout is supported and no
    sequence violates the model's specifications. *)
Lemma check_and_return_valid (p : dict) (r : value) (seqs : list (string * string)) :
  lookup "readout" p = Some r -> in_strs r supported_readouts = true ->
  all_violations seqs = [] ->
  check_and_return p (VDict (str_dict seqs)) = Ok (str_dict seqs).
Proof.
  intros Hr Hin Hv. unfold check_and_return.
  rewrite check_seqs_specifications_closed, bind_Ok, Hv.
  unfold getitem_str. rewrite Hr, bind_Ok, Hin. reflexivity.
Qed.

Lemma lookup_map_values {A B : Type} (f : string -> A -> B) (k : string)
    (d : list (string * A)) :
  lookup k (map (fun '(k', v) => (k', f k' v)) d) = option_map (f k) (lookup k d).
Proof.
  induction d as [| [k' v] d IH]; simpl; [reflexivity |].
  destruct (String.eqb k k') eqn:E; [| exact IH].
  apply String.eqb_eq in E. now subst.
Qed.

(** C4. On a payload whose sequences are strings, whose flanks are absent
    or strings and whose ranges are empty lists or pairs [0 <= start <= end]
    for known sequence ids: [preprocess_data] first turns every sequence [s]
    into [upstream + s + downstream] (an absent flank counting as empty),
    then replaces every sequence that has a two-element range by the
    inclusive slice [start..end] of that flanked sequence, leaving the
    others as they are; the final checks and the returned map are those of
    the sequences so obtained. *)
Theorem preprocess_flanks_then_trims (p : dict) (seqs : list (string * string))
    (rs : list (string * option (Z * Z))) :
  lookup "sequences" p = Some (VDict (str_dict seqs)) ->
  NoDup (keys seqs) ->
  flank_ok "upstream_seq" p -> flank_ok "downstream_seq" p ->
  ranges_are p rs -> NoDup (keys rs) -> incl (keys rs) (keys seqs) ->
  Forall range_ok rs ->
  let final := trimmed rs (flanked p seqs) in
  apply_flanks p (VDict (str_dict seqs)) = Ok (VDict (str_dict (flanked p seqs))) /\
  apply_ranges p (VDict (str_dict (flanked p seqs))) = Ok (VDict (str_dict final)) /\
  preprocess_data (VDict p) = check_and_return p (VDict (str_dict final)) /\
  (forall id s, lookup id seqs = Some s ->
     lookup id final =
       Some (trim (lookup id rs)
               (flank_of "upstream_seq" p ++ s ++ flank_of "downstream_seq" p)%string)) /\
  (forall r, lookup "readout" p = Some r -> in_strs r supported_readouts = true ->
     all_violations final = [] ->
     preprocess_data (VDict p) = Ok (str_dict final)).
Proof.
  intros Hseq Hnd Hup Hdown Hr Hrs Hincl Hok final.
  destruct (@preprocess_data_closed p seqs rs Hseq Hnd Hup Hdown Hr Hrs Hincl Hok)
    as [H1 [H2 H3]].
  split; [exact H1 | split; [exact H2 | split; [exact H3 | split]]].
  - intros id s Hs. unfold final, trimmed, flanked.
    rewrite (lookup_map_values (fun id s => trim (lookup id rs) s)).
    rewrite (lookup_map_values
               (fun _ s => (flank_of "upstream_seq" p ++ s ++ flank_of "downstream_seq" p)%string)).
    now rewrite Hs.
  - intros r Hread Hin Hv. rewrite H3. now apply check_and_return_valid with (r := r).
Qed.

(** The theorem at upstream ["CG"], sequence ["AT"], no downstream and the
    range [[0, 1]]: the flanked sequence is ["CGAT"], the result ["CG"]. *)
Lemma preprocess_flanks_then_trims_witness :
  flanked sample_flank_payload [("s1", "AT")] = [("s1", "CGAT")] /\
  preprocess_data (VDict sample_flank_payload) = Ok [("s1", VStr "CG")].
Proof.
  split; [reflexivity |].
  assert (Hnd1 : NoDup (keys [("s1", "AT")])).
  { constructor; [simpl; tauto | constructor]. }
  assert (Hnd2 : NoDup (keys [("s1", Some (0, 1))])).
  { constructor; [simpl; tauto | constructor]. }
  assert (Hincl : incl (keys [("s1", Some (0, 1))]) (keys [("s1", "AT")])).
  { intros x Hx. exact Hx. }
  assert (Hok : Forall range_ok [("s1", Some (0, 1))]).
  { constructor; [unfold range_ok; simpl; lia | constructor]. }
  destruct (@preprocess_flanks_then_trims sample_flank_payload
              [("s1", "AT")] [("s1", Some (0, 1))]
              eq_refl Hnd1 (or_intror (ex_intro _ "CG" eq_refl)) (or_introl eq_refl)
              (or_intror eq_refl) Hnd2 Hincl Hok)
    as [_ [_ [_ [_ H]]]].
  exact (H (VStr "point") eq_refl eq_refl eq_refl).
Defined.

Lemma mem_ascii_In (c : ascii) (l : list ascii) : mem_ascii c l = true <-> In c l.
Proof.
  unfold mem_ascii. rewrite existsb_exists. split.
  - intros [x [Hin Heq]]. apply Ascii.eqb_eq in Heq. now subst.
  - intros Hin. exists c. split; [assumption | apply Ascii.eqb_refl].
Qed.

Lemma invalid_chars_of_In (c : ascii) (s : string) :
  In c (invalid_chars_of s) <-> In c (chars s) /\ ~ In c valid_bases.
Proof.
  unfold invalid_chars_of. rewrite nodup_In, filter_In, negb_true_iff.
  rewrite <- (mem_ascii_In c valid_bases). destruct (mem_ascii c valid_bases); split.
  - intros [_ H]. discriminate.
  - intros [_ H]. exfalso. now apply H.
  - intros [H _]. split; [assumption | discriminate].
  - intros [H _]. now split.
Qed.

Lemma seq_violations_nonempty (seq_id s : string) :
  violates_specifications s -> seq_violations seq_id s <> [].
Proof.
  intros [He | [c Hc]]; unfold seq_violations.
  - subst s. simpl. discriminate.
  - apply invalid_chars_of_In in Hc.
    destruct (invalid_chars_of (upper s)) as [| c' cs]; [inversion Hc |].
    destruct (String.eqb s ""); simpl; discriminate.
Qed.

Lemma all_violations_nonempty (seqs : list (string * string)) (seq_id s : string) :
  In (seq_id, s) seqs -> violates_specifications s -> all_violations seqs <> [].
Proof.
  intros Hin Hv E. unfold all_violations in E.
  apply (seq_violations_nonempty seq_id) in Hv.
  destruct (seq_violations seq_id s) as [| m ms] eqn:Es; [congruence |].
  assert (Hm : In m (flat_map (fun '(seq_id, s) => seq_violations seq_id s) seqs)).
  { apply in_flat_map. exists (seq_id, s). split; [assumption |]. rewrite Es. now left. }
  rewrite E in Hm. inversion Hm.
Qed.

(** C10. On a payload whose readout is neither [point] nor [track] and one
    of whose final sequences (after flanking and trimming) is empty or has a
    character outside the alphabet: the model-specific check does
    accumulate messages for the sequences, and [preprocess_data] raises the
    [BadRequestError] (status 400) about the readout, never a
    [PredictionFailedError]; the accumulated sequence messages are
    dropped. *)
Theorem preprocess_unsupported_readout_hides_sequence_errors (p : dict)
    (seqs : list (string * string)) (rs : list (string * option (Z * Z)))
    (readout_type : value) (seq_id s : string) :
  lookup "sequences" p = Some (VDict (str_dict seqs)) ->
  NoDup (keys seqs) ->
  flank_ok "upstream_seq" p -> flank_ok "downstream_seq" p ->
  ranges_are p rs -> NoDup (keys rs) -> incl (keys rs) (keys seqs) ->
  Forall range_ok rs ->
  lookup "readout" p = Some readout_type ->
  in_strs readout_type supported_readouts = false ->
  In (seq_id, s) (trimmed rs (flanked p seqs)) ->
  violates_specifications s ->
  let final := trimmed rs (flanked p seqs) in
  check_seqs_specifications (VDict (str_dict final)) [] = Ok (all_violations final) /\
  all_violations final <> [] /\
  preprocess_data (VDict p) =
    Raise (BadRequestError (Msg1 (unsupported_readout_message readout_type))) /\
  exn_status (BadRequestError (Msg1 (unsupported_readout_message readout_type))) = Some 400 /\
  (forall m, preprocess_data (VDict p) <> Raise (PredictionFailedError m)).
Proof.
  intros Hseq Hnd Hup Hdown Hr Hrs Hincl Hok Hread Hunsup Hin Hv final.
  destruct (@preprocess_data_closed p seqs rs Hseq Hnd Hup Hdown Hr Hrs Hincl Hok)
    as [_ [_ H3]].
  assert (Hraise : preprocess_data (VDict p) =
            Raise (BadRequestError (Msg1 (unsupported_readout_message readout_type)))).
  { rewrite H3. unfold check_and_return.
    rewrite check_seqs_specifications_closed, bind_Ok.
    unfold getitem_str. rewrite Hread, bind_Ok, Hunsup. reflexivity. }
  split; [apply check_seqs_specifications_closed | split; [| split; [| split]]].
  - now apply all_violations_nonempty with (seq_id := seq_id) (s := s).
  - exact Hraise.
  - reflexivity.
  - intros m. rewrite Hraise. discriminate.
Qed.

(** The theorem at readout ["interaction_matrix"] with the sequences
    ["AXGT"] and [""]. *)
Lemma preprocess_unsupported_readout_hides_sequence_errors_witness :
  preprocess_data (VDict sample_bad_readout_payload) =
    Raise (BadRequestError
             (Msg1 (unsupported_readout_message (VStr "interaction_matrix")))).
Proof.
  assert (Hnd1 : NoDup (keys [("s1", "AXGT"); ("s2", "")])).
  { constructor; [simpl; intuition discriminate |].
    constructor; [simpl; tauto | constructor]. }
  destruct (@preprocess_unsupported_readout_hides_sequence_errors
              sample_bad_readout_payload [("s1", "AXGT"); ("s2", "")] []
              (VStr "interaction_matrix") "s2" ""
              eq_refl Hnd1 (or_introl eq_refl) (or_introl eq_refl)
              (or_introl (conj eq_refl eq_refl)) (NoDup_nil _)
              (fun x (H : In x []) => match H with end) (Forall_nil _)
              eq_refl eq_refl (or_intror (or_introl eq_refl)) (or_introl eq_refl))
    as [_ [_ [H _]]].
  exact H.
Defined.

(** ** Content negotiation *)

Lemma response_format_cases (req : request) (isError : bool) (supported : list string) :
  response_format req isError supported =
  if isError then "application/json"
  else if accepts_msgpack req && mem_str "application/msgpack" supported
       then "application/msgpack" else "application/json".
Proof. reflexivity. Qed.

Lemma encode_response_Ok (packb jsonify : value -> result string) (req : request)
    (payload : dict) (status_code : Z) (isError : bool)
    (supported : option (list string)) (predictor_name : string) (r : response) :
  encode_response packb jsonify req payload status_code isError supported predictor_name
    = Ok r ->
  status r = status_code /\
  mimetype r = response_format req isError (supported_or_default supported).
Proof.
  unfold encode_response. fold (supported_or_default supported).
  set (fmt := response_format req isError (supported_or_default supported)).
  destruct (String.eqb fmt "application/msgpack") eqn:E.
  - apply String.eqb_eq in E. destruct (packb _); [| discriminate].
    intros H. inversion H; subst r. simpl. now split.
  - assert (Hj : fmt = "application/json").
    { unfold fmt in *. rewrite response_format_cases in *.
      destruct isError; [reflexivity |].
      destruct (accepts_msgpack req && mem_str "application/msgpack" _);
        [discriminate | reflexivity]. }
    destruct (jsonify _); [| discriminate].
    intros H. inversion H; subst r. simpl. now split.
Qed.

(** C7. [encode_response]: the payload with the name of the predictor is
    handed to one serialiser, the one of MsgPack exactly when [isError] is
    false, the [Accept] header (lower-cased) contains
    [application/msgpack] and the supported response formats include it,
    and the one of JSON otherwise; when that serialiser returns a body, a
    response is returned with this body, the status given and the media
    type of the serialiser, and when it fails a [ServerError] (status 500)
    is raised.  So every response returned carries the status it was given;
    with [isError] the response is [application/json] and does not depend
    on the request (its [Accept] header) at all; without [isError] the
    response is [application/msgpack] exactly when the header and the
    supported formats both name it, and [application/json] otherwise. *)
Theorem encode_response_negotiates_format (packb jsonify : value -> result string)
    (req : request) (payload : dict) (status_code : Z) (isError : bool)
    (supported : option (list string)) (predictor_name : string) :
  let encoded :=
    encode_response packb jsonify req payload status_code isError supported
                    predictor_name in
  let both := accepts_msgpack req = true /\
              In "application/msgpack" (supported_or_default supported) in
  let named := VDict (named_payload predictor_name payload) in
  (encoded =
     if negb isError && accepts_msgpack req
        && mem_str "application/msgpack" (supported_or_default supported)
     then
       match packb named with
       | Ok b => Ok {| body := b; status := status_code;
                       mimetype := "application/msgpack" |}
       | Raise _ =>
           Raise (ServerError
                    (Msg1 [Lit "Failed to serialize successful response as MsgPack."]))
       end
     else
       match jsonify named with
       | Ok b => Ok {| body := b; status := status_code;
                       mimetype := "application/json" |}
       | Raise _ =>
           Raise (ServerError
                    (Msg1 [Lit "Internal Server Error: Failed to serialize response as JSON: ";
                           FmtCaught]))
       end) /\
  (isError = false -> both ->
     forall b, packb named = Ok b ->
     encoded = Ok {| body := b; status := status_code;
                     mimetype := "application/msgpack" |}) /\
  (isError = true \/ ~ both ->
     forall b, jsonify named = Ok b ->
     encoded = Ok {| body := b; status := status_code;
                     mimetype := "application/json" |}) /\
  (forall r, encoded = Ok r ->
     status r = status_code /\
     (isError = true -> mimetype r = "application/json") /\
     (isError = false ->
        (mimetype r = "application/msgpack" <-> both) /\
        (mimetype r = "application/json" <-> ~ both))) /\
  (isError = true ->
     forall req', encode_response packb jsonify req' payload status_code isError
                    supported predictor_name = encoded) /\
  (forall e, encoded = Raise e -> exn_status e = Some 500).
Proof.
  intros encoded both named.
  assert (Hclosed :
    encoded =
      if negb isError && accepts_msgpack req
         && mem_str "application/msgpack" (supported_or_default supported)
      then
        match packb named with
        | Ok b => Ok {| body := b; status := status_code;
                        mimetype := "application/msgpack" |}
        | Raise _ =>
            Raise (ServerError
                     (Msg1 [Lit "Failed to serialize successful response as MsgPack."]))
        end
      else
        match jsonify named with
        | Ok b => Ok {| body := b; status := status_code;
                        mimetype := "application/json" |}
        | Raise _ =>
            Raise (ServerError
                     (Msg1 [Lit "Internal Server Error: Failed to serialize response as JSON: ";
                            FmtCaught]))
        end).
  { unfold encoded, encode_response. fold (supported_or_default supported).
    assert (E : (if negb (has_key "predictor_name" payload)
                 then ("predictor_name", VStr predictor_name) :: payload
                 else payload) = named_payload predictor_name payload).
    { unfold named_payload. now destruct (has_key "predictor_name" payload). }
    rewrite E. fold named. rewrite response_format_cases.
    destruct isError; [reflexivity |].
    simpl negb. rewrite andb_true_l.
    destruct (accepts_msgpack req && mem_str "application/msgpack" _); reflexivity. }
  assert (Hboth : accepts_msgpack req
                  && mem_str "application/msgpack" (supported_or_default supported) = true
                  <-> both).
  { unfold both. rewrite andb_true_iff, mem_str_In. tauto. }
  split; [exact Hclosed | split; [| split; [| split; [| split]]]].
  - intros He Hb b Hp. rewrite Hclosed, He. simpl negb. rewrite andb_true_l.
    rewrite (proj2 Hboth Hb), Hp. reflexivity.
  - intros H b Hj. rewrite Hclosed.
    assert (Hf : negb isError && accepts_msgpack req
                 && mem_str "application/msgpack" (supported_or_default supported) = false).
    { destruct H as [He | Hn]; [now rewrite He |].
      rewrite <- andb_assoc. apply andb_false_iff. right.
      destruct (accepts_msgpack req
                && mem_str "application/msgpack" (supported_or_default supported)) eqn:Eb;
        [| reflexivity].
      exfalso. apply Hn. now apply Hboth. }
    rewrite Hf, Hj. reflexivity.
  - intros r Hr. apply encode_response_Ok in Hr. destruct Hr as [Hs Hm].
    split; [exact Hs | split].
    + intros He. rewrite Hm, He. reflexivity.
    + intros He. rewrite Hm, response_format_cases, He. unfold both.
      rewrite <- mem_str_In.
      destruct (accepts_msgpack req), (mem_str "application/msgpack" _); simpl;
        split; split;
        try reflexivity; try discriminate; try tauto;
        try (intros [H1 H2]; discriminate);
        try (intros H; exfalso; apply H; now split);
        try (intros _ [H1 H2]; discriminate).
  - intros He req'. unfold encoded, encode_response. rewrite He. reflexivity.
  - intros e. rewrite Hclosed.
    destruct (negb isError && accepts_msgpack req
              && mem_str "application/msgpack" (supported_or_default supported)).
    + destruct (packb named); [discriminate |]. intros H. inversion H. reflexivity.
    + destruct (jsonify named); [discriminate |]. intros H. inversion H. reflexivity.
Qed.

(** An [Accept] header asking for msgpack only does not change an error
    response, and case does not matter in a success response. *)
Example error_response_ignores_accept (packb jsonify : value -> result string)
    (payload : dict) :
  encode_response packb jsonify
    {| content_type_header := None; accept_header := Some "application/msgpack";
       data := "" |}
    payload 400 true (Some ["application/json"; "application/msgpack"]) "CpG Predictor" =
  encode_response packb jsonify
    {| content_type_header := None; accept_header := None; data := "" |}
    payload 400 true (Some ["application/json"; "application/msgpack"]) "CpG Predictor".
Proof. reflexivity. Qed.

Example accept_header_case :
  accepts_msgpack {| content_type_header := None;
                     accept_header := Some "Application/MsgPack, */*"; data := "" |} = true.
Proof. reflexivity. Qed.

(** C8. [decode_request]: without a [Content-Type] header (or with an
    empty one) the content type is [application/json], otherwise it is the
    header in lower case; a content type that is not among the supported
    request formats raises a [BadRequestError]; a body the parser of the
    resolved format rejects raises a [BadRequestError]; and whatever
    [decode_request] raises has status 400, never 500. *)
Theorem decode_request_fails_with_400 (get_json : request -> result value)
    (unpackb : string -> result value) (req : request) (supported : list string) :
  let content_type := resolved_content_type req in
  let decoded := decode_request get_json unpackb req supported in
  (content_type_header req = None -> content_type = "application/json") /\
  (forall h, content_type_header req = Some h -> h <> "" -> content_type = lower h) /\
  (~ In content_type supported ->
     decoded = Raise (unsupported_content_type content_type supported)) /\
  (In content_type supported -> content_type = "application/json" ->
     forall e, get_json req = Raise e ->
     decoded = Raise (BadRequestError (Msg1 [Lit "Could not parse JSON payload: "; FmtCaught]))) /\
  (In content_type supported -> content_type = "application/msgpack" ->
     forall e, unpackb (data req) = Raise e ->
     decoded = Raise (BadRequestError (Msg1 [Lit "Could not decode MsgPack payload: "; FmtCaught]))) /\
  (forall e, decoded = Raise e -> exn_status e = Some 400).
Proof.
  intros content_type decoded.
  split; [| split; [| split; [| split; [| split]]]].
  - intros H. unfold content_type, resolved_content_type. now rewrite H.
  - intros h H Hne. unfold content_type, resolved_content_type. rewrite H.
    apply String.eqb_neq in Hne. now rewrite Hne.
  - intros H. apply mem_str_false in H. unfold decoded, decode_request.
    fold content_type. now rewrite H.
  - intros Hin Hct e He. apply mem_str_In in Hin. unfold decoded, decode_request.
    fold content_type. rewrite Hin, Hct, He. reflexivity.
  - intros Hin Hct e He. apply mem_str_In in Hin. unfold decoded, decode_request.
    fold content_type. rewrite Hin, Hct, He. reflexivity.
  - intros e. unfold decoded, decode_request. fold content_type.
    destruct (mem_str content_type supported); simpl negb; cbv iota.
    + destruct (String.eqb content_type "application/json").
      * destruct (get_json req); [discriminate |]. intros H. inversion H. reflexivity.
      * destruct (String.eqb content_type "application/msgpack").
        -- destruct (unpackb (data req)); [discriminate |].
           intros H. inversion H. reflexivity.
        -- intros H. inversion H. reflexivity.
    + intros H. inversion H. reflexivity.
Qed.

(** A request declaring msgpack whose body the msgpack parser rejects: a
    400 at the route as well. *)
Example msgpack_declared_body_rejected (get_json : request -> result value)
    (unpackb : string -> result value) (body : string) :
  unpackb body = Raise (LibraryError "msgpack") ->
  exists e,
    reraise (decode_request get_json unpackb
               {| content_type_header := Some "application/msgpack";
                  accept_header := None; data := body |}
               ["application/json"; "application/msgpack"]) = Raise e /\
    exn_status e = Some 400.
Proof.
  intros H. unfold decode_request. simpl. rewrite H. eexists. split; reflexivity.
Qed.

(** ** Counting "CG" *)

Lemma filter_seq_shift (P : nat -> bool) (k n : nat) :
  List.length (filter P (List.seq (S k) n)) =
  List.length (filter (fun i => P (S i)) (List.seq k n)).
Proof.
  revert k. induction n as [| n IH]; intros k; simpl; [reflexivity |].
  destruct (P (S k)); simpl; now rewrite IH.
Qed.

Lemma count_filter_cons {A : Type} (P : A -> bool) (x : A) (l : list A) :
  List.length (filter P (x :: l)) =
  ((if P x then 1 else 0) + List.length (filter P l))%nat.
Proof. simpl. destruct (P x); reflexivity. Qed.

(** The sum over the positions in [cpg_mean] counts the adjacent pairs. *)
Lemma total_cpg_adjacent (s : string) : total_cpg s = adjacent_CG s.
Proof.
  unfold total_cpg. induction s as [| a s IH]; [reflexivity |].
  destruct s as [| b t]; [reflexivity |].
  change (String.length (String a (String b t)) - 1)%nat with (S (String.length t)).
  change (String.length (String b t) - 1)%nat with (String.length t - 0)%nat in IH.
  rewrite Nat.sub_0_r in IH.
  change (List.seq 0 (S (String.length t))) with (0%nat :: List.seq 1 (String.length t)).
  rewrite count_filter_cons, filter_seq_shift.
  replace (adjacent_CG (String a (String b t)))
    with ((if Ascii.eqb a "C" && Ascii.eqb b "G" then 1 else 0)
          + adjacent_CG (String b t))%nat by reflexivity.
  rewrite <- IH. f_equal.
  simpl. destruct t; simpl; destruct (Ascii.eqb a "C"), (Ascii.eqb b "G"); reflexivity.
Qed.

(** [str.count('CG')] counts the adjacent pairs as well: two occurrences of
    "CG" cannot overlap. *)
Lemma count_CG_adjacent (s : string) : count_CG s = adjacent_CG s.
Proof.
  assert (H : forall n s, (String.length s <= n)%nat -> count_CG s = adjacent_CG s).
  { intros n. induction n as [| n IH]; intros s0 Hlen.
    - destruct s0; [reflexivity | simpl in Hlen; lia].
    - destruct s0 as [| a [| b t]]; [reflexivity | reflexivity |].
      simpl in Hlen.
      replace (count_CG (String a (String b t)))
        with (if Ascii.eqb a "C" && Ascii.eqb b "G" then S (count_CG t)
              else count_CG (String b t)) by reflexivity.
      replace (adjacent_CG (String a (String b t)))
        with ((if Ascii.eqb a "C" && Ascii.eqb b "G" then 1 else 0)
              + adjacent_CG (String b t))%nat by reflexivity.
      destruct (Ascii.eqb a "C" && Ascii.eqb b "G") eqn:E.
      + apply andb_true_iff in E. destruct E as [_ Eb]. apply Ascii.eqb_eq in Eb. subst b.
        rewrite (IH t) by lia. destruct t as [| c t']; reflexivity.
      + apply IH. simpl. lia. }
  apply (H (String.length s)). lia.
Qed.

Lemma length_map_string (f : ascii -> ascii) (s : string) :
  String.length (map_string f s) = String.length s.
Proof. induction s as [| c s IH]; simpl; [reflexivity | now rewrite IH]. Qed.

Lemma len_str_upper (s : string) : len_str (upper s) = len_str s.
Proof. unfold len_str, upper. now rewrite length_map_string. Qed.

Lemma len_str_nonempty (s : string) : s <> "" -> (len_str s =? 0) = false.
Proof.
  intros H. apply Z.eqb_neq. unfold len_str. destruct s; [congruence | simpl; lia].
Qed.

(** ** Logarithms of rationals *)

Lemma ln2_pos : (0 < ln 2)%R.
Proof. rewrite <- ln_1. apply ln_increasing; lra. Qed.

Lemma log2R_lt (x : R) (n k : nat) :
  (0 < x)%R -> (0 < n)%nat -> (x ^ n * 2 ^ k < 1)%R -> (log2R x < - INR k / INR n)%R.
Proof.
  intros Hx Hn H.
  assert (Hxn : (0 < x ^ n)%R) by now apply pow_lt.
  assert (H2k : (0 < 2 ^ k)%R) by (apply pow_lt; lra).
  assert (Hl : (ln (x ^ n * 2 ^ k) < 0)%R).
  { rewrite <- ln_1. apply ln_increasing; [apply Rmult_lt_0_compat; assumption | exact H]. }
  rewrite ln_mult in Hl by assumption.
  rewrite !ln_pow in Hl by lra.
  assert (Hn' : (0 < INR n)%R) by now apply lt_0_INR.
  pose proof ln2_pos as H2.
  unfold log2R.
  apply Rmult_lt_reg_r with (INR n * ln 2)%R; [now apply Rmult_lt_0_compat |].
  replace (ln x / ln 2 * (INR n * ln 2))%R with (INR n * ln x)%R by (field; lra).
  replace (- INR k / INR n * (INR n * ln 2))%R with (- (INR k * ln 2))%R by (field; lra).
  lra.
Qed.

Lemma log2R_gt (x : R) (n k : nat) :
  (0 < x)%R -> (0 < n)%nat -> (1 < x ^ n * 2 ^ k)%R -> (- INR k / INR n < log2R x)%R.
Proof.
  intros Hx Hn H.
  assert (Hxn : (0 < x ^ n)%R) by now apply pow_lt.
  assert (H2k : (0 < 2 ^ k)%R) by (apply pow_lt; lra).
  assert (Hl : (0 < ln (x ^ n * 2 ^ k))%R).
  { rewrite <- ln_1. apply ln_increasing; [lra | exact H]. }
  rewrite ln_mult in Hl by assumption.
  rewrite !ln_pow in Hl by lra.
  assert (Hn' : (0 < INR n)%R) by now apply lt_0_INR.
  pose proof ln2_pos as H2.
  unfold log2R.
  apply Rmult_lt_reg_r with (INR n * ln 2)%R; [now apply Rmult_lt_0_compat |].
  replace (ln x / ln 2 * (INR n * ln 2))%R with (INR n * ln x)%R by (field; lra).
  replace (- INR k / INR n * (INR n * ln 2))%R with (- (INR k * ln 2))%R by (field; lra).
  lra.
Qed.

Lemma pow_ratio_lt (a b : Z) (n k : nat) :
  0 < b -> a ^ Z.of_nat n * 2 ^ Z.of_nat k < b ^ Z.of_nat n ->
  ((IZR a / IZR b) ^ n * 2 ^ k < 1)%R.
Proof.
  intros Hb H.
  assert (HbR : (0 < IZR b)%R) by now apply IZR_lt.
  assert (Hbn : (0 < IZR b ^ n)%R) by now apply pow_lt.
  unfold Rdiv. rewrite Rpow_mult_distr, pow_inv.
  apply Rmult_lt_reg_r with (IZR b ^ n)%R; [assumption |].
  replace (IZR a ^ n * / IZR b ^ n * 2 ^ k * IZR b ^ n)%R
    with (IZR a ^ n * 2 ^ k)%R by (field; lra).
  rewrite Rmult_1_l. rewrite !pow_IZR, <- mult_IZR. now apply IZR_lt.
Qed.

Lemma pow_ratio_gt (a b : Z) (n k : nat) :
  0 < b -> b ^ Z.of_nat n < a ^ Z.of_nat n * 2 ^ Z.of_nat k ->
  (1 < (IZR a / IZR b) ^ n * 2 ^ k)%R.
Proof.
  intros Hb H.
  assert (HbR : (0 < IZR b)%R) by now apply IZR_lt.
  assert (Hbn : (0 < IZR b ^ n)%R) by now apply pow_lt.
  unfold Rdiv. rewrite Rpow_mult_distr, pow_inv.
  apply Rmult_lt_reg_r with (IZR b ^ n)%R; [assumption |].
  replace (IZR a ^ n * / IZR b ^ n * 2 ^ k * IZR b ^ n)%R
    with (IZR a ^ n * 2 ^ k)%R by (field; lra).
  rewrite Rmult_1_l. rewrite !pow_IZR, <- mult_IZR. now apply IZR_lt.
Qed.

(** The base-2 logarithm of [(2 + 1e-9) / 6] is [-1.585] to three places. *)
Lemma log2_of_sample_ratio :
  (-1586 / 1000 < log2R (Q2R (2000000001 # 6000000000)) < -1584 / 1000)%R.
Proof.
  unfold Q2R. simpl Qnum. simpl Qden.
  change (IZR 2000000001 * / IZR (Z.pos 6000000000))%R
    with (IZR 2000000001 / IZR 6000000000)%R.
  assert (Hx : (0 < IZR 2000000001 / IZR 6000000000)%R).
  { apply Rdiv_lt_0_compat; apply IZR_lt; lia. }
  split.
  - replace (-1586 / 1000)%R with (- INR 793 / INR 500)%R.
    + apply log2R_gt; [exact Hx | lia |]. apply pow_ratio_gt; [lia |].
      vm_compute. reflexivity.
    + rewrite !INR_IZR_INZ. simpl Z.of_nat. lra.
  - replace (-1584 / 1000)%R with (- INR 198 / INR 125)%R.
    + apply log2R_lt; [exact Hx | lia |]. apply pow_ratio_lt; [lia |].
      vm_compute. reflexivity.
    + rewrite !INR_IZR_INZ. simpl Z.of_nat. lra.
Qed.

(** ** Prediction *)

Lemma by_scale_cases {A : Type} (scale_actual : value) (linear log : A) :
  by_scale scale_actual linear log =
  if is_str scale_actual "log" then Ok log
  else if is_str scale_actual "linear" then Ok linear
  else Raise (PyExc UnboundLocalError).
Proof.
  unfold by_scale.
  destruct (is_str scale_actual "log"), (is_str scale_actual "linear"); reflexivity.
Qed.

(** [cpg_mean] on a non-empty sequence. *)
Lemma cpg_mean_closed (s : string) (scale_actual : value) :
  s <> "" ->
  cpg_mean (VStr s) scale_actual =
  by_scale scale_actual (FQ (smoothed_ratio s)) (FLog2 (smoothed_ratio s)).
Proof.
  intros H. unfold cpg_mean, smoothed_ratio.
  rewrite len_str_upper, (len_str_nonempty H), total_cpg_adjacent. reflexivity.
Qed.

Lemma dict_set_new {A : Type} (k : string) (v : A) (d : list (string * A)) :
  ~ In k (keys d) -> dict_set k v d = d ++ [(k, v)].
Proof.
  induction d as [| [k' v'] d IH]; simpl; intros H; [reflexivity |].
  destruct (String.eqb k k') eqn:E.
  - apply String.eqb_eq in E. subst. exfalso. apply H. now left.
  - f_equal. apply IH. intros Hin. apply H. now right.
Qed.

(** A loop that stores one prediction per sequence builds the map of the
    predictions, in the order of the sequences. *)
Lemma predictions_loop (body : string -> value -> predictions -> result predictions)
    (f : string -> list fl) (post pre : list (string * string)) :
  NoDup (keys (pre ++ post)) ->
  (forall id s acc, In (id, s) post -> body id (VStr s) acc = Ok (dict_set id (f s) acc)) ->
  for_each (fun '(seq_id, sequence) => body seq_id sequence) (str_dict post)
           (map (fun '(id, s) => (id, f s)) pre) =
  Ok (map (fun '(id, s) => (id, f s)) (pre ++ post)).
Proof.
  revert pre. induction post as [| [k s] post IH]; intros pre Hnd Hbody.
  - simpl. now rewrite app_nil_r.
  - change (str_dict ((k, s) :: post)) with ((k, VStr s) :: str_dict post).
    rewrite for_each_cons. cbv beta iota.
    rewrite Hbody by now left. rewrite bind_Ok.
    rewrite dict_set_new.
    + assert (E1 : (pre ++ [(k, s)]) ++ post = pre ++ (k, s) :: post)
        by now rewrite <- app_assoc.
      specialize (IH (pre ++ [(k, s)])). rewrite E1 in IH.
      rewrite <- IH; [| exact Hnd | intros id s' acc Hin; apply Hbody; now right].
      f_equal. now rewrite map_app.
    + unfold keys in *. rewrite map_map. rewrite map_app in Hnd. simpl in Hnd.
      apply NoDup_remove_2 in Hnd. intros Hin. apply Hnd. apply in_or_app. left.
      erewrite map_ext; [exact Hin |]. now intros [k' s'].
Qed.

(** [predict_cpg] for the point readout, under a scale that binds the
    result. *)
Lemma predict_cpg_point (seqs : list (string * string)) (scale_requested : value)
    (f : string -> fl) :
  NoDup (keys seqs) -> Forall (fun kv => snd kv <> "") seqs ->
  (forall s, s <> "" -> cpg_mean (VStr s) (resolved_scale scale_requested) = Ok (f s)) ->
  predict_cpg (VDict (str_dict seqs)) (VStr "point") scale_requested =
  Ok (map (fun '(id, s) => (id, [f s])) seqs, resolved_scale scale_requested).
Proof.
  intros Hnd Hne Hf. unfold predict_cpg. fold (resolved_scale scale_requested).
  simpl is_str. cbv iota. simpl py_items. rewrite bind_Ok.
  pose proof (@predictions_loop
                (fun seq_id sequence preds =>
                   x <- cpg_mean sequence (resolved_scale scale_requested) ;;
                   Ok (dict_set seq_id [x] preds))
                (fun s => [f s]) seqs [] Hnd) as Hloop.
  cbn [map app] in Hloop. cbv beta in Hloop. rewrite Hloop; [reflexivity |].
  intros id s acc Hin. cbv beta. rewrite Hf; [reflexivity |].
  rewrite Forall_forall in Hne. exact (Hne (id, s) Hin).
Qed.

Lemma smoothed_ratio_sample : smoothed_ratio "ACGCGT" = (2000000001 # 6000000000)%Q.
Proof. reflexivity. Qed.

(** C5 (amended). For sequences that are not empty, under the point
    readout: the prediction of each sequence [s] is the one-element list
    holding [(count + 1e-9) / length(s)], [count] being the number of
    positions whose adjacent pair is "CG" in upper case, when the resolved
    scale is "linear", and the base-2 logarithm of that ratio when it is
    "log"; under any other scale there is no prediction: [predict_cpg]
    raises [UnboundLocalError].  For "ACGCGT" the ratio is
    [(2 + 1e-9) / 6], between 0.3333 and 0.3334, and its base-2 logarithm
    lies within 0.001 of -1.585. *)
Theorem point_prediction_by_scale (seqs : list (string * string))
    (scale_requested : value) :
  NoDup (keys seqs) -> Forall (fun kv => snd kv <> "") seqs ->
  let scale_actual := resolved_scale scale_requested in
  let points := predict_cpg (VDict (str_dict seqs)) (VStr "point") scale_requested in
  (is_str scale_actual "log" = true ->
     points = Ok (map (fun '(id, s) => (id, [FLog2 (smoothed_ratio s)])) seqs, scale_actual)) /\
  (is_str scale_actual "linear" = true ->
     points = Ok (map (fun '(id, s) => (id, [FQ (smoothed_ratio s)])) seqs, scale_actual)) /\
  (is_str scale_actual "log" = false -> is_str scale_actual "linear" = false ->
     seqs <> [] -> points = Raise (PyExc UnboundLocalError)) /\
  (smoothed_ratio "ACGCGT" == (2 + epsilon) / 6)%Q /\
  (3333 # 10000 < smoothed_ratio "ACGCGT" < 3334 # 10000)%Q /\
  (-1586 / 1000 < fl_denote (FLog2 (smoothed_ratio "ACGCGT")) < -1584 / 1000)%R.
Proof.
  intros Hnd Hne scale_actual points.
  split; [| split; [| split; [| split; [| split]]]].
  - intros Hlog. unfold points. apply predict_cpg_point; try assumption.
    intros s Hs. rewrite (cpg_mean_closed _ Hs), by_scale_cases.
    fold scale_actual. now rewrite Hlog.
  - intros Hlin. unfold points. apply predict_cpg_point; try assumption.
    intros s Hs. rewrite (cpg_mean_closed _ Hs), by_scale_cases.
    fold scale_actual. rewrite Hlin.
    destruct (is_str scale_actual "log") eqn:Hlog; [| reflexivity].
    unfold is_str in *. destruct scale_actual; try discriminate.
    apply String.eqb_eq in Hlog, Hlin. congruence.
  - intros Hlog Hlin Hseqs. unfold points, predict_cpg.
    fold (resolved_scale scale_requested). fold scale_actual.
    simpl is_str. cbv iota. simpl py_items. rewrite bind_Ok.
    destruct seqs as [| [k s] rest]; [congruence |].
    change (str_dict ((k, s) :: rest)) with ((k, VStr s) :: str_dict rest).
    rewrite for_each_cons. cbv beta iota.
    inversion Hne as [| ? ? Hs _]; subst. simpl in Hs.
    rewrite (cpg_mean_closed _ Hs), by_scale_cases, Hlog, Hlin. reflexivity.
  - reflexivity.
  - rewrite smoothed_ratio_sample. split; reflexivity.
  - simpl fl_denote. rewrite smoothed_ratio_sample. exact log2_of_sample_ratio.
Qed.

(** The theorem at the sequence "ACGCGT": linear, log, and an unknown
    scale. *)
Lemma point_prediction_by_scale_witness :
  predict_cpg (VDict [("s1", VStr "ACGCGT")]) (VStr "point") VNone =
    Ok ([("s1", [FQ (smoothed_ratio "ACGCGT")])], VStr "linear") /\
  predict_cpg (VDict [("s1", VStr "ACGCGT")]) (VStr "point") (VStr "log") =
    Ok ([("s1", [FLog2 (smoothed_ratio "ACGCGT")])], VStr "log").
Proof.
  assert (Hnd : NoDup (keys [("s1", "ACGCGT")])).
  { constructor; [simpl; tauto | constructor]. }
  assert (Hne : Forall (fun kv : string * string => snd kv <> "") [("s1", "ACGCGT")]).
  { constructor; [simpl; discriminate | constructor]. }
  split.
  - destruct (@point_prediction_by_scale [("s1", "ACGCGT")] VNone Hnd Hne)
      as [_ [H _]].
    exact (H eq_refl).
  - destruct (@point_prediction_by_scale [("s1", "ACGCGT")] (VStr "log") Hnd Hne)
      as [H _].
    exact (H eq_refl).
Defined.

(** C5 as worded: any scale other than "log" would leave the ratio
    unchanged.  Under the scale "sqrt" there is no prediction. *)
Lemma point_prediction_other_scale_counterexample :
  cpg_mean (VStr "ACGCGT") (VStr "sqrt") <> Ok (FQ (smoothed_ratio "ACGCGT")) /\
  predict_cpg (VDict [("s1", VStr "ACGCGT")]) (VStr "point") (VStr "sqrt") =
    Raise (PyExc UnboundLocalError).
Proof. split; [discriminate | reflexivity]. Qed.

(** ** The track readout *)

Lemma in_range (n i : Z) : In i (range n) <-> 0 <= i < n.
Proof.
  unfold range. rewrite in_map_iff. split.
  - intros [k [Hk Hin]]. apply in_seq in Hin. lia.
  - intros H. exists (Z.to_nat i). split; [lia | apply in_seq; lia].
Qed.

Lemma length_range (n : Z) : List.length (range n) = Z.to_nat n.
Proof. unfold range. now rewrite length_map, length_seq. Qed.

Lemma nth_error_range (n : Z) (i : nat) :
  (i < Z.to_nat n)%nat -> nth_error (range n) i = Some (Z.of_nat i).
Proof.
  intros H. unfold range. rewrite nth_error_map.
  rewrite nth_error_seq. apply Nat.ltb_lt in H. rewrite H. reflexivity.
Qed.

(** The window around a position of the sequence is not empty. *)
Lemma window_not_empty (n i : Z) :
  0 <= i < n -> 0 < Z.min n (i + 25) - Z.max 0 (i - 25).
Proof. lia. Qed.

(** What the loop stores at a position is the density of the window
    [max(0, i-25) .. min(n, i+25) - 1]. *)
Lemma density_at_window (sequence : string) (i : Z) :
  0 <= i < len_str sequence ->
  density_at sequence 25 i = window_density sequence i.
Proof.
  intros Hi. unfold density_at, window_density.
  set (n := len_str sequence).
  set (first := Z.max 0 (i - 25)). set (stop := Z.min n (i + 25)).
  assert (Hw : 0 < stop - first) by (unfold stop, first; lia).
  apply Z.ltb_lt in Hw. rewrite Hw. apply Z.ltb_lt in Hw.
  replace (stop - 1 - first + 1) with (stop - first) by lia.
  rewrite count_CG_adjacent.
  replace (py_slice sequence first stop) with (inclusive_slice sequence first (stop - 1));
    [reflexivity |].
  rewrite <- py_slice_inclusive by (unfold first in *; lia).
  f_equal. lia.
Qed.

Lemma calculate_cpg_per_base_closed (raw : string) (scale_actual : value) :
  calculate_cpg_per_base (VStr raw) scale_actual 50 =
  by_scale scale_actual
    (map (fun i => FQ (window_density (cleaned raw) i)) (range (len_str (cleaned raw))))
    (map (fun i => FLog2 (window_density (cleaned raw) i + epsilon)%Q)
         (range (len_str (cleaned raw)))).
Proof.
  unfold calculate_cpg_per_base. fold (cleaned raw).
  change (50 / 2) with 25. rewrite !map_map. f_equal.
  - apply map_ext_in. intros i Hi. apply in_range in Hi. now rewrite density_at_window.
  - apply map_ext_in. intros i Hi. apply in_range in Hi. now rewrite density_at_window.
Qed.

Lemma remove_char_absent (c : ascii) (s : string) :
  ~ In c (chars s) -> remove_char c s = s.
Proof.
  induction s as [| a s IH]; simpl; intros H; [reflexivity |].
  destruct (Ascii.eqb a c) eqn:E.
  - apply Ascii.eqb_eq in E. subst. exfalso. apply H. now left.
  - f_equal. apply IH. intros Hin. apply H. now right.
Qed.

(** On a sequence over the alphabet nothing is removed. *)
Lemma cleaned_valid (s : string) : valid_sequence s -> cleaned s = upper s.
Proof.
  intros [_ Hall]. unfold cleaned. rewrite Forall_forall in Hall.
  assert (Hno : forall c, ~ In c valid_bases -> ~ In c (chars (upper s))).
  { intros c Hc Hin. apply Hc. now apply Hall. }
  rewrite (remove_char_absent " "%char).
  - apply remove_char_absent. apply Hno. unfold valid_bases, newline. simpl.
    intuition discriminate.
  - apply Hno. unfold valid_bases. simpl. intuition discriminate.
Qed.

(** C6 (amended). The track readout of a sequence (in upper case, spaces
    and newlines removed) holds one value per position, in the order of the
    positions: at position [i] the number of "CG" pairs among the positions
    [max(0, i-25)] to [min(n, i+25) - 1] (the half-open window
    [[i-25, i+25)] clipped to the sequence, which is never empty), divided
    by the number of these positions, times 100.  Under the scale "linear"
    these densities are returned as they are, under "log" each becomes
    [log2(density + 1e-9)]; under any other scale
    [calculate_cpg_per_base] raises [UnboundLocalError]. *)
Theorem track_prediction_by_scale (raw : string) (scale_actual : value) :
  let sequence := cleaned raw in
  let n := len_str sequence in
  let track := calculate_cpg_per_base (VStr raw) scale_actual 50 in
  (is_str scale_actual "linear" = true ->
     track = Ok (map (fun i => FQ (window_density sequence i)) (range n))) /\
  (is_str scale_actual "log" = true ->
     track = Ok (map (fun i => FLog2 (window_density sequence i + epsilon)%Q) (range n))) /\
  (is_str scale_actual "linear" = false -> is_str scale_actual "log" = false ->
     track = Raise (PyExc UnboundLocalError)) /\
  List.length (range n) = String.length sequence /\
  (forall i, (i < String.length sequence)%nat ->
     nth_error (range n) i = Some (Z.of_nat i)) /\
  (forall i, 0 <= i < n -> 0 < Z.min n (i + 25) - Z.max 0 (i - 25)) /\
  (valid_sequence raw -> sequence = upper raw /\ String.length sequence = String.length raw).
Proof.
  intros sequence n track.
  assert (Hn : Z.to_nat n = String.length sequence).
  { unfold n, len_str. lia. }
  split; [| split; [| split; [| split; [| split; [| split]]]]].
  - intros Hlin. unfold track. rewrite calculate_cpg_per_base_closed, by_scale_cases, Hlin.
    destruct (is_str scale_actual "log") eqn:Hlog; [| reflexivity].
    unfold is_str in *. destruct scale_actual; try discriminate.
    apply String.eqb_eq in Hlog, Hlin. congruence.
  - intros Hlog. unfold track.
    now rewrite calculate_cpg_per_base_closed, by_scale_cases, Hlog.
  - intros Hlin Hlog. unfold track.
    now rewrite calculate_cpg_per_base_closed, by_scale_cases, Hlog, Hlin.
  - now rewrite length_range.
  - intros i Hi. apply nth_error_range. lia.
  - intros i Hi. now apply window_not_empty.
  - intros Hv. unfold sequence. rewrite (cleaned_valid Hv). split; [reflexivity |].
    unfold upper. apply length_map_string.
Qed.

(** C6 as worded, at twenty-four "A" followed by "CG": the window of
    position 0 that takes position 25 in holds one "CG" among 26 positions,
    the window of the code (positions 0 to 24) holds none; and a scale
    other than "log" does not always leave the densities unchanged. *)
Lemma track_window_counterexample :
  (exists l d,
     calculate_cpg_per_base (VStr sample_track_sequence) (VStr "linear") 50 = Ok l /\
     nth_error l 0 = Some (FQ d) /\
     (d == 0)%Q /\
     (closed_window_density sample_track_sequence 0 == 100 # 26)%Q /\
     ~ (d == closed_window_density sample_track_sequence 0)%Q) /\
  calculate_cpg_per_base (VStr sample_track_sequence) (VStr "sqrt") 50 =
    Raise (PyExc UnboundLocalError).
Proof.
  split; [| reflexivity].
  eexists. eexists. split; [vm_compute; reflexivity |].
  split; [reflexivity |].
  split; [reflexivity |].
  split; [reflexivity |].
  vm_compute. discriminate.
Qed.

(** ** Totality of the prediction *)

Lemma valid_sequenceb_spec (s : string) : valid_sequenceb s = true -> valid_sequence s.
Proof.
  unfold valid_sequenceb, valid_sequence. intros H.
  apply andb_true_iff in H. destruct H as [Hne Hall]. split.
  - apply negb_true_iff in Hne. now apply String.eqb_neq.
  - rewrite forallb_forall in Hall. apply Forall_forall. intros c Hc.
    apply mem_ascii_In. now apply Hall.
Qed.

Lemma predictions_loop_total
    (body : string -> value -> predictions -> result predictions)
    (seqs : list (string * string)) :
  (forall id s acc, In (id, s) seqs -> exists acc', body id (VStr s) acc = Ok acc') ->
  forall acc, exists acc',
    for_each (fun '(seq_id, sequence) => body seq_id sequence) (str_dict seqs) acc = Ok acc'.
Proof.
  induction seqs as [| [k s] seqs IH]; intros Hbody acc.
  - exists acc. reflexivity.
  - change (str_dict ((k, s) :: seqs)) with ((k, VStr s) :: str_dict seqs).
    rewrite for_each_cons. cbv beta iota.
    destruct (Hbody k s acc (or_introl eq_refl)) as [acc1 H1]. rewrite H1, bind_Ok.
    apply IH. intros id s' acc0 Hin. apply Hbody. now right.
Qed.

Lemma by_scale_valid {A : Type} (scale_requested : value) (linear log : A) :
  valid_scale scale_requested ->
  exists x, by_scale (resolved_scale scale_requested) linear log = Ok x.
Proof.
  intros [H | [H | H]]; subst; simpl; eexists; reflexivity.
Qed.

(** C9 (amended). For sequences that are not empty and over the alphabet,
    a readout that is "point" or "track" and a scale that is absent,
    "linear" or "log", [predict_cpg] returns: it has no failure path.  In
    particular the length [cpg_mean] divides by is not zero, and no window
    [calculate_cpg_per_base] divides by the length of is empty. *)
Theorem predict_cpg_returns (seqs : list (string * string))
    (readout scale_requested : value) :
  Forall (fun kv => valid_sequence (snd kv)) seqs ->
  readout = VStr "point" \/ readout = VStr "track" ->
  valid_scale scale_requested ->
  (exists preds,
     predict_cpg (VDict (str_dict seqs)) readout scale_requested =
       Ok (preds, resolved_scale scale_requested)) /\
  (forall id s, In (id, s) seqs ->
     len_str (upper s) <> 0 /\
     forall i, 0 <= i < len_str (cleaned s) ->
       0 < Z.min (len_str (cleaned s)) (i + 25) - Z.max 0 (i - 25)).
Proof.
  intros Hvalid Hreadout Hscale. rewrite Forall_forall in Hvalid. split.
  - unfold predict_cpg. fold (resolved_scale scale_requested).
    destruct Hreadout as [Hr | Hr]; subst readout; simpl is_str; cbv iota;
      simpl py_items; rewrite ?bind_Ok.
    + destruct (@predictions_loop_total
                  (fun seq_id sequence preds =>
                     x <- cpg_mean sequence (resolved_scale scale_requested) ;;
                     Ok (dict_set seq_id [x] preds)) seqs) with (acc := @nil (string * list fl))
        as [preds Hp].
      * intros id s acc Hin. cbv beta.
        destruct (Hvalid (id, s) Hin) as [Hne _]. simpl in Hne.
        rewrite (cpg_mean_closed _ Hne).
        destruct (by_scale_valid (FQ (smoothed_ratio s)) (FLog2 (smoothed_ratio s)) Hscale)
          as [x Hx].
        rewrite Hx, bind_Ok. eexists. reflexivity.
      * cbv beta in Hp. rewrite Hp, bind_Ok. eexists. reflexivity.
    + destruct (@predictions_loop_total
                  (fun seq_id sequence preds =>
                     xs <- calculate_cpg_per_base sequence
                             (resolved_scale scale_requested) 50 ;;
                     Ok (dict_set seq_id xs preds)) seqs) with (acc := @nil (string * list fl))
        as [preds Hp].
      * intros id s acc Hin. cbv beta. rewrite calculate_cpg_per_base_closed.
        destruct (by_scale_valid
                    (map (fun i => FQ (window_density (cleaned s) i))
                         (range (len_str (cleaned s))))
                    (map (fun i => FLog2 (window_density (cleaned s) i + epsilon)%Q)
                         (range (len_str (cleaned s)))) Hscale) as [x Hx].
        rewrite Hx, bind_Ok. eexists. reflexivity.
      * cbv beta in Hp. rewrite Hp, bind_Ok. eexists. reflexivity.
  - intros id s Hin. destruct (Hvalid (id, s) Hin) as [Hne _]. simpl in Hne. split.
    + rewrite len_str_upper. apply Z.eqb_neq. now apply len_str_nonempty.
    + intros i Hi. now apply window_not_empty.
Qed.

(** The theorem at the sequences "ACGCGT" and "nnCG", readout "track",
    scale "log". *)
Lemma predict_cpg_returns_witness :
  exists preds,
    predict_cpg (VDict [("s1", VStr "ACGCGT"); ("s2", VStr "nnCG")])
                (VStr "track") (VStr "log") = Ok (preds, VStr "log").
Proof.
  assert (Hv : Forall (fun kv : string * string => valid_sequence (snd kv))
                 [("s1", "ACGCGT"); ("s2", "nnCG")]).
  { constructor; [apply valid_sequenceb_spec; reflexivity |].
    constructor; [apply valid_sequenceb_spec; reflexivity | constructor]. }
  destruct (@predict_cpg_returns [("s1", "ACGCGT"); ("s2", "nnCG")]
              (VStr "track") (VStr "log") Hv (or_intror eq_refl)
              (or_intror (or_intror eq_refl))) as [H _].
  exact H.
Defined.

(** C9 as worded: the sequences are valid and the readout is "point", yet
    under the scale "sqrt" [predict_cpg] fails. *)
Lemma predict_cpg_unknown_scale_counterexample :
  Forall (fun kv : string * string => valid_sequence (snd kv)) [("s1", "ACGT")] /\
  predict_cpg (VDict (str_dict [("s1", "ACGT")])) (VStr "point") (VStr "sqrt") =
    Raise (PyExc UnboundLocalError).
Proof.
  split; [| reflexivity].
  constructor; [apply valid_sequenceb_spec; reflexivity | constructor].
Qed.

(** ** Accumulation: every check appends to what was found before *)

Lemma after_nil (own : result errors) : after [] own = own.
Proof. destruct own; reflexivity. Qed.

Lemma after_Ok (errs added : errors) : after errs (Ok added) = Ok (errs ++ added).
Proof. reflexivity. Qed.

Lemma after_after (errs added : errors) (own : result errors) :
  after (errs ++ added) own = bind (after added own) (fun l => Ok (errs ++ l)).
Proof. destruct own; simpl; [now rewrite app_assoc | reflexivity]. Qed.

Ltac accumulate :=
  unfold append_msg;
  repeat match goal with
         | |- context [if ?c then _ else _] => destruct c
         end;
  simpl; rewrite <- ?app_assoc, ?app_nil_r; reflexivity.

Lemma check_key_values_readout_appends (v : value) (errs : errors) :
  check_key_values_readout v errs = errs ++ check_key_values_readout v [].
Proof. unfold check_key_values_readout. accumulate. Qed.

Lemma check_scalar_string_appends (field : string) (v : value) (errs : errors) :
  check_scalar_string field v errs = errs ++ check_scalar_string field v [].
Proof. unfold check_scalar_string. accumulate. Qed.

Lemma check_scale_value_appends (v : value) (errs : errors) :
  check_scale_value v errs = errs ++ check_scale_value v [].
Proof. unfold check_scale_value. accumulate. Qed.

(** A loop of appending checks appends. *)
Lemma for_each_appends {A : Type} (body : A -> errors -> result errors) :
  (forall x errs, body x errs = after errs (body x [])) ->
  forall xs errs, for_each body xs errs = after errs (for_each body xs []).
Proof.
  intros Hbody xs. induction xs as [| x xs IH]; intros errs.
  - simpl. now rewrite app_nil_r.
  - rewrite !for_each_cons. rewrite (Hbody x errs).
    destruct (body x []) as [added |]; [| reflexivity].
    rewrite after_Ok, !bind_Ok. rewrite (IH (errs ++ added)), (IH added).
    destruct (for_each body xs []); simpl; [now rewrite app_assoc | reflexivity].
Qed.

Lemma check_one_task_name_appends (task : value) (errs : errors) :
  check_one_task_name task errs = after errs (check_one_task_name task []).
Proof.
  unfold check_one_task_name. destruct (getitem_str task "name"); [| reflexivity].
  rewrite !bind_Ok, after_Ok. f_equal. accumulate.
Qed.

Lemma check_one_task_type_appends (task : value) (errs : errors) :
  check_one_task_type task errs = after errs (check_one_task_type task []).
Proof.
  unfold check_one_task_type. destruct (getitem_str task "type") as [ty |]; [| reflexivity].
  rewrite !bind_Ok, after_Ok. f_equal. destruct ty; try accumulate.
Qed.

Lemma check_one_task_cell_type_appends (task : value) (errs : errors) :
  check_one_task_cell_type task errs = after errs (check_one_task_cell_type task []).
Proof.
  unfold check_one_task_cell_type.
  destruct (getitem_str task "cell_type"); [| reflexivity].
  rewrite !bind_Ok, after_Ok. f_equal. apply check_scalar_string_appends.
Qed.

Lemma check_one_task_species_appends (task : value) (errs : errors) :
  check_one_task_species task errs = after errs (check_one_task_species task []).
Proof.
  unfold check_one_task_species.
  destruct (getitem_str task "species"); [| reflexivity].
  rewrite !bind_Ok, after_Ok. f_equal. apply check_scalar_string_appends.
Qed.

Lemma check_one_task_scale_appends (task : value) (errs : errors) :
  check_one_task_scale task errs = after errs (check_one_task_scale task []).
Proof.
  unfold check_one_task_scale.
  destruct (contains_str "scale" task) as [[|] |]; simpl;
    [| now rewrite app_nil_r | reflexivity].
  destruct (getitem_str task "scale"); [| reflexivity].
  rewrite !bind_Ok, after_Ok. f_equal. apply check_scale_value_appends.
Qed.

Lemma check_one_prediction_range_appends (sequences : value) (key : string)
    (v : value) (errs : errors) :
  check_one_prediction_range sequences key v errs =
  after errs (check_one_prediction_range sequences key v []).
Proof.
  unfold check_one_prediction_range.
  destruct (truthy v); simpl negb; cbv iota.
  - destruct (py_len v) as [n |]; [| reflexivity]. rewrite !bind_Ok.
    destruct (py_iter v) as [elems |]; [| reflexivity]. rewrite !bind_Ok.
    destruct (getitem_nat v 0) as [start |]; [| reflexivity]. rewrite !bind_Ok.
    destruct (getitem_nat v 1) as [end_ |]; [| reflexivity]. rewrite !bind_Ok.
    destruct (or_else (py_lt start (VInt 0)) (py_lt end_ (VInt 0))) as [negative |];
      [| reflexivity]. rewrite !bind_Ok.
    destruct (py_gt start end_) as [reversed |]; [| reflexivity]. rewrite !bind_Ok.
    destruct (py_get sequences key (VStr "")) as [seq |]; [| reflexivity].
    rewrite !bind_Ok.
    destruct (py_len seq) as [seq_len |]; [| reflexivity]. rewrite !bind_Ok.
    destruct (or_else (py_ge start (VInt seq_len)) (py_ge end_ (VInt seq_len)))
      as [out |]; [| reflexivity]. rewrite !bind_Ok.
    destruct out; rewrite after_Ok; f_equal; accumulate.
  - rewrite after_Ok. f_equal. accumulate.
Qed.

Lemma check_prediction_task_name_appends (tasks : value) (errs : errors) :
  check_prediction_task_name tasks errs = after errs (check_prediction_task_name tasks []).
Proof.
  unfold check_prediction_task_name. destruct (py_iter tasks); [| reflexivity].
  rewrite !bind_Ok. apply for_each_appends, check_one_task_name_appends.
Qed.

Lemma check_prediction_task_type_appends (tasks : value) (errs : errors) :
  check_prediction_task_type tasks errs = after errs (check_prediction_task_type tasks []).
Proof.
  unfold check_prediction_task_type. destruct (py_iter tasks); [| reflexivity].
  rewrite !bind_Ok. apply for_each_appends, check_one_task_type_appends.
Qed.

Lemma check_prediction_task_cell_type_appends (tasks : value) (errs : errors) :
  check_prediction_task_cell_type tasks errs =
  after errs (check_prediction_task_cell_type tasks []).
Proof.
  unfold check_prediction_task_cell_type. destruct (py_iter tasks); [| reflexivity].
  rewrite !bind_Ok. apply for_each_appends, check_one_task_cell_type_appends.
Qed.

Lemma check_prediction_task_species_appends (tasks : value) (errs : errors) :
  check_prediction_task_species tasks errs =
  after errs (check_prediction_task_species tasks []).
Proof.
  unfold check_prediction_task_species. destruct (py_iter tasks); [| reflexivity].
  rewrite !bind_Ok. apply for_each_appends, check_one_task_species_appends.
Qed.

Lemma check_prediction_task_scale_appends (tasks : value) (errs : errors) :
  check_prediction_task_scale tasks errs =
  after errs (check_prediction_task_scale tasks []).
Proof.
  unfold check_prediction_task_scale. destruct (py_iter tasks); [| reflexivity].
  rewrite !bind_Ok. apply for_each_appends, check_one_task_scale_appends.
Qed.

Lemma check_seq_ids_appends (ranges sequences : value) (errs : errors) :
  check_seq_ids ranges sequences errs = after errs (check_seq_ids ranges sequences []).
Proof.
  unfold check_seq_ids. destruct (py_keys ranges); [| reflexivity].
  destruct (py_keys sequences); [| reflexivity]. rewrite !bind_Ok.
  destruct (same_keys _ _); rewrite after_Ok; f_equal; accumulate.
Qed.

Lemma check_prediction_ranges_appends (ranges sequences : value) (errs : errors) :
  check_prediction_ranges ranges sequences errs =
  after errs (check_prediction_ranges ranges sequences []).
Proof.
  unfold check_prediction_ranges. destruct (py_items ranges) as [items |]; [| reflexivity].
  rewrite !bind_Ok.
  apply (for_each_appends
           (fun '(key, v) => check_one_prediction_range sequences key v)).
  intros [key v] errs'. apply check_one_prediction_range_appends.
Qed.

(** Stage 3 puts, behind the messages it starts from, the messages of each
    of its checks in turn: none is skipped and none replaces another. *)
Lemma remaining_checks_accumulate (payload : dict) (errs : errors) :
  remaining_checks payload errs = after errs (remaining_messages payload).
Proof.
  unfold remaining_checks, remaining_messages.
  destruct (getitem_str (VDict payload) "readout") as [readout |]; [| reflexivity].
  rewrite !bind_Ok.
  destruct (getitem_str (VDict payload) "prediction_tasks") as [tasks |]; [| reflexivity].
  rewrite !bind_Ok.
  rewrite check_key_values_readout_appends.
  set (r := check_key_values_readout readout []).
  rewrite check_prediction_task_name_appends.
  destruct (check_prediction_task_name tasks []) as [names |]; [| reflexivity].
  rewrite after_Ok, !bind_Ok.
  rewrite check_prediction_task_type_appends.
  destruct (check_prediction_task_type tasks []) as [types |]; [| reflexivity].
  rewrite after_Ok, !bind_Ok.
  rewrite check_prediction_task_cell_type_appends.
  destruct (check_prediction_task_cell_type tasks []) as [cells |]; [| reflexivity].
  rewrite after_Ok, !bind_Ok.
  rewrite check_prediction_task_species_appends.
  destruct (check_prediction_task_species tasks []) as [species |]; [| reflexivity].
  rewrite after_Ok, !bind_Ok.
  rewrite check_prediction_task_scale_appends.
  destruct (check_prediction_task_scale tasks []) as [scales |]; [| reflexivity].
  rewrite after_Ok, !bind_Ok.
  set (e5 := ((((errs ++ r) ++ names) ++ types) ++ cells) ++ species).
  assert (Hflank : forall (acc ranges : errors),
    (errs0 <-
       (if has_key "upstream_seq" payload then
          up <- getitem_str (VDict payload) "upstream_seq" ;;
          Ok (check_key_values_upstream_flank up acc)
        else Ok acc) ;;
     (if has_key "downstream_seq" payload then
        down <- getitem_str (VDict payload) "downstream_seq" ;;
        Ok (check_key_values_downstream_flank down errs0)
      else Ok errs0)) =
    Ok (acc
        ++ match lookup "upstream_seq" payload with
           | Some up => check_key_values_upstream_flank up []
           | None => []
           end
        ++ match lookup "downstream_seq" payload with
           | Some down => check_key_values_downstream_flank down []
           | None => []
           end)).
  { intros acc _. unfold has_key, getitem_str,
      check_key_values_upstream_flank, check_key_values_downstream_flank.
    destruct (lookup "upstream_seq" payload) as [up |],
             (lookup "downstream_seq" payload) as [down |]; simpl.
    - rewrite (check_scalar_string_appends "downstream_seq"),
              (check_scalar_string_appends "upstream_seq").
      now rewrite <- app_assoc.
    - rewrite (check_scalar_string_appends "upstream_seq"). now rewrite app_nil_r.
    - now rewrite (check_scalar_string_appends "downstream_seq").
    - now rewrite app_nil_r. }
  destruct (has_key "prediction_ranges" payload).
  - destruct (getitem_str (VDict payload) "prediction_ranges") as [ranges |];
      [| reflexivity]. rewrite !bind_Ok.
    destruct (getitem_str (VDict payload) "sequences") as [sequences |];
      [| reflexivity]. rewrite !bind_Ok.
    rewrite check_seq_ids_appends.
    destruct (check_seq_ids ranges sequences []) as [ids |]; [| reflexivity].
    rewrite after_Ok, !bind_Ok.
    rewrite check_prediction_ranges_appends.
    destruct (check_prediction_ranges ranges sequences []) as [bounds |]; [| reflexivity].
    rewrite after_Ok, !bind_Ok.
    rewrite (Hflank _ []). unfold after. rewrite bind_Ok. f_equal.
    unfold e5. rewrite <- !app_assoc. reflexivity.
  - rewrite !bind_Ok. rewrite (Hflank _ []). unfold after. rewrite bind_Ok. f_equal.
    unfold e5. rewrite <- !app_assoc. reflexivity.
Qed.

(** Once the two key-presence stages have passed, validation succeeds when
    stage 3 finds nothing and otherwise raises one [BadRequestError] that
    carries the messages of all the checks of stage 3 together, provided
    every check runs to its end. *)
Theorem validate_reports_every_violation (payload : dict) (tasks : value)
    (found : errors) :
  missing_keys (keys payload) = [] ->
  lookup "prediction_tasks" payload = Some tasks ->
  check_prediction_task_mandatory_keys tasks [] = Ok [] ->
  remaining_messages payload = Ok found ->
  validate_request_payload (VDict payload) =
    match found with
    | [] => Ok tt
    | _ => Raise (BadRequestError (Msgs found))
    end.
Proof.
  intros Hkeys Htasks Hstage2 Hfound. unfold validate_request_payload.
  simpl py_keys. rewrite bind_Ok. rewrite check_mandatory_keys_complete by exact Hkeys.
  change (raise_if_any []) with (@Ok unit tt). rewrite bind_Ok.
  unfold getitem_str at 1. rewrite Htasks, bind_Ok, Hstage2, bind_Ok.
  change (raise_if_any []) with (@Ok unit tt). rewrite bind_Ok.
  simpl py_items. rewrite bind_Ok.
  rewrite remaining_checks_accumulate, Hfound. simpl.
  unfold raise_if_any. destruct found; reflexivity.
Qed.

(** ** The scale validation admits *)

(** The scale check stays silent exactly on "linear" and "log". *)
Lemma check_scale_value_admits (scale : value) :
  check_scale_value scale [] = [] <-> scale = VStr "linear" \/ scale = VStr "log".
Proof.
  split.
  - unfold check_scale_value, append_msg.
    destruct scale; simpl; try discriminate.
    destruct (String.eqb s "linear") eqn:E1.
    + apply String.eqb_eq in E1. subst. intros _. now left.
    + destruct (String.eqb s "log") eqn:E2.
      * apply String.eqb_eq in E2. subst. intros _. now right.
      * simpl. discriminate.
  - intros [H | H]; subst; reflexivity.
Qed.

(** The scale the route passes to [predict_cpg] for a task that passed the
    scale check is absent, "linear" or "log". *)
Lemma validated_task_scale (task : dict) :
  check_one_task_scale (VDict task) [] = Ok [] ->
  valid_scale (dict_get "scale" VNone task).
Proof.
  unfold check_one_task_scale, valid_scale, dict_get, has_key. simpl contains_str.
  unfold has_key, getitem_str.
  destruct (lookup "scale" task) as [scale |]; simpl.
  - intros H. right. apply check_scale_value_admits. congruence.
  - intros _. now left.
Qed.

(** * Further properties *)

(** ** What each check of stage 3 lets through *)

Lemma in_strs_VStr (s : string) (l : list string) : in_strs (VStr s) l = mem_str s l.
Proof. induction l as [| x l IH]; simpl; [reflexivity | now rewrite IH]. Qed.

Lemma append_msg_not_nil (errs : errors) (m : msg) : append_msg errs m <> [].
Proof. unfold append_msg. destruct errs; discriminate. Qed.

Lemma readout_silent (readout_value : value) :
  check_key_values_readout readout_value [] = [] <->
  exists r, readout_value = VStr r /\ In r readout_options.
Proof.
  unfold check_key_values_readout. split.
  - destruct readout_value as [| b | n | q | s | l | d]; simpl isinstance_str;
      simpl isinstance_list; cbv iota;
      try (intros H; exfalso; revert H; apply append_msg_not_nil).
    rewrite in_strs_VStr. destruct (mem_str s readout_options) eqn:E; simpl.
    + intros _. exists s. split; [reflexivity | exact (proj1 (mem_str_In s readout_options) E)].
    + discriminate.
  - intros [r [Hv Hin]]. subst. simpl isinstance_str. simpl isinstance_list. cbv iota.
    rewrite in_strs_VStr. apply mem_str_In in Hin. now rewrite Hin.
Qed.

(** X1. The readout check reports nothing exactly when the readout is one
    of the strings "point", "track", "interaction_matrix". *)
Theorem check_key_values_readout_silent (readout_value : value) :
  check_key_values_readout readout_value [] = [] <->
  exists r, readout_value = VStr r /\ In r readout_options.
Proof. apply readout_silent. Qed.

(** A loop of appending checks reports nothing exactly when no turn of
    it does. *)
Lemma for_each_silent {A : Type} (body : A -> errors -> result errors) :
  (forall x errs, body x errs = after errs (body x [])) ->
  forall xs, for_each body xs [] = Ok [] <-> Forall (fun x => body x [] = Ok []) xs.
Proof.
  intros Hbody xs. induction xs as [| x xs IH].
  - split; [constructor | reflexivity].
  - rewrite for_each_cons. split.
    + intros H. destruct (body x []) as [added |] eqn:E; [| discriminate].
      rewrite bind_Ok in H. rewrite (for_each_appends body Hbody) in H.
      destruct (for_each body xs []) as [rest |] eqn:E2; [| discriminate].
      rewrite after_Ok in H. inversion H as [H1].
      apply app_eq_nil in H1. destruct H1; subst.
      constructor; [assumption | apply IH; reflexivity].
    + intros H. inversion H as [| ? ? Hx Hxs]; subst.
      rewrite Hx, bind_Ok. now apply IH.
Qed.

Lemma check_scalar_string_silent (field : string) (v : value) :
  check_scalar_string field v [] = [] <-> exists s, v = VStr s.
Proof.
  unfold check_scalar_string. split.
  - destruct v; simpl; try discriminate. intros _. now eexists.
  - intros [s Hs]. subst. reflexivity.
Qed.

Lemma Forall_map_VDict (P : dict -> Prop) (Q : value -> Prop) (ts : list dict) :
  (forall t, Q (VDict t) <-> P t) ->
  Forall Q (map VDict ts) <-> Forall P ts.
Proof.
  intros H. rewrite Forall_map. split; apply Forall_impl; intros t; apply H.
Qed.

Lemma check_one_task_name_silent (task : dict) :
  check_one_task_name (VDict task) [] = Ok [] <-> string_field "name" task.
Proof.
  unfold check_one_task_name, getitem_str, string_field. split.
  - destruct (lookup "name" task) as [v |]; [| discriminate]. rewrite bind_Ok.
    destruct v; simpl; try discriminate. intros _. now eexists.
  - intros [s Hs]. now rewrite Hs.
Qed.

Lemma check_one_task_cell_type_silent (task : dict) :
  check_one_task_cell_type (VDict task) [] = Ok [] <-> string_field "cell_type" task.
Proof.
  unfold check_one_task_cell_type, getitem_str, string_field. split.
  - destruct (lookup "cell_type" task) as [v |]; [| discriminate]. rewrite bind_Ok.
    intros H. inversion H as [H1]. apply check_scalar_string_silent in H1.
    destruct H1 as [s Hs]. subst. now eexists.
  - intros [s Hs]. now rewrite Hs.
Qed.

Lemma check_one_task_species_silent (task : dict) :
  check_one_task_species (VDict task) [] = Ok [] <-> string_field "species" task.
Proof.
  unfold check_one_task_species, getitem_str, string_field. split.
  - destruct (lookup "species" task) as [v |]; [| discriminate]. rewrite bind_Ok.
    intros H. inversion H as [H1]. apply check_scalar_string_silent in H1.
    destruct H1 as [s Hs]. subst. now eexists.
  - intros [s Hs]. now rewrite Hs.
Qed.

Lemma name_loop_silent (ts : list dict) :
  check_prediction_task_name (task_list ts) [] = Ok [] <->
  Forall (string_field "name") ts.
Proof.
  unfold check_prediction_task_name, task_list. simpl py_iter. rewrite bind_Ok.
  rewrite (for_each_silent check_one_task_name check_one_task_name_appends).
  apply Forall_map_VDict, check_one_task_name_silent.
Qed.

Lemma cell_type_loop_silent (ts : list dict) :
  check_prediction_task_cell_type (task_list ts) [] = Ok [] <->
  Forall (string_field "cell_type") ts.
Proof.
  unfold check_prediction_task_cell_type, task_list. simpl py_iter. rewrite bind_Ok.
  rewrite (for_each_silent check_one_task_cell_type check_one_task_cell_type_appends).
  apply Forall_map_VDict, check_one_task_cell_type_silent.
Qed.

Lemma species_loop_silent (ts : list dict) :
  check_prediction_task_species (task_list ts) [] = Ok [] <->
  Forall (string_field "species") ts.
Proof.
  unfold check_prediction_task_species, task_list. simpl py_iter. rewrite bind_Ok.
  rewrite (for_each_silent check_one_task_species check_one_task_species_appends).
  apply Forall_map_VDict, check_one_task_species_silent.
Qed.

(** X2. On a list of task dictionaries, the checks of [name], [cell_type]
    and [species] report nothing exactly when every task has that field and
    the field is a string; a task without the field makes the check raise
    [KeyError], so it is not silent either. *)
Theorem task_string_checks_silent (ts : list dict) :
  (check_prediction_task_name (task_list ts) [] = Ok [] <->
   Forall (string_field "name") ts) /\
  (check_prediction_task_cell_type (task_list ts) [] = Ok [] <->
   Forall (string_field "cell_type") ts) /\
  (check_prediction_task_species (task_list ts) [] = Ok [] <->
   Forall (string_field "species") ts).
Proof.
  split; [apply name_loop_silent | split];
    [apply cell_type_loop_silent | apply species_loop_silent].
Qed.

Lemma check_one_task_type_silent (task : dict) :
  check_one_task_type (VDict task) [] = Ok [] <-> type_ok task.
Proof.
  unfold check_one_task_type, getitem_str, type_ok, recognized_type. split.
  - destruct (lookup "type" task) as [v |]; [| discriminate]. rewrite bind_Ok.
    destruct v as [| b | n | q | t | l | d];
      try (unfold append_msg; simpl; discriminate).
    destruct (mem_str t prediction_task_options
              || existsb (startswith t) prediction_task_prefixes) eqn:E.
    + intros _. exists t. now split.
    + unfold append_msg. simpl. discriminate.
  - intros [t [Ht Hr]]. rewrite Ht, bind_Ok, Hr. reflexivity.
Qed.

Lemma type_loop_silent (ts : list dict) :
  check_prediction_task_type (task_list ts) [] = Ok [] <-> Forall type_ok ts.
Proof.
  unfold check_prediction_task_type, task_list. simpl py_iter. rewrite bind_Ok.
  rewrite (for_each_silent check_one_task_type check_one_task_type_appends).
  apply Forall_map_VDict, check_one_task_type_silent.
Qed.

(** X3. On a list of task dictionaries, the type check reports nothing
    exactly when every task has a string [type] that is "accessibility" or
    "expression" or starts with "binding_", "expression_" or
    "conformation_". *)
Theorem check_prediction_task_type_silent (ts : list dict) :
  check_prediction_task_type (task_list ts) [] = Ok [] <->
  Forall (fun task =>
            exists t, lookup "type" task = Some (VStr t) /\
              (In t prediction_task_options \/
               exists p, In p prediction_task_prefixes /\ String.prefix p t = true))
         ts.
Proof.
  rewrite type_loop_silent. split; apply Forall_impl; intros task;
    unfold type_ok, recognized_type.
  - intros [t [Ht Hr]]. exists t. split; [assumption |].
    apply orb_true_iff in Hr. destruct Hr as [Hr | Hr].
    + left. exact (proj1 (mem_str_In t prediction_task_options) Hr).
    + right. apply existsb_exists in Hr. destruct Hr as [p [Hp Hs]]. now exists p.
  - intros [t [Ht H]]. exists t. split; [assumption |]. apply orb_true_iff.
    destruct H as [Hin | [p [Hp Hs]]].
    + left. now apply mem_str_In.
    + right. apply existsb_exists. now exists p.
Qed.

Lemma check_one_task_scale_silent (task : dict) :
  check_one_task_scale (VDict task) [] = Ok [] <-> scale_ok task.
Proof.
  unfold check_one_task_scale, scale_ok. simpl contains_str. unfold has_key, getitem_str.
  destruct (lookup "scale" task) as [scale |]; simpl.
  - split.
    + intros H. right. inversion H as [H1]. apply check_scale_value_admits in H1.
      destruct H1; subst; [now left | now right].
    + intros [H | [H | H]]; inversion H; reflexivity.
  - split; [intros _; now left | reflexivity].
Qed.

Lemma scale_loop_silent (ts : list dict) :
  check_prediction_task_scale (task_list ts) [] = Ok [] <-> Forall scale_ok ts.
Proof.
  unfold check_prediction_task_scale, task_list. simpl py_iter. rewrite bind_Ok.
  rewrite (for_each_silent check_one_task_scale check_one_task_scale_appends).
  apply Forall_map_VDict, check_one_task_scale_silent.
Qed.

(** X4. On a list of task dictionaries, the scale check reports nothing
    exactly when every task either has no [scale] or has the scale "linear"
    or "log" (a [null] scale is reported). *)
Theorem check_prediction_task_scale_silent (ts : list dict) :
  check_prediction_task_scale (task_list ts) [] = Ok [] <->
  Forall (fun task =>
            lookup "scale" task = None \/ lookup "scale" task = Some (VStr "linear") \/
            lookup "scale" task = Some (VStr "log"))
         ts.
Proof. apply scale_loop_silent. Qed.

(** ** Stage 2 of validation *)

Lemma check_one_task_mandatory_keys_closed (index : nat) (task : dict) (errs : errors) :
  check_one_task_mandatory_keys index (VDict task) errs =
  Ok (errs ++ task_key_messages (index, task)).
Proof.
  unfold check_one_task_mandatory_keys, task_key_messages. simpl py_keys.
  rewrite bind_Ok.
  destruct (sorted (set_minus task_mandatory_keys (keys task))); simpl;
    [now rewrite app_nil_r | reflexivity].
Qed.

Lemma check_task_keys_loop (ts : list dict) : forall (i : nat) (errs : errors),
  for_each (fun '(index, task) => check_one_task_mandatory_keys index task)
           (enumerate_from i (map VDict ts)) errs =
  Ok (errs ++ flat_map task_key_messages (enumerate_from i ts)).
Proof.
  induction ts as [| t ts IH]; intros i errs.
  - simpl. now rewrite app_nil_r.
  - simpl enumerate_from. rewrite for_each_cons. cbv beta iota.
    rewrite check_one_task_mandatory_keys_closed, bind_Ok, IH.
    simpl flat_map. now rewrite app_assoc.
Qed.

Lemma check_prediction_task_mandatory_keys_closed (ts : list dict) (errs : errors) :
  check_prediction_task_mandatory_keys (task_list ts) errs =
  Ok (errs ++ all_task_key_messages ts).
Proof.
  unfold check_prediction_task_mandatory_keys, task_list. simpl py_iter.
  rewrite bind_Ok. apply check_task_keys_loop.
Qed.

Lemma sorted_nil (l : list string) : sorted l = [] <-> l = [].
Proof.
  split; intros H.
  - apply Permutation_nil. rewrite <- H. apply sorted_perm.
  - now subst.
Qed.

Lemma task_key_messages_nil (index : nat) (task : dict) :
  task_key_messages (index, task) = [] <-> has_task_keys task.
Proof.
  unfold task_key_messages, has_task_keys. split.
  - intros H k Hk.
    destruct (sorted (set_minus task_mandatory_keys (keys task))) eqn:E; [| discriminate].
    apply (proj1 (sorted_nil _)) in E.
    destruct (in_dec string_dec k (keys task)) as [Hin | Hnot]; [assumption |].
    assert (Hm : In k (set_minus task_mandatory_keys (keys task)))
      by (apply set_minus_In; now split).
    rewrite E in Hm. inversion Hm.
  - intros H.
    assert (E : set_minus task_mandatory_keys (keys task) = []).
    { destruct (set_minus task_mandatory_keys (keys task)) as [| k l] eqn:E;
        [reflexivity |].
      assert (Hm : In k (set_minus task_mandatory_keys (keys task)))
        by (rewrite E; now left).
      apply set_minus_In in Hm. destruct Hm as [Hk Hnot]. exfalso. now apply Hnot, H. }
    now rewrite E.
Qed.

Lemma flat_map_task_keys_nil (ts : list dict) : forall i,
  flat_map task_key_messages (enumerate_from i ts) = [] <-> Forall has_task_keys ts.
Proof.
  induction ts as [| t ts IH]; intros i.
  - split; [constructor | reflexivity].
  - change (flat_map task_key_messages (enumerate_from i (t :: ts)))
      with (task_key_messages (i, t)
            ++ flat_map task_key_messages (enumerate_from (S i) ts)).
    split.
    + intros H. apply app_eq_nil in H. destruct H as [H1 H2].
      constructor; [now apply (task_key_messages_nil i) | now apply (IH (S i))].
    + intros H. inversion H as [| ? ? Ht Hts]; subst.
      apply (task_key_messages_nil i) in Ht. apply (IH (S i)) in Hts.
      now rewrite Ht, Hts.
Qed.

(** X5. On a list of task dictionaries, stage 2 never raises, and it
    reports nothing exactly when every task has the four keys [name],
    [type], [cell_type] and [species]. *)
Theorem check_prediction_task_mandatory_keys_silent (ts : list dict) :
  (exists errs, check_prediction_task_mandatory_keys (task_list ts) [] = Ok errs) /\
  (check_prediction_task_mandatory_keys (task_list ts) [] = Ok [] <->
   Forall has_task_keys ts).
Proof.
  rewrite check_prediction_task_mandatory_keys_closed. simpl app. split.
  - now eexists.
  - unfold all_task_key_messages. rewrite <- (flat_map_task_keys_nil ts 0).
    split; [intros H; now inversion H | intros H; now rewrite H].
Qed.

(** X6. A payload with the three top-level keys whose tasks are
    dictionaries, one of them without a mandatory key: validation stops
    after stage 2 with a [BadRequestError] carrying the messages of stage 2
    only, whatever else is wrong with the request. *)
Theorem validate_stops_at_task_keys (payload : dict) (ts : list dict) :
  missing_keys (keys payload) = [] ->
  lookup "prediction_tasks" payload = Some (task_list ts) ->
  ~ Forall has_task_keys ts ->
  all_task_key_messages ts <> [] /\
  validate_request_payload (VDict payload) =
    Raise (BadRequestError (Msgs (all_task_key_messages ts))).
Proof.
  intros Hkeys Htasks Hbad.
  assert (Hne : all_task_key_messages ts <> []).
  { intros E. apply Hbad. now apply (flat_map_task_keys_nil ts 0). }
  split; [exact Hne |].
  unfold validate_request_payload. simpl py_keys. rewrite bind_Ok.
  rewrite check_mandatory_keys_complete by exact Hkeys.
  change (raise_if_any []) with (@Ok unit tt). rewrite bind_Ok.
  unfold getitem_str at 1. rewrite Htasks, bind_Ok.
  rewrite check_prediction_task_mandatory_keys_closed, bind_Ok. simpl app.
  unfold raise_if_any. destruct (all_task_key_messages ts); [congruence | reflexivity].
Qed.

(** The theorem at a request whose only task has a name and nothing else,
    and an unknown readout on top. *)
Lemma validate_stops_at_task_keys_witness :
  validate_request_payload
    (VDict [("readout", VStr "bogus");
            ("prediction_tasks", VList [VDict [("name", VStr "t1")]]);
            ("sequences", VDict [])]) =
  Raise (BadRequestError
           (Msgs [[Lit "Mandatory keys missing from prediction_task '";
                   Fmt (VStr "t1"); Lit "': "; Lit "cell_type, species, type"]])).
Proof.
  refine (proj2 (@validate_stops_at_task_keys
                   [("readout", VStr "bogus");
                    ("prediction_tasks", VList [VDict [("name", VStr "t1")]]);
                    ("sequences", VDict [])]
                   [[("name", VStr "t1")]] eq_refl eq_refl _)).
  intros H. inversion H as [| ? ? Ht _]; subst.
  specialize (Ht "type" (or_intror (or_introl eq_refl))).
  simpl in Ht. destruct Ht as [Ht | []]. discriminate.
Defined.

(** ** The range checks *)

Lemma same_keys_iff (a b : list string) :
  same_keys a b = true <-> (forall k, In k a <-> In k b).
Proof.
  unfold same_keys. rewrite andb_true_iff, !forallb_forall. split.
  - intros [H1 H2] k. split; intros H.
    + apply mem_str_In. now apply H1.
    + apply mem_str_In. now apply H2.
  - intros H. split; intros k Hk; apply mem_str_In; now apply H.
Qed.

Lemma seq_ids_silent (ranges sequences : dict) :
  check_seq_ids (VDict ranges) (VDict sequences) [] = Ok [] <->
  (forall k, In k (keys ranges) <-> In k (keys sequences)).
Proof.
  unfold check_seq_ids. simpl py_keys. rewrite !bind_Ok.
  rewrite <- same_keys_iff.
  destruct (same_keys (keys ranges) (keys sequences)); split;
    try reflexivity; try discriminate.
Qed.

(** X7. For two dictionaries, [check_seq_ids] reports nothing exactly when
    the ranges and the sequences have the same keys, in any order; given
    anything but two dictionaries it raises [AttributeError]. *)
Theorem check_seq_ids_silent (ranges sequences : value) :
  (forall r s, ranges = VDict r -> sequences = VDict s ->
     (check_seq_ids ranges sequences [] = Ok [] <->
      (forall k, In k (keys r) <-> In k (keys s)))) /\
  ((forall r, ranges <> VDict r) \/ (forall s, sequences <> VDict s) ->
   forall errs, check_seq_ids ranges sequences errs = Raise (PyExc AttributeError)).
Proof.
  split.
  - intros r s Hr Hs. subst. apply seq_ids_silent.
  - intros H errs. unfold check_seq_ids.
    destruct ranges; try reflexivity. destruct sequences; try reflexivity.
    destruct H as [H | H]; exfalso; eapply H; reflexivity.
Qed.

Lemma Qcompare_inject_Z (a b : Z) : Qcompare (inject_Z a) (inject_Z b) = (a ?= b).
Proof. unfold Qcompare, inject_Z. simpl. now rewrite !Z.mul_1_r. Qed.

Lemma as_index_number (x : value) (a : Z) :
  as_index x = Ok a -> as_number x = Some (inject_Z a) /\ isinstance_int x = true.
Proof.
  destruct x as [| c | n | q | s | l | d]; simpl; try discriminate.
  - intros H. inversion H. destruct c; now split.
  - intros H. inversion H. now split.
Qed.

Lemma isinstance_int_index (x : value) :
  isinstance_int x = true -> exists a, as_index x = Ok a.
Proof.
  destruct x; simpl; try discriminate; intros _; now eexists.
Qed.

Lemma py_compare_ints (x y : value) (a b : Z) :
  as_index x = Ok a -> as_index y = Ok b -> py_compare x y = Ok (a ?= b).
Proof.
  intros Hx Hy. apply as_index_number in Hx, Hy.
  destruct Hx as [Hx _], Hy as [Hy _]. unfold py_compare.
  now rewrite Hx, Hy, Qcompare_inject_Z.
Qed.

Lemma py_lt_ints (x y : value) (a b : Z) :
  as_index x = Ok a -> as_index y = Ok b -> py_lt x y = Ok (a <? b).
Proof.
  intros Hx Hy. unfold py_lt. rewrite (py_compare_ints _ _ Hx Hy), bind_Ok.
  unfold Z.ltb. destruct (a ?= b); reflexivity.
Qed.

Lemma py_gt_ints (x y : value) (a b : Z) :
  as_index x = Ok a -> as_index y = Ok b -> py_gt x y = Ok (b <? a).
Proof.
  intros Hx Hy. unfold py_gt. rewrite (py_compare_ints _ _ Hx Hy), bind_Ok.
  unfold Z.ltb. rewrite (Z.compare_antisym a b).
  destruct (a ?= b); reflexivity.
Qed.

Lemma py_ge_ints (x y : value) (a b : Z) :
  as_index x = Ok a -> as_index y = Ok b -> py_ge x y = Ok (b <=? a).
Proof.
  intros Hx Hy. unfold py_ge. rewrite (py_compare_ints _ _ Hx Hy), bind_Ok.
  unfold Z.leb. rewrite (Z.compare_antisym a b).
  destruct (a ?= b); reflexivity.
Qed.

Lemma or_else_Ok (p q : bool) : or_else (Ok p) (Ok q) = Ok (p || q).
Proof. destruct p; reflexivity. Qed.

(** The range check on a pair of integers: three independent conditions,
    each with its message. *)
Lemma check_range_pair_closed (sequences : dict) (key : string) (x y : value)
    (a b n : Z) :
  as_index x = Ok a -> as_index y = Ok b ->
  py_len (dict_get key (VStr "") sequences) = Ok n ->
  check_one_prediction_range (VDict sequences) key (VList [x; y]) [] =
  Ok (range_pair_messages key x y a b n).
Proof.
  intros Hx Hy Hn.
  destruct (as_index_number _ Hx) as [_ Hix], (as_index_number _ Hy) as [_ Hiy].
  unfold check_one_prediction_range.
  change (isinstance_list (VList [x; y])) with true.
  change (truthy (VList [x; y])) with true.
  change (py_len (VList [x; y])) with (@Ok Z 2).
  change (py_iter (VList [x; y])) with (@Ok (list value) [x; y]).
  change (getitem_nat (VList [x; y]) 0) with (@Ok value x).
  change (getitem_nat (VList [x; y]) 1) with (@Ok value y).
  cbv beta iota. simpl negb. cbv iota. rewrite !bind_Ok.
  change (2 =? 2) with true. simpl negb. cbv iota.
  change (forallb isinstance_int [x; y])
    with (isinstance_int x && (isinstance_int y && true)).
  rewrite Hix, Hiy. simpl negb. cbv iota.
  rewrite (py_lt_ints x (VInt 0) Hx eq_refl), (py_lt_ints y (VInt 0) Hy eq_refl).
  rewrite or_else_Ok, bind_Ok.
  rewrite (py_gt_ints x y Hx Hy), bind_Ok.
  change (py_get (VDict sequences) key (VStr ""))
    with (@Ok value (dict_get key (VStr "") sequences)).
  rewrite bind_Ok, Hn, bind_Ok.
  rewrite (py_ge_ints x (VInt n) Hx eq_refl), (py_ge_ints y (VInt n) Hy eq_refl).
  rewrite or_else_Ok, bind_Ok.
  unfold range_pair_messages, append_msg.
  destruct ((a <? 0) || (b <? 0)), (b <? a), ((n <=? a) || (n <=? b)), (n =? 0);
    reflexivity.
Qed.

Lemma range_pair_messages_nil (key : string) (x y : value) (a b n : Z) :
  range_pair_messages key x y a b n = [] <-> 0 <= a <= b /\ b < n.
Proof.
  unfold range_pair_messages. split.
  - destruct ((a <? 0) || (b <? 0)) eqn:E1; [discriminate |].
    destruct (b <? a) eqn:E2; [discriminate |].
    destruct ((n <=? a) || (n <=? b)) eqn:E3; [discriminate |].
    intros _. apply orb_false_iff in E1, E3. destruct E1 as [E1 E1'], E3 as [E3 E3'].
    apply Z.ltb_ge in E1, E2. apply Z.leb_gt in E3'. lia.
  - intros [H1 H2].
    assert (E1 : (a <? 0) || (b <? 0) = false).
    { apply orb_false_iff. split; apply Z.ltb_ge; lia. }
    assert (E2 : (b <? a) = false) by (apply Z.ltb_ge; lia).
    assert (E3 : (n <=? a) || (n <=? b) = false).
    { apply orb_false_iff. split; apply Z.leb_gt; lia. }
    now rewrite E1, E2, E3.
Qed.

Ltac not_silent :=
  unfold bind;
  repeat match goal with
         | |- context [match ?c with _ => _ end] => destruct c
         end;
  unfold append_msg; simpl; try discriminate.

Lemma check_one_prediction_range_silent (sequences : dict) (key : string) (v : value) :
  check_one_prediction_range (VDict sequences) key v [] = Ok [] <->
  range_entry_ok sequences (key, v).
Proof.
  split.
  - unfold range_entry_ok. simpl fst. simpl snd.
    destruct v as [| c | n | q | s | l | d].
    + discriminate.
    + destruct c; discriminate.
    + unfold check_one_prediction_range. simpl. destruct (n =? 0); discriminate.
    + unfold check_one_prediction_range. simpl. destruct (Qeq_bool q 0); discriminate.
    + destruct s as [| c1 [| c2 s]]; discriminate.
    + destruct l as [| x [| y [| z l]]].
      * intros _. now left.
      * discriminate.
      * destruct (isinstance_int x) eqn:Ex.
        -- destruct (isinstance_int y) eqn:Ey.
           ++ destruct (isinstance_int_index _ Ex) as [a Ha].
              destruct (isinstance_int_index _ Ey) as [b Hb].
              destruct (py_len (dict_get key (VStr "") sequences)) as [n |] eqn:En.
              ** rewrite (@check_range_pair_closed sequences key x y a b n Ha Hb En).
                 intros H. inversion H as [H1]. apply range_pair_messages_nil in H1.
                 right. exists x, y, a, b, n. tauto.
              ** unfold check_one_prediction_range.
                 change (py_get (VDict sequences) key (VStr ""))
                   with (@Ok value (dict_get key (VStr "") sequences)).
                 simpl truthy. simpl isinstance_list. simpl py_len. simpl py_iter.
                 simpl getitem_nat. cbv beta iota. rewrite !bind_Ok.
                 destruct (or_else (py_lt x (VInt 0)) (py_lt y (VInt 0)));
                   [| discriminate]. rewrite bind_Ok.
                 destruct (py_gt x y); [| discriminate]. rewrite !bind_Ok, En.
                 discriminate.
           ++ unfold check_one_prediction_range.
              cbn -[py_lt py_gt py_ge py_get py_len or_else append_msg isinstance_int].
              rewrite Ex, Ey.
              cbn -[py_lt py_gt py_ge py_get py_len or_else append_msg isinstance_int].
              not_silent.
        -- unfold check_one_prediction_range.
           cbn -[py_lt py_gt py_ge py_get py_len or_else append_msg isinstance_int].
           rewrite Ex.
           cbn -[py_lt py_gt py_ge py_get py_len or_else append_msg isinstance_int].
           not_silent.
      * assert (E : (Z.of_nat (List.length (x :: y :: z :: l)) =? 2) = false).
        { apply Z.eqb_neq. simpl List.length. lia. }
        unfold check_one_prediction_range.
        change (py_len (VList (x :: y :: z :: l)))
          with (@Ok Z (Z.of_nat (List.length (x :: y :: z :: l)))).
        simpl truthy. simpl isinstance_list. cbv iota. simpl negb. cbv iota.
        rewrite bind_Ok, E. simpl negb. cbv iota.
        not_silent.
    + destruct d as [| [k v] d]; discriminate.
  - unfold range_entry_ok. simpl fst. simpl snd.
    intros [H | [x [y [a [b [n [Hv [Ha [Hb [Hn [H1 H2]]]]]]]]]]]; subst v.
    + reflexivity.
    + rewrite (@check_range_pair_closed sequences key x y a b n Ha Hb Hn). f_equal.
      now apply range_pair_messages_nil.
Qed.

Lemma ranges_loop_silent (ranges sequences : dict) :
  check_prediction_ranges (VDict ranges) (VDict sequences) [] = Ok [] <->
  Forall (range_entry_ok sequences) ranges.
Proof.
  unfold check_prediction_ranges. simpl py_items. rewrite bind_Ok.
  rewrite (for_each_silent
             (fun '(key, v) => check_one_prediction_range (VDict sequences) key v)).
  - split; apply Forall_impl; intros [key v]; apply check_one_prediction_range_silent.
  - intros [key v] errs. apply check_one_prediction_range_appends.
Qed.

(** X8. For two dictionaries, the range check reports nothing exactly when
    every range is the empty list or a list of two integers
    [start], [end] (booleans count as 1 and 0) with [0 <= start <= end] and
    [end] below the length of what the sequences hold under the same key;
    anything else is reported or makes the check raise. *)
Theorem check_prediction_ranges_silent (ranges sequences : dict) :
  check_prediction_ranges (VDict ranges) (VDict sequences) [] = Ok [] <->
  Forall (fun entry =>
            snd entry = VList [] \/
            exists x y a b n,
              snd entry = VList [x; y] /\ as_index x = Ok a /\ as_index y = Ok b /\
              py_len (dict_get (fst entry) (VStr "") sequences) = Ok n /\
              0 <= a <= b /\ b < n)
         ranges.
Proof. apply ranges_loop_silent. Qed.

(** On integer pairs the range check reports each violated condition on
    its own: a negative index, a start above the end, an index at or past
    the length of the sequence. *)
Example range_pair_reported :
  range_pair_messages "s1" (VInt 3) (VInt (-1)) 3 (-1) 2 =
  [[Lit "Invalid range for '"; Fmt (VStr "s1");
    Lit "' in 'prediction_ranges': indices must be positive. Received [";
    Fmt (VInt 3); Lit ", "; Fmt (VInt (-1)); Lit "]"];
   [Lit "Invalid range for '"; Fmt (VStr "s1");
    Lit "' in 'prediction_ranges': start index ("; Fmt (VInt 3);
    Lit ") cannot be greater than end index ("; Fmt (VInt (-1));
    Lit "). Received ["; Fmt (VInt 3); Lit ", "; Fmt (VInt (-1)); Lit "]"];
   [Lit "Invalid range for '"; Fmt (VStr "s1");
    Lit "': index is out of bounds. The maximum valid index for a sequence of length ";
    Fmt (VInt 2); Lit " is "; Fmt (VInt 1); Lit "."]].
Proof. reflexivity. Qed.

(** ** What validation accepts *)

Lemma missing_keys_nil (ks : list string) :
  missing_keys ks = [] <-> (forall k, In k mandatory_keys -> In k ks).
Proof.
  unfold missing_keys. rewrite sorted_nil. split.
  - intros E k Hk. destruct (in_dec string_dec k ks) as [Hin | Hnot]; [assumption |].
    assert (Hm : In k (set_minus mandatory_keys ks)) by (apply set_minus_In; now split).
    rewrite E in Hm. inversion Hm.
  - intros H. destruct (set_minus mandatory_keys ks) as [| k l] eqn:E; [reflexivity |].
    assert (Hm : In k (set_minus mandatory_keys ks)) by (rewrite E; now left).
    apply set_minus_In in Hm. destruct Hm as [Hk Hnot]. exfalso. now apply Hnot, H.
Qed.

Lemma validate_passes_core (payload : dict) (ts : list dict) :
  lookup "prediction_tasks" payload = Some (task_list ts) ->
  (validate_request_payload (VDict payload) = Ok tt <->
   missing_keys (keys payload) = [] /\ Forall has_task_keys ts /\
   remaining_messages payload = Ok []).
Proof.
  intros Htasks. split.
  - unfold validate_request_payload. simpl py_keys. rewrite bind_Ok.
    unfold check_mandatory_keys. fold (missing_keys (keys payload)).
    destruct (missing_keys (keys payload)) as [| k ks] eqn:Ek;
      [| unfold append_msg; simpl; discriminate].
    change (raise_if_any []) with (@Ok unit tt). rewrite bind_Ok.
    unfold getitem_str at 1. rewrite Htasks, bind_Ok.
    rewrite check_prediction_task_mandatory_keys_closed, bind_Ok. simpl app.
    destruct (all_task_key_messages ts) as [| m ms] eqn:Em; [| discriminate].
    change (raise_if_any []) with (@Ok unit tt). rewrite bind_Ok.
    simpl py_items. rewrite bind_Ok, remaining_checks_accumulate, after_nil.
    destruct (remaining_messages payload) as [found |]; [| discriminate].
    rewrite bind_Ok. destruct found; [| discriminate]. intros _.
    split; [reflexivity | split; [| reflexivity]].
    now apply (flat_map_task_keys_nil ts 0).
  - intros [Hk [Hts Hrem]].
    apply (@validate_reports_every_violation payload (task_list ts) [] Hk Htasks);
      [| exact Hrem].
    rewrite check_prediction_task_mandatory_keys_closed. simpl app. f_equal.
    now apply (flat_map_task_keys_nil ts 0).
Qed.

Lemma flank_message_silent (key : string) (payload : dict) :
  match lookup key payload with
  | Some v => check_scalar_string key v []
  | None => []
  end = [] <-> flank_ok key payload.
Proof.
  unfold flank_ok. destruct (lookup key payload) as [v |].
  - rewrite check_scalar_string_silent. split.
    + intros [s Hs]. subst. right. now exists s.
    + intros [H | [u Hu]]; [discriminate | inversion Hu; now eexists].
  - split; [intros _; now left | reflexivity].
Qed.

Lemma check_seq_ids_Ok_dicts (ranges sequences : value) (errs found : errors) :
  check_seq_ids ranges sequences errs = Ok found ->
  exists r s, ranges = VDict r /\ sequences = VDict s.
Proof.
  unfold check_seq_ids. destruct ranges; try discriminate.
  destruct sequences; try discriminate. intros _. now eexists; eexists.
Qed.

Lemma task_accepted_split (ts : list dict) :
  Forall task_accepted ts <->
  Forall (string_field "name") ts /\ Forall type_ok ts /\
  Forall (string_field "cell_type") ts /\
  Forall (string_field "species") ts /\ Forall scale_ok ts.
Proof.
  unfold task_accepted. rewrite !Forall_forall. split.
  - intros H. repeat split; intros t Ht; apply H in Ht; tauto.
  - intros [H1 [H2 [H3 [H4 H5]]]] t Ht. repeat split; auto.
Qed.

Lemma remaining_messages_accepts (payload : dict) (ts : list dict) :
  lookup "prediction_tasks" payload = Some (task_list ts) ->
  (exists r, lookup "readout" payload = Some (VStr r) /\ In r readout_options) ->
  Forall task_accepted ts -> ranges_accepted payload ->
  flank_ok "upstream_seq" payload -> flank_ok "downstream_seq" payload ->
  remaining_messages payload = Ok [].
Proof.
  intros Htasks [r [Hr Hin]] Hts Hranges Hup Hdown.
  apply task_accepted_split in Hts. destruct Hts as [H1 [H2 [H3 [H4 H5]]]].
  unfold remaining_messages, getitem_str. rewrite Htasks, Hr, !bind_Ok.
  rewrite (proj2 (name_loop_silent ts) H1), bind_Ok.
  rewrite (proj2 (type_loop_silent ts) H2), bind_Ok.
  rewrite (proj2 (cell_type_loop_silent ts) H3), bind_Ok.
  rewrite (proj2 (species_loop_silent ts) H4), bind_Ok.
  rewrite (proj2 (scale_loop_silent ts) H5), bind_Ok.
  assert (Hread : check_key_values_readout (VStr r) [] = []).
  { apply readout_silent. now exists r. }
  rewrite Hread.
  unfold check_key_values_upstream_flank, check_key_values_downstream_flank.
  rewrite (proj2 (flank_message_silent "upstream_seq" payload) Hup).
  rewrite (proj2 (flank_message_silent "downstream_seq" payload) Hdown).
  unfold has_key. destruct Hranges as [Hnone | [rd [sd [Hrd [Hsd [Hk Hf]]]]]].
  - rewrite Hnone. reflexivity.
  - rewrite Hrd, Hsd, !bind_Ok.
    rewrite (proj2 (seq_ids_silent rd sd) Hk), bind_Ok.
    rewrite (proj2 (ranges_loop_silent rd sd) Hf). reflexivity.
Qed.

Lemma remaining_messages_accepted (payload : dict) (ts : list dict) :
  lookup "prediction_tasks" payload = Some (task_list ts) ->
  remaining_messages payload = Ok [] ->
  (exists r, lookup "readout" payload = Some (VStr r) /\ In r readout_options) /\
  Forall task_accepted ts /\ ranges_accepted payload /\
  flank_ok "upstream_seq" payload /\ flank_ok "downstream_seq" payload.
Proof.
  intros Htasks. unfold remaining_messages, getitem_str. rewrite Htasks.
  destruct (lookup "readout" payload) as [readout |] eqn:Eread; [| discriminate].
  rewrite !bind_Ok.
  destruct (check_prediction_task_name (task_list ts) []) as [names |] eqn:E1;
    [| discriminate]. rewrite bind_Ok.
  destruct (check_prediction_task_type (task_list ts) []) as [types |] eqn:E2;
    [| discriminate]. rewrite bind_Ok.
  destruct (check_prediction_task_cell_type (task_list ts) []) as [cells |] eqn:E3;
    [| discriminate]. rewrite bind_Ok.
  destruct (check_prediction_task_species (task_list ts) []) as [species |] eqn:E4;
    [| discriminate]. rewrite bind_Ok.
  destruct (check_prediction_task_scale (task_list ts) []) as [scales |] eqn:E5;
    [| discriminate]. rewrite bind_Ok.
  unfold check_key_values_upstream_flank, check_key_values_downstream_flank.
  pose proof (flank_message_silent "upstream_seq" payload) as Hup.
  pose proof (flank_message_silent "downstream_seq" payload) as Hdown.
  set (up := match lookup "upstream_seq" payload with
             | Some v => check_scalar_string "upstream_seq" v []
             | None => []
             end) in *.
  set (down := match lookup "downstream_seq" payload with
               | Some v => check_scalar_string "downstream_seq" v []
               | None => []
               end) in *.
  match goal with
  | |- bind ?c _ = _ -> _ => destruct c as [ranges |] eqn:Er; [| discriminate]
  end.
  rewrite bind_Ok. intros H. inversion H as [H0]. clear H.
  repeat match goal with
         | H : _ ++ _ = [] |- _ => apply app_eq_nil in H; destruct H
         end.
  subst names. subst types. subst cells. subst species. subst scales. subst ranges.
  split; [| split; [| split; [| split]]].
  - match goal with
    | Hr : check_key_values_readout readout [] = [] |- _ =>
        apply readout_silent in Hr; destruct Hr as [r [Hr Hin]]
    end.
    subst readout. now exists r.
  - apply task_accepted_split.
    split; [now apply name_loop_silent | split; [now apply type_loop_silent |]].
    split; [now apply cell_type_loop_silent | split];
      [now apply species_loop_silent | now apply scale_loop_silent].
  - unfold ranges_accepted. unfold has_key in Er.
    destruct (lookup "prediction_ranges" payload) as [r |]; [| now left].
    right. rewrite bind_Ok in Er.
    destruct (lookup "sequences" payload) as [s |]; [| discriminate].
    rewrite bind_Ok in Er.
    destruct (check_seq_ids r s []) as [ids |] eqn:Eids; [| discriminate].
    rewrite bind_Ok in Er.
    destruct (check_prediction_ranges r s []) as [bounds |] eqn:Eb; [| discriminate].
    rewrite bind_Ok in Er. inversion Er as [H1].
    apply app_eq_nil in H1. destruct H1; subst ids bounds.
    destruct (check_seq_ids_Ok_dicts _ _ _ Eids) as [rd [sd [Hrd Hsd]]]. subst r s.
    exists rd, sd. split; [reflexivity | split; [reflexivity |]].
    split; [now apply seq_ids_silent | now apply ranges_loop_silent].
  - now apply Hup.
  - now apply Hdown.
Qed.

Lemma lookup_Some_keys {A : Type} (k : string) (v : A) (d : list (string * A)) :
  lookup k d = Some v -> In k (keys d).
Proof.
  intros H. destruct (in_dec string_dec k (keys d)) as [Hin | Hnot]; [assumption |].
  apply lookup_None_keys in Hnot. congruence.
Qed.

Lemma task_accepted_keys (task : dict) : task_accepted task -> has_task_keys task.
Proof.
  intros [[n Hn] [[t [Ht _]] [[c Hc] [[s Hs] _]]]] k Hk.
  simpl in Hk. destruct Hk as [Hk | [Hk | [Hk | [Hk | []]]]]; subst k;
    eapply lookup_Some_keys; eassumption.
Qed.

(** X9. What validation accepts.  For a payload whose [prediction_tasks]
    is a list of dictionaries, [validate_request_payload] returns without
    raising exactly when: [sequences] is present; the readout is one of the
    three known strings; every task has string [name], [cell_type] and
    [species], a recognized string [type] and no scale or the scale
    "linear" or "log"; the ranges, if present, are a dictionary with the
    keys of the sequences (a dictionary too) whose entries are empty or
    lie within their sequence; and each flank, if present, is a string. *)
Theorem validate_accepts_exactly (payload : dict) (ts : list dict) :
  lookup "prediction_tasks" payload = Some (task_list ts) ->
  (validate_request_payload (VDict payload) = Ok tt <->
   In "sequences" (keys payload) /\
   (exists r, lookup "readout" payload = Some (VStr r) /\ In r readout_options) /\
   Forall task_accepted ts /\ ranges_accepted payload /\
   flank_ok "upstream_seq" payload /\ flank_ok "downstream_seq" payload).
Proof.
  intros Htasks. rewrite (@validate_passes_core payload ts Htasks). split.
  - intros [Hk [_ Hrem]].
    destruct (@remaining_messages_accepted payload ts Htasks Hrem)
      as [Hread [Hts [Hranges [Hup Hdown]]]].
    split; [| tauto].
    apply (proj1 (missing_keys_nil (keys payload)) Hk). simpl. tauto.
  - intros [Hseq [[r [Hr Hin]] [Hts [Hranges [Hup Hdown]]]]].
    split; [| split].
    + apply missing_keys_nil. intros k Hk.
      simpl in Hk. destruct Hk as [Hk | [Hk | [Hk | []]]]; subst k.
      * eapply lookup_Some_keys; eassumption.
      * eapply lookup_Some_keys; eassumption.
      * assumption.
    + revert Hts. apply Forall_impl, task_accepted_keys.
    + apply (@remaining_messages_accepts payload ts Htasks); try assumption.
      now exists r.
Qed.

(** The theorem at a request with one task, the sequence "AAAA" and the
    range [[0, 3]]: it passes, so its task and its range are as the theorem
    says. *)
Lemma validate_accepts_exactly_witness :
  Forall task_accepted
    [[("name", VStr "t1"); ("type", VStr "expression");
      ("cell_type", VStr "K562"); ("species", VStr "human")]] /\
  ranges_accepted
    [("readout", VStr "point"); ("prediction_tasks", VList [sample_task]);
     ("sequences", VDict [("s1", VStr "AAAA")]);
     ("prediction_ranges", VDict [("s1", VList [VInt 0; VInt 3])])].
Proof.
  pose proof (@validate_accepts_exactly
                [("readout", VStr "point"); ("prediction_tasks", VList [sample_task]);
                 ("sequences", VDict [("s1", VStr "AAAA")]);
                 ("prediction_ranges", VDict [("s1", VList [VInt 0; VInt 3])])]
                [[("name", VStr "t1"); ("type", VStr "expression");
                  ("cell_type", VStr "K562"); ("species", VStr "human")]]
                eq_refl) as H.
  destruct (proj1 H eq_refl) as [_ [_ [Hts [Hr _]]]].
  split; assumption.
Defined.

(** ** What [preprocess_data] returns *)

Lemma check_one_seq_specifications_appends (seq_id : string) (seq : value)
    (errs : errors) :
  check_one_seq_specifications seq_id seq errs =
  after errs (check_one_seq_specifications seq_id seq []).
Proof.
  unfold check_one_seq_specifications.
  destruct seq as [| b | n | q | s | l | d]; try reflexivity.
  destruct (invalid_chars_of (upper s)); rewrite after_Ok; f_equal; accumulate.
Qed.

Lemma valid_sequenceb_complete (s : string) :
  s <> "" -> invalid_chars_of (upper s) = [] -> valid_sequence s.
Proof.
  intros Hne Hinv. split; [assumption |]. apply Forall_forall. intros c Hc.
  destruct (mem_ascii c valid_bases) eqn:E; [now apply mem_ascii_In |].
  assert (Hin : In c (invalid_chars_of (upper s))).
  { apply invalid_chars_of_In. split; [assumption |].
    intros H. apply mem_ascii_In in H. congruence. }
  rewrite Hinv in Hin. inversion Hin.
Qed.

Lemma check_one_seq_specifications_silent (seq_id : string) (seq : value) :
  check_one_seq_specifications seq_id seq [] = Ok [] ->
  exists s, seq = VStr s /\ valid_sequence s.
Proof.
  unfold check_one_seq_specifications.
  destruct seq as [| b | n | q | s | l | d]; try discriminate.
  simpl truthy. rewrite negb_involutive.
  destruct (String.eqb s "") eqn:Es.
  - destruct (invalid_chars_of (upper s)); unfold append_msg; simpl; discriminate.
  - destruct (invalid_chars_of (upper s)) eqn:Ei;
      [| unfold append_msg; simpl; discriminate].
    intros _. exists s. split; [reflexivity |].
    apply valid_sequenceb_complete; [now apply String.eqb_neq | assumption].
Qed.

Lemma all_strings (P : string -> Prop) (d : dict) :
  Forall (fun kv => exists s, snd kv = VStr s /\ P s) d ->
  exists seqs, d = str_dict seqs /\ Forall (fun kv => P (snd kv)) seqs.
Proof.
  induction 1 as [| [k v] d [s [Hs HP]] _ [seqs [Hd Hall]]].
  - exists []. split; [reflexivity | constructor].
  - simpl in Hs. subst v d. exists ((k, s) :: seqs). split; [reflexivity |].
    now constructor.
Qed.

Lemma check_seqs_specifications_passes (sequences : value) :
  check_seqs_specifications sequences [] = Ok [] ->
  exists seqs, sequences = VDict (str_dict seqs) /\
    Forall (fun kv => valid_sequence (snd kv)) seqs.
Proof.
  unfold check_seqs_specifications.
  destruct sequences as [| b | n | q | s | l | d]; try discriminate.
  simpl py_items. rewrite bind_Ok. intros H.
  apply (for_each_silent
           (fun '(seq_id, seq) => check_one_seq_specifications seq_id seq)) in H.
  - destruct (@all_strings valid_sequence d) as [seqs [Hd Hall]].
    + revert H. apply Forall_impl. intros [k v] Hkv.
      now apply check_one_seq_specifications_silent in Hkv.
    + exists seqs. subst d. now split.
  - intros [k v] errs. apply check_one_seq_specifications_appends.
Qed.

Lemma in_strs_true (v : value) (l : list string) :
  in_strs v l = true -> exists s, v = VStr s /\ In s l.
Proof.
  unfold in_strs. intros H. apply existsb_exists in H. destruct H as [x [Hx Hs]].
  destruct v; simpl in Hs; try discriminate.
  apply String.eqb_eq in Hs. subst. now eexists.
Qed.

Lemma preprocess_data_Ok (payload : value) (d : dict) :
  preprocess_data payload = Ok d ->
  exists p seqs r,
    payload = VDict p /\ d = str_dict seqs /\
    Forall (fun kv => valid_sequence (snd kv)) seqs /\
    lookup "readout" p = Some (VStr r) /\ In r supported_readouts.
Proof.
  unfold preprocess_data.
  destruct payload as [| b | n | q | s | l | p]; try discriminate.
  simpl py_items. rewrite bind_Ok.
  destruct (apply_flanks p (dict_get "sequences" (VDict []) p)) as [s1 |];
    [| discriminate]. rewrite bind_Ok.
  destruct (apply_ranges p s1) as [s2 |]; [| discriminate]. rewrite bind_Ok.
  unfold check_and_return.
  destruct (check_seqs_specifications s2 []) as [errs |] eqn:Ec; [| discriminate].
  rewrite bind_Ok. unfold getitem_str.
  destruct (lookup "readout" p) as [r |] eqn:Er; [| discriminate].
  rewrite bind_Ok.
  destruct (in_strs r supported_readouts) eqn:Ein; [| discriminate].
  simpl negb. cbv iota.
  destruct errs as [| m errs]; [| discriminate]. simpl any_errors. cbv iota.
  destruct (check_seqs_specifications_passes _ Ec) as [seqs [Hs Hall]]. subst s2.
  simpl py_items. intros H. inversion H. subst d.
  destruct (in_strs_true _ _ Ein) as [r' [Hr' Hin]]. subst r.
  exists p, seqs, r'. tauto.
Qed.

(** X10. Whatever the payload, when [preprocess_data] returns, it returns a
    dictionary of strings each of which is not empty and, in upper case,
    over the alphabet A, T, C, G, N, and the readout of the payload is
    "point" or "track". *)
Theorem preprocess_data_returns_valid_sequences (payload : value) (d : dict) :
  preprocess_data payload = Ok d ->
  exists p seqs r,
    payload = VDict p /\ d = str_dict seqs /\
    Forall (fun kv => valid_sequence (snd kv)) seqs /\
    lookup "readout" p = Some (VStr r) /\ (r = "point" \/ r = "track").
Proof.
  intros H. destruct (preprocess_data_Ok _ H) as [p [seqs [r [H1 [H2 [H3 [H4 H5]]]]]]].
  exists p, seqs, r. repeat split; try assumption.
  simpl in H5. destruct H5 as [H5 | [H5 | []]]; [now left | now right].
Qed.

Lemma preprocess_data_returns_valid_sequences_witness :
  exists p seqs r,
    VDict sample_flank_payload = VDict p /\ [("s1", VStr "CG")] = str_dict seqs /\
    Forall (fun kv : string * string => valid_sequence (snd kv)) seqs /\
    lookup "readout" p = Some (VStr r) /\ (r = "point" \/ r = "track").
Proof.
  exact (@preprocess_data_returns_valid_sequences
           (VDict sample_flank_payload) [("s1", VStr "CG")] eq_refl).
Defined.

(** ** From validation to predictions *)

Lemma predict_cpg_valid (seqs : list (string * string)) (readout scale_requested : value) :
  Forall (fun kv => valid_sequence (snd kv)) seqs ->
  readout = VStr "point" \/ readout = VStr "track" ->
  valid_scale scale_requested ->
  exists preds,
    predict_cpg (VDict (str_dict seqs)) readout scale_requested =
      Ok (preds, resolved_scale scale_requested).
Proof.
  intros Hvalid Hreadout Hscale. rewrite Forall_forall in Hvalid.
  unfold predict_cpg. fold (resolved_scale scale_requested).
  destruct Hreadout as [Hr | Hr]; subst readout; simpl is_str; cbv iota;
    simpl py_items; rewrite ?bind_Ok.
  - destruct (@predictions_loop_total
                (fun seq_id sequence preds =>
                   x <- cpg_mean sequence (resolved_scale scale_requested) ;;
                   Ok (dict_set seq_id [x] preds)) seqs) with (acc := @nil (string * list fl))
      as [preds Hp].
    + intros id s acc Hin. cbv beta.
      destruct (Hvalid (id, s) Hin) as [Hne _]. simpl in Hne.
      rewrite (cpg_mean_closed _ Hne).
      destruct (by_scale_valid (FQ (smoothed_ratio s)) (FLog2 (smoothed_ratio s)) Hscale)
        as [x Hx].
      rewrite Hx, bind_Ok. eexists. reflexivity.
    + cbv beta in Hp. rewrite Hp, bind_Ok. eexists. reflexivity.
  - destruct (@predictions_loop_total
                (fun seq_id sequence preds =>
                   xs <- calculate_cpg_per_base sequence
                           (resolved_scale scale_requested) 50 ;;
                   Ok (dict_set seq_id xs preds)) seqs) with (acc := @nil (string * list fl))
      as [preds Hp].
    + intros id s acc Hin. cbv beta. rewrite calculate_cpg_per_base_closed.
      destruct (by_scale_valid
                  (map (fun i => FQ (window_density (cleaned s) i))
                       (range (len_str (cleaned s))))
                  (map (fun i => FLog2 (window_density (cleaned s) i + epsilon)%Q)
                       (range (len_str (cleaned s)))) Hscale) as [x Hx].
      rewrite Hx, bind_Ok. eexists. reflexivity.
    + cbv beta in Hp. rewrite Hp, bind_Ok. eexists. reflexivity.
Qed.

Lemma scale_ok_valid (task : dict) :
  scale_ok task -> valid_scale (dict_get "scale" VNone task).
Proof.
  unfold scale_ok, valid_scale, dict_get.
  intros [H | [H | H]]; rewrite H; tauto.
Qed.

Lemma resolved_scale_valid (scale_requested : value) :
  valid_scale scale_requested ->
  resolved_scale scale_requested = VStr "linear" \/
  resolved_scale scale_requested = VStr "log".
Proof. intros [H | [H | H]]; subst; simpl; tauto. Qed.

Lemma predict_task_accepted (seqs : list (string * string)) (readout : value)
    (task : dict) :
  Forall (fun kv => valid_sequence (snd kv)) seqs ->
  readout = VStr "point" \/ readout = VStr "track" ->
  task_accepted task ->
  exists out,
    predict_task (str_dict seqs) readout (VDict task) = Ok out /\
    out_name out = dict_get "name" VNone task /\
    scale_prediction_requested out = dict_get "scale" VNone task /\
    scale_prediction_actual out = resolved_scale (dict_get "scale" VNone task).
Proof.
  intros Hvalid Hreadout [[n Hn] [[t [Ht _]] [[c Hc] [[s Hs] Hscale]]]].
  apply scale_ok_valid in Hscale.
  destruct (@predict_cpg_valid seqs readout (dict_get "scale" VNone task)
              Hvalid Hreadout Hscale) as [preds Hp].
  unfold predict_task, getitem_str. rewrite Ht, Hc, !bind_Ok.
  simpl py_get. rewrite bind_Ok, Hp, bind_Ok. cbv beta iota.
  rewrite Hn, Hs, !bind_Ok. eexists. split; [reflexivity |].
  simpl. unfold dict_get. rewrite Hn. tauto.
Qed.

Lemma predict_tasks_loop (seqs : list (string * string)) (readout : value)
    (b : option Z) (ts : list dict) :
  Forall (fun kv => valid_sequence (snd kv)) seqs ->
  readout = VStr "point" \/ readout = VStr "track" ->
  Forall task_accepted ts ->
  forall acc, exists outs,
    for_each (fun prediction_task (outs : list task_output) =>
                out <- predict_task (str_dict seqs) readout prediction_task ;;
                match Some b with
                | Some _ => Ok (outs ++ [out])
                | None => Raise (PyExc UnboundLocalError)
                end)
             (map VDict ts) acc = Ok (acc ++ outs) /\
    map out_name outs = map (dict_get "name" VNone) ts /\
    map scale_prediction_actual outs =
      map (fun task => resolved_scale (dict_get "scale" VNone task)) ts.
Proof.
  intros Hvalid Hreadout Hts. induction Hts as [| t ts Ht _ IH]; intros acc.
  - exists []. simpl. now rewrite app_nil_r.
  - simpl map. rewrite for_each_cons.
    destruct (@predict_task_accepted seqs readout t Hvalid Hreadout Ht)
      as [out [Ho [Hname [_ Hsc]]]].
    rewrite Ho, !bind_Ok.
    destruct (IH (acc ++ [out])) as [outs [Hl [Hn Hs]]].
    exists (out :: outs). rewrite Hl. simpl. rewrite <- app_assoc. simpl.
    now rewrite Hname, Hsc, Hn, Hs.
Qed.

(** X11. A request that passed validation and preprocessing is always
    predicted: for a payload whose tasks are a list of dictionaries, once
    [validate_request_payload] and [preprocess_data] have returned, the
    loop of the route returns one output per task, in the order of the
    tasks, each with the task's name and with the actual scale "linear" or
    "log" ("linear" for a task without scale); no task makes it raise. *)
Theorem validated_request_is_predicted (payload : dict) (ts : list dict) (d : dict) :
  lookup "prediction_tasks" payload = Some (task_list ts) ->
  validate_request_payload (VDict payload) = Ok tt ->
  preprocess_data (VDict payload) = Ok d ->
  exists out,
    predict_tasks (VDict payload) d = Ok out /\
    map out_name (prediction_tasks out) = map (dict_get "name" VNone) ts /\
    map scale_prediction_actual (prediction_tasks out) =
      map (fun task => resolved_scale (dict_get "scale" VNone task)) ts /\
    Forall (fun o => scale_prediction_actual o = VStr "linear" \/
                     scale_prediction_actual o = VStr "log") (prediction_tasks out) /\
    (bin_size out = Some 1 <-> lookup "readout" payload = Some (VStr "track")).
Proof.
  intros Htasks Hval Hpre.
  apply (proj1 (@validate_passes_core payload ts Htasks)) in Hval.
  destruct Hval as [_ [_ Hrem]].
  destruct (@remaining_messages_accepted payload ts Htasks Hrem) as [_ [Hts _]].
  destruct (preprocess_data_Ok _ Hpre) as [p [seqs [r [Hp [Hd [Hvalid [Hr Hin]]]]]]].
  inversion Hp; subst p d. clear Hp.
  assert (Hreadout : VStr r = VStr "point" \/ VStr r = VStr "track").
  { simpl in Hin. destruct Hin as [H | [H | []]]; subst r; tauto. }
  unfold predict_tasks. simpl py_get. unfold dict_get at 1. rewrite Hr, bind_Ok.
  unfold getitem_str. rewrite Htasks, bind_Ok. unfold task_list. simpl py_iter.
  rewrite bind_Ok.
  assert (Hj : exists b,
             (if in_strs (VStr r) ["point"] then Some None
              else if in_strs (VStr r) ["track"] then Some (Some 1) else None)
             = Some b /\ (b = Some 1 <-> r = "track")).
  { destruct Hreadout as [H | H]; inversion H; subst r; simpl; eexists;
      (split; [reflexivity |]); split; intros H1; congruence. }
  destruct Hj as [b [Hb Hbt]]. rewrite Hb.
  destruct (@predict_tasks_loop seqs (VStr r) b ts Hvalid Hreadout Hts [])
    as [outs [Hl [Hn Hs]]].
  rewrite Hl, bind_Ok. simpl app. eexists. split; [reflexivity |]. simpl.
  split; [exact Hn | split; [exact Hs | split]].
  - apply Forall_forall. intros o Ho.
    apply (in_map scale_prediction_actual) in Ho. rewrite Hs in Ho.
    apply in_map_iff in Ho. destruct Ho as [t [Ht Hin']]. rewrite <- Ht.
    apply resolved_scale_valid, scale_ok_valid.
    rewrite Forall_forall in Hts. now apply Hts.
  - rewrite Hbt. split; intros H; [now subst | congruence].
Qed.

(** The theorem at the request with one task, the sequence "AAAA" and the
    range [[0, 3]]. *)
Lemma validated_request_is_predicted_witness :
  exists out,
    predict_tasks (VDict sample_valid_payload) [("s1", VStr "AAAA")] = Ok out /\
    map out_name (prediction_tasks out) = [VStr "t1"] /\
    map scale_prediction_actual (prediction_tasks out) = [VStr "linear"].
Proof.
  destruct (@validated_request_is_predicted sample_valid_payload [sample_task_dict]
              [("s1", VStr "AAAA")] eq_refl eq_refl eq_refl)
    as [out [H1 [H2 [H3 _]]]].
  exists out. split; [exact H1 | split; [exact H2 | exact H3]].
Defined.

(** ** What a validated range selects *)

Lemma length_append (s1 s2 : string) :
  String.length (s1 ++ s2) = (String.length s1 + String.length s2)%nat.
Proof. induction s1 as [| c s1 IH]; simpl; [reflexivity | now rewrite IH]. Qed.

Lemma length_substring (s : string) : forall n m : nat,
  (n + m <= String.length s)%nat -> String.length (String.substring n m s) = m.
Proof.
  induction s as [| c s IH]; intros n m H.
  - simpl in H. assert (n = 0%nat) by lia. assert (m = 0%nat) by lia. now subst.
  - destruct n as [| n]; simpl in *.
    + destruct m as [| m]; [reflexivity |]. simpl. f_equal. apply IH. lia.
    + apply IH. lia.
Qed.

Lemma length_substring_le (s : string) : forall n m : nat,
  (String.length (String.substring n m s) <= m)%nat.
Proof.
  induction s as [| c s IH]; intros n m.
  - destruct n, m; simpl; lia.
  - destruct n as [| n]; simpl.
    + destruct m as [| m]; simpl; [lia |]. specialize (IH 0%nat m). lia.
    + apply IH.
Qed.

Lemma inclusive_slice_within (up s down : string) (a b : Z) :
  0 <= a <= b -> b < len_str s ->
  let flanked := (up ++ s ++ down)%string in
  let trimmed := inclusive_slice flanked a b in
  len_str trimmed = b - a + 1 /\
  trimmed <> "" /\
  (forall i : nat, Z.of_nat i <= b - a ->
     String.get i trimmed = String.get (i + Z.to_nat a) flanked).
Proof.
  intros Hab Hb flanked trimmed.
  assert (Hlen : (String.length s <= String.length flanked)%nat).
  { unfold flanked. rewrite !length_append. lia. }
  unfold len_str in Hb.
  assert (Hl : len_str trimmed = b - a + 1).
  { unfold trimmed, len_str, inclusive_slice. rewrite length_substring; lia. }
  split; [exact Hl | split].
  - intros E. rewrite E in Hl. unfold len_str in Hl. simpl in Hl. lia.
  - intros i Hi. apply inclusive_slice_get; lia.
Qed.

(** X12. On a payload whose sequences are strings under distinct ids,
    whose flanks are absent or strings and whose ranges are empty lists or
    pairs [0 <= start <= end] for known sequence ids: for a sequence with
    the range [[start, end]], [end] being below the length of the sequence
    as it was sent, the body of the second loop of [preprocess_data]
    replaces the flanked sequence by a string of exactly
    [end - start + 1] characters, the characters of the flanked sequence
    at [start], ..., [end]; this string, never empty, is what the loop
    leaves under the id and what [preprocess_data] checks and returns. *)
Theorem validated_range_selects (p : dict) (seqs : list (string * string))
    (rs : list (string * option (Z * Z))) (seq_id s : string) (a b : Z) :
  lookup "sequences" p = Some (VDict (str_dict seqs)) ->
  NoDup (keys seqs) ->
  flank_ok "upstream_seq" p -> flank_ok "downstream_seq" p ->
  ranges_are p rs -> NoDup (keys rs) -> incl (keys rs) (keys seqs) ->
  Forall range_ok rs ->
  lookup seq_id seqs = Some s ->
  lookup seq_id rs = Some (Some (a, b)) ->
  b < len_str s ->
  let flanked_s :=
    (flank_of "upstream_seq" p ++ s ++ flank_of "downstream_seq" p)%string in
  exists (final : list (string * string)) (t : string),
    trim_one seq_id (VList [VInt a; VInt b]) (VDict (str_dict (flanked p seqs))) =
      Ok (VDict (str_dict (dict_set seq_id t (flanked p seqs)))) /\
    apply_ranges p (VDict (str_dict (flanked p seqs))) = Ok (VDict (str_dict final)) /\
    preprocess_data (VDict p) = check_and_return p (VDict (str_dict final)) /\
    lookup seq_id final = Some t /\
    len_str t = b - a + 1 /\
    t <> "" /\
    (forall i : nat, Z.of_nat i <= b - a ->
       String.get i t = String.get (i + Z.to_nat a) flanked_s).
Proof.
  intros Hseq Hnd Hup Hdown Hr Hrs Hincl Hok Hs Hrange Hb flanked_s.
  destruct (@preprocess_data_closed p seqs rs Hseq Hnd Hup Hdown Hr Hrs Hincl Hok)
    as [_ [H2 H3]].
  assert (Hab : 0 <= a <= b).
  { rewrite Forall_forall in Hok.
    exact (Hok (seq_id, Some (a, b)) (lookup_Some_In _ _ Hrange)). }
  assert (Hfl : lookup seq_id (flanked p seqs) = Some flanked_s).
  { unfold flanked.
    rewrite (lookup_map_values
               (fun _ s0 =>
                  (flank_of "upstream_seq" p ++ s0 ++ flank_of "downstream_seq" p)%string)).
    now rewrite Hs. }
  destruct (@inclusive_slice_within (flank_of "upstream_seq" p) s
              (flank_of "downstream_seq" p) a b Hab Hb) as [Hl [Hne Hget]].
  exists (trimmed rs (flanked p seqs)), (inclusive_slice flanked_s a b).
  split; [| split; [exact H2 | split; [exact H3 | split; [| split; [| split]]]]].
  - rewrite (trim_one_pair _ a b _ Hfl). now rewrite py_slice_inclusive.
  - unfold trimmed.
    rewrite (lookup_map_values (fun id s0 => trim (lookup id rs) s0)).
    rewrite Hfl, Hrange. reflexivity.
  - exact Hl.
  - exact Hne.
  - exact Hget.
Qed.

(** The theorem at upstream ["CG"], sequence ["AT"] and the range
    [[0, 1]]: two characters are kept. *)
Lemma validated_range_selects_witness :
  exists (final : list (string * string)) (t : string),
    preprocess_data (VDict sample_flank_payload) =
      check_and_return sample_flank_payload (VDict (str_dict final)) /\
    lookup "s1" final = Some t /\
    len_str t = 1 - 0 + 1.
Proof.
  assert (Hnd1 : NoDup (keys [("s1", "AT")])).
  { constructor; [simpl; tauto | constructor]. }
  assert (Hnd2 : NoDup (keys [("s1", Some (0, 1))])).
  { constructor; [simpl; tauto | constructor]. }
  assert (Hincl : incl (keys [("s1", Some (0, 1))]) (keys [("s1", "AT")])).
  { intros x Hx. exact Hx. }
  assert (Hok : Forall range_ok [("s1", Some (0, 1))]).
  { constructor; [unfold range_ok; simpl; lia | constructor]. }
  assert (Hb : 1 < len_str "AT") by (unfold len_str; simpl; lia).
  destruct (@validated_range_selects sample_flank_payload
              [("s1", "AT")] [("s1", Some (0, 1))] "s1" "AT" 0 1
              eq_refl Hnd1 (or_intror (ex_intro _ "CG" eq_refl)) (or_introl eq_refl)
              (or_intror eq_refl) Hnd2 Hincl Hok eq_refl eq_refl Hb)
    as [final [t [_ [_ [H3 [H4 [H5 _]]]]]]].
  exists final, t. split; [exact H3 | split; [exact H4 | exact H5]].
Defined.

(** ** The range of the predictions *)

(** Two "CG" pairs do not overlap: there are at most half as many as
    characters. *)
Lemma count_CG_half (s : string) : (2 * count_CG s <= String.length s)%nat.
Proof.
  assert (H : forall n s, (String.length s <= n)%nat ->
                          (2 * count_CG s <= String.length s)%nat).
  { intros n. induction n as [| n IH]; intros s0 Hlen.
    - destruct s0; simpl in *; lia.
    - destruct s0 as [| a [| b t]]; [simpl; lia | simpl; lia |].
      simpl in Hlen.
      replace (count_CG (String a (String b t)))
        with (if Ascii.eqb a "C" && Ascii.eqb b "G" then S (count_CG t)
              else count_CG (String b t)) by reflexivity.
      destruct (Ascii.eqb a "C" && Ascii.eqb b "G").
      + specialize (IH t). simpl String.length. lia.
      + specialize (IH (String b t)). simpl String.length in *. lia. }
  apply (H (String.length s)). lia.
Qed.

Lemma adjacent_CG_half (s : string) : (2 * adjacent_CG s <= String.length s)%nat.
Proof. rewrite <- count_CG_adjacent. apply count_CG_half. Qed.

Lemma smoothed_bounds (c len : Z) :
  0 <= c -> 2 * c <= len -> 1 <= len ->
  (0 < (inject_Z c + epsilon) / inject_Z len)%Q /\
  ((inject_Z c + epsilon) / inject_Z len <= (1 # 2) + epsilon)%Q.
Proof.
  intros Hc H2 Hl.
  assert (Hpos : (0 < inject_Z len)%Q).
  { unfold Qlt, inject_Z. simpl. lia. }
  split.
  - apply Qlt_shift_div_l; [exact Hpos |].
    unfold Qlt, Qmult, Qplus, inject_Z, epsilon. cbn [Qnum Qden].
    rewrite ?Pos2Z.inj_mul. lia.
  - apply Qle_shift_div_r; [exact Hpos |].
    unfold Qle, Qmult, Qplus, inject_Z, epsilon. cbn [Qnum Qden].
    rewrite ?Pos2Z.inj_mul. lia.
Qed.

Lemma log2R_negative (q : Q) : (0 < q)%Q -> (q < 1)%Q -> (log2R (Q2R q) < 0)%R.
Proof.
  intros H0 H1. apply Qlt_Rlt in H0, H1.
  replace (Q2R 0) with 0%R in H0 by (unfold Q2R; simpl; lra).
  replace (Q2R 1) with 1%R in H1 by (unfold Q2R; simpl; lra).
  unfold log2R. pose proof ln2_pos as H2.
  assert (Hln : (ln (Q2R q) < 0)%R).
  { rewrite <- ln_1. now apply ln_increasing. }
  apply Rmult_lt_reg_r with (ln 2); [exact H2 |].
  replace (ln (Q2R q) / ln 2 * ln 2)%R with (ln (Q2R q)) by (field; lra).
  lra.
Qed.

(** X13. For a sequence that is not empty, the point prediction under the
    scale "linear" is above 0 and at most [1/2 + 1e-9] (two "CG" pairs
    cannot overlap), and under the scale "log" it is the logarithm of that
    value, a negative number. *)
Theorem point_prediction_bounds (s : string) :
  s <> "" ->
  cpg_mean (VStr s) (VStr "linear") = Ok (FQ (smoothed_ratio s)) /\
  cpg_mean (VStr s) (VStr "log") = Ok (FLog2 (smoothed_ratio s)) /\
  (0 < smoothed_ratio s)%Q /\
  (smoothed_ratio s <= (1 # 2) + epsilon)%Q /\
  (fl_denote (FLog2 (smoothed_ratio s)) < 0)%R.
Proof.
  intros Hne.
  assert (Hlen : 1 <= len_str s).
  { unfold len_str. destruct s; [congruence | simpl; lia]. }
  pose proof (adjacent_CG_half (upper s)) as Hhalf.
  assert (H2 : 2 * Z.of_nat (adjacent_CG (upper s)) <= len_str s).
  { rewrite <- len_str_upper. unfold len_str. lia. }
  destruct (@smoothed_bounds (Z.of_nat (adjacent_CG (upper s))) (len_str s))
    as [Hpos Hle]; [lia | exact H2 | exact Hlen |].
  split; [now rewrite cpg_mean_closed | split; [now rewrite cpg_mean_closed |]].
  split; [exact Hpos | split; [exact Hle |]].
  simpl fl_denote. apply log2R_negative; [exact Hpos |].
  eapply Qle_lt_trans; [exact Hle |]. reflexivity.
Qed.

Lemma point_prediction_bounds_witness :
  (0 < smoothed_ratio "ACGCGT")%Q /\ (smoothed_ratio "ACGCGT" <= (1 # 2) + epsilon)%Q.
Proof.
  destruct (@point_prediction_bounds "ACGCGT") as [_ [_ [H1 [H2 _]]]].
  - discriminate.
  - split; assumption.
Defined.

(** ** The range of the track predictions *)

Lemma length_py_slice_le (s : string) (a b : Z) :
  0 <= a -> a < b -> b <= len_str s ->
  (Z.of_nat (String.length (py_slice s a b)) <= b - a).
Proof.
  intros Ha Hab Hb. unfold py_slice, slice_bound.
  assert (Ea : (a <? 0) = false) by (apply Z.ltb_ge; lia).
  assert (Eb : (b <? 0) = false) by (apply Z.ltb_ge; lia).
  rewrite Ea, Eb.
  pose proof (length_substring_le s (Z.to_nat (Z.min a (len_str s)))
                (Z.to_nat (Z.min b (len_str s) - Z.min a (len_str s)))) as H.
  lia.
Qed.

Lemma ratio_percent_bounds (c w : Z) :
  0 <= c -> 2 * c <= w -> 0 < w ->
  (0 <= inject_Z c / inject_Z w * 100)%Q /\ (inject_Z c / inject_Z w * 100 <= 50)%Q.
Proof.
  intros Hc H2 Hw. destruct w as [| p | p]; try lia.
  unfold Qle, Qdiv, Qmult, Qinv, inject_Z. cbn [Qnum Qden].
  rewrite ?Pos2Z.inj_mul. split; nia.
Qed.

Lemma density_at_bounds (sequence : string) (half_window i : Z) :
  (0 <= density_at sequence half_window i)%Q /\
  (density_at sequence half_window i <= 50)%Q.
Proof.
  unfold density_at.
  set (start := Z.max 0 (i - half_window)).
  set (end_ := Z.min (len_str sequence) (i + half_window)).
  destruct (0 <? end_ - start) eqn:E.
  - apply Z.ltb_lt in E. apply ratio_percent_bounds; [lia | | exact E].
    pose proof (count_CG_half (py_slice sequence start end_)) as Hh.
    pose proof (@length_py_slice_le sequence start end_) as Hl.
    assert (0 <= start) by (unfold start; lia).
    assert (end_ <= len_str sequence) by (unfold end_; lia).
    lia.
  - split; unfold Qle; simpl; lia.
Qed.

(** X14. Whatever the sequence and the window size, the track prediction
    has one value for each character of the sequence without its spaces
    and newlines; under the scale "linear" each value is a density between
    0 and 50, and under the scale "log" each value is the logarithm of a
    positive number, the density plus [1e-9]. *)
Theorem track_prediction_bounds (raw : string) (window_size : Z) :
  exists densities : list Q,
    calculate_cpg_per_base (VStr raw) (VStr "linear") window_size
      = Ok (map FQ densities) /\
    calculate_cpg_per_base (VStr raw) (VStr "log") window_size
      = Ok (map (fun d => FLog2 (d + epsilon)%Q) densities) /\
    List.length densities = String.length (cleaned raw) /\
    Forall (fun d => (0 <= d)%Q /\ (d <= 50)%Q /\ (0 < d + epsilon)%Q) densities.
Proof.
  exists (map (density_at (cleaned raw) (window_size / 2)) (range (len_str (cleaned raw)))).
  split; [reflexivity | split; [reflexivity | split]].
  - rewrite length_map, length_range. unfold len_str. lia.
  - apply Forall_forall. intros d Hd. apply in_map_iff in Hd.
    destruct Hd as [i [Hd _]]. subst d.
    destruct (density_at_bounds (cleaned raw) (window_size / 2) i) as [H0 H50].
    split; [exact H0 | split; [exact H50 |]].
    apply Qlt_le_trans with (0 + epsilon)%Q; [reflexivity |].
    apply Qplus_le_l. exact H0.
Qed.

(** ** Letter case *)

Lemma upper_lower_ascii (c : ascii) : upper_ascii (lower_ascii c) = upper_ascii c.
Proof. destruct c as [[] [] [] [] [] [] [] []]; reflexivity. Qed.

Lemma upper_upper_ascii (c : ascii) : upper_ascii (upper_ascii c) = upper_ascii c.
Proof. destruct c as [[] [] [] [] [] [] [] []]; reflexivity. Qed.

Lemma upper_lower (s : string) : upper (lower s) = upper s.
Proof.
  unfold upper, lower. induction s as [| c s IH]; simpl; [reflexivity |].
  now rewrite upper_lower_ascii, IH.
Qed.

Lemma upper_upper (s : string) : upper (upper s) = upper s.
Proof.
  unfold upper. induction s as [| c s IH]; simpl; [reflexivity |].
  now rewrite upper_upper_ascii, IH.
Qed.

Lemma cpg_mean_upper (s1 s2 : string) (scale_actual : value) :
  upper s1 = upper s2 ->
  cpg_mean (VStr s1) scale_actual = cpg_mean (VStr s2) scale_actual.
Proof. intros H. unfold cpg_mean. now rewrite H. Qed.

Lemma calculate_cpg_per_base_upper (s1 s2 : string) (scale_actual : value) (w : Z) :
  upper s1 = upper s2 ->
  calculate_cpg_per_base (VStr s1) scale_actual w =
  calculate_cpg_per_base (VStr s2) scale_actual w.
Proof. intros H. unfold calculate_cpg_per_base. now rewrite H. Qed.

(** X15. The predictions do not depend on the case of the letters: an
    ASCII sequence, the sequence in lower case and the sequence in upper
    case get the same point prediction and the same track prediction, and
    raise the same exception when one of them raises. *)
Theorem predictions_ignore_case (s : string) (scale_actual : value) (window_size : Z) :
  ascii_text s ->
  cpg_mean (VStr (lower s)) scale_actual = cpg_mean (VStr s) scale_actual /\
  cpg_mean (VStr (upper s)) scale_actual = cpg_mean (VStr s) scale_actual /\
  calculate_cpg_per_base (VStr (lower s)) scale_actual window_size
    = calculate_cpg_per_base (VStr s) scale_actual window_size /\
  calculate_cpg_per_base (VStr (upper s)) scale_actual window_size
    = calculate_cpg_per_base (VStr s) scale_actual window_size.
Proof.
  intros _. split; [| split; [| split]].
  - apply cpg_mean_upper, upper_lower.
  - apply cpg_mean_upper, upper_upper.
  - apply calculate_cpg_per_base_upper, upper_lower.
  - apply calculate_cpg_per_base_upper, upper_upper.
Qed.

Lemma predictions_ignore_case_witness :
  cpg_mean (VStr (lower "acGt")) (VStr "linear") = cpg_mean (VStr "acGt") (VStr "linear") /\
  calculate_cpg_per_base (VStr (lower "acGt")) (VStr "linear") 50
    = calculate_cpg_per_base (VStr "acGt") (VStr "linear") 50.
Proof.
  destruct (@predictions_ignore_case "acGt" (VStr "linear") 50) as [H1 [_ [H3 _]]].
  - unfold ascii_text. simpl. repeat constructor.
  - split; assumption.
Defined.

(** ** The error handler *)

(** X16. The response to an [APIError]: the payload starts with the name of
    the predictor and has, under "error", one entry per message, each
    under the key of the error class; it is serialised as JSON whatever the
    request asks for (the msgpack serialiser is not used), and carries the
    status of the class.  If the JSON serialiser fails, a [ServerError] is
    raised from the handler. *)
Theorem handle_api_error_response (text : msg -> string)
    (packb jsonify : value -> result string) (req : request)
    (c : api_class) (m : message) :
  let texts := match m with Msgs l => map text l | Msg1 x => [text x] end in
  let payload :=
    VDict [("predictor_name", VStr "CpG Predictor");
           ("error", VList (map (fun t => VDict [(error_key c, VStr t)]) texts))] in
  handle_api_error text packb jsonify req c m =
  match jsonify payload with
  | Ok b => Ok {| body := b; status := status_code c; mimetype := "application/json" |}
  | Raise _ =>
      Raise (ServerError
               (Msg1 [Lit "Internal Server Error: Failed to serialize response as JSON: ";
                      FmtCaught]))
  end.
Proof. destruct m; reflexivity. Qed.

(** ** Sequences the model cannot take *)

Lemma seq_violations_nil (seq_id s : string) :
  seq_violations seq_id s = [] <-> valid_sequence s.
Proof.
  unfold seq_violations. split.
  - intros H. apply app_eq_nil in H. destruct H as [He Hi].
    destruct (String.eqb s "") eqn:Es; [discriminate |].
    destruct (invalid_chars_of (upper s)) eqn:Ei; [| discriminate].
    apply valid_sequenceb_complete; [now apply String.eqb_neq | assumption].
  - intros [Hne Hall]. apply String.eqb_neq in Hne. rewrite Hne. simpl.
    destruct (invalid_chars_of (upper s)) as [| c cs] eqn:Ei; [reflexivity |].
    assert (Hc : In c (invalid_chars_of (upper s))) by (rewrite Ei; now left).
    apply invalid_chars_of_In in Hc. destruct Hc as [Hc Hn].
    rewrite Forall_forall in Hall. exfalso. apply Hn. now apply Hall.
Qed.

Lemma all_violations_nil (seqs : list (string * string)) :
  all_violations seqs = [] <-> Forall (fun kv => valid_sequence (snd kv)) seqs.
Proof.
  unfold all_violations. induction seqs as [| [k s] seqs IH]; simpl.
  - split; [constructor | reflexivity].
  - split.
    + intros H. apply app_eq_nil in H. destruct H as [H1 H2].
      constructor; [now apply (seq_violations_nil k) | now apply IH].
    + intros H. inversion H as [| x l Hs Hl]; subst. simpl in Hs.
      apply (seq_violations_nil k) in Hs. rewrite Hs. simpl. now apply IH.
Qed.

(** X17. On a payload whose sequences are strings under distinct ids,
    whose flanks are absent or strings, whose ranges are empty lists or
    pairs [0 <= start <= end] for known sequence ids, and whose readout is
    "point" or "track": [preprocess_data] returns the flanked and trimmed
    sequences exactly when each of them is not empty and over the
    alphabet; otherwise it raises a [PredictionFailedError] (status 422)
    that carries the messages of all the sequences at fault, in the order
    of the sequences.  That the sequences are strings is an assumption on
    the payload: validation does not check it. *)
Theorem preprocess_reports_invalid_sequences (p : dict)
    (seqs : list (string * string)) (rs : list (string * option (Z * Z)))
    (readout_type : value) :
  lookup "sequences" p = Some (VDict (str_dict seqs)) ->
  NoDup (keys seqs) ->
  flank_ok "upstream_seq" p -> flank_ok "downstream_seq" p ->
  ranges_are p rs -> NoDup (keys rs) -> incl (keys rs) (keys seqs) ->
  Forall range_ok rs ->
  lookup "readout" p = Some readout_type ->
  in_strs readout_type supported_readouts = true ->
  let final := trimmed rs (flanked p seqs) in
  let all_valid := Forall (fun kv => valid_sequence (snd kv)) final in
  (all_valid <-> preprocess_data (VDict p) = Ok (str_dict final)) /\
  (~ all_valid ->
     all_violations final <> [] /\
     preprocess_data (VDict p) = Raise (PredictionFailedError (Msgs (all_violations final))) /\
     exn_status (PredictionFailedError (Msgs (all_violations final))) = Some 422).
Proof.
  intros Hseq Hnd Hup Hdown Hr Hrs Hincl Hok Hread Hsup final all_valid.
  destruct (@preprocess_data_closed p seqs rs Hseq Hnd Hup Hdown Hr Hrs Hincl Hok)
    as [_ [_ H3]].
  fold final in H3.
  assert (Hc : preprocess_data (VDict p) =
               if any_errors (all_violations final)
               then Raise (PredictionFailedError (Msgs (all_violations final)))
               else Ok (str_dict final)).
  { rewrite H3. unfold check_and_return.
    rewrite check_seqs_specifications_closed, bind_Ok.
    unfold getitem_str. rewrite Hread, bind_Ok, Hsup. reflexivity. }
  unfold all_valid. rewrite <- all_violations_nil. rewrite Hc.
  destruct (all_violations final) as [| m ms]; simpl any_errors; cbv iota.
  - split; [tauto | intros H; now exfalso].
  - split; [split; discriminate |].
    intros _. split; [discriminate | split; reflexivity].
Qed.

Lemma preprocess_reports_invalid_sequences_witness :
  preprocess_data (VDict sample_invalid_sequence_payload) =
  Raise (PredictionFailedError
           (Msgs (all_violations [("s1", "AXGT"); ("s2", "ACGT")]))).
Proof.
  assert (Hnd1 : NoDup (keys [("s1", "AXGT"); ("s2", "ACGT")])).
  { constructor; [simpl; intuition discriminate |].
    constructor; [simpl; tauto | constructor]. }
  destruct (@preprocess_reports_invalid_sequences
              sample_invalid_sequence_payload [("s1", "AXGT"); ("s2", "ACGT")] []
              (VStr "point")
              eq_refl Hnd1 (or_introl eq_refl) (or_introl eq_refl)
              (or_introl (conj eq_refl eq_refl)) (NoDup_nil _)
              (fun x (H : In x []) => match H with end) (Forall_nil _)
              eq_refl eq_refl)
    as [_ H].
  destruct H as [_ [H _]].
  - intros Hall. inversion Hall as [| x l [_ Hs] _]; subst.
    simpl in Hs. inversion Hs as [| c cs _ Hrest]; subst.
    inversion Hrest as [| c cs Hx _]; subst.
    simpl in Hx. intuition discriminate.
  - exact H.
Defined.

(** ** What validation raises *)

Lemma builtin_only_bind {A B : Type} (c : result A) (k : A -> result B) :
  builtin_only c -> (forall x, builtin_only (k x)) -> builtin_only (bind c k).
Proof. destruct c as [a | e]; simpl; intros Hc Hk; [apply Hk | exact Hc]. Qed.

Lemma builtin_only_for_each {A St : Type} (body : A -> St -> result St) (xs : list A) :
  (forall x s, builtin_only (body x s)) -> forall s, builtin_only (for_each body xs s).
Proof.
  intros Hb. induction xs as [| x xs IH]; intros s; simpl; [exact I |].
  apply builtin_only_bind; [apply Hb | exact IH].
Qed.

Ltac builtin :=
  repeat first
    [ exact I
    | progress intros
    | progress cbv zeta
    | apply builtin_only_bind
    | apply builtin_only_for_each
    | match goal with
      | |- builtin_only (match ?x with _ => _ end) => destruct x
      | |- builtin_only ((let '(_, _) := ?x in _) _) => destruct x
      | |- builtin_only (?f _) => progress unfold f
      | |- builtin_only (?f _ _) => progress unfold f
      | |- builtin_only (?f _ _ _) => progress unfold f
      | |- builtin_only (?f _ _ _ _) => progress unfold f
      end ].

Lemma builtin_only_py_compare (a b : value) : builtin_only (py_compare a b).
Proof. unfold py_compare. destruct (as_number a), (as_number b); exact I. Qed.

Lemma builtin_only_or_else (x y : result bool) :
  builtin_only x -> builtin_only y -> builtin_only (or_else x y).
Proof.
  intros Hx Hy. unfold or_else. apply builtin_only_bind; [exact Hx |].
  intros [|]; [exact I | exact Hy].
Qed.

Lemma builtin_only_py_lt (a b : value) : builtin_only (py_lt a b).
Proof.
  unfold py_lt. apply builtin_only_bind; [apply builtin_only_py_compare | intros; exact I].
Qed.

Lemma builtin_only_py_gt (a b : value) : builtin_only (py_gt a b).
Proof.
  unfold py_gt. apply builtin_only_bind; [apply builtin_only_py_compare | intros; exact I].
Qed.

Lemma builtin_only_py_ge (a b : value) : builtin_only (py_ge a b).
Proof.
  unfold py_ge. apply builtin_only_bind; [apply builtin_only_py_compare | intros; exact I].
Qed.

Lemma builtin_only_task_keys (prediction_tasks : value) (errs : errors) :
  builtin_only (check_prediction_task_mandatory_keys prediction_tasks errs).
Proof. builtin. Qed.

Lemma builtin_only_task_name (prediction_tasks : value) (errs : errors) :
  builtin_only (check_prediction_task_name prediction_tasks errs).
Proof. builtin. Qed.

Lemma builtin_only_task_type (prediction_tasks : value) (errs : errors) :
  builtin_only (check_prediction_task_type prediction_tasks errs).
Proof. builtin. Qed.

Lemma builtin_only_task_cell_type (prediction_tasks : value) (errs : errors) :
  builtin_only (check_prediction_task_cell_type prediction_tasks errs).
Proof. builtin. Qed.

Lemma builtin_only_task_species (prediction_tasks : value) (errs : errors) :
  builtin_only (check_prediction_task_species prediction_tasks errs).
Proof. builtin. Qed.

Lemma builtin_only_task_scale (prediction_tasks : value) (errs : errors) :
  builtin_only (check_prediction_task_scale prediction_tasks errs).
Proof. builtin. Qed.

Lemma builtin_only_seq_ids (prediction_ranges sequences : value) (errs : errors) :
  builtin_only (check_seq_ids prediction_ranges sequences errs).
Proof. builtin. Qed.

Lemma builtin_only_ranges (prediction_ranges sequences : value) (errs : errors) :
  builtin_only (check_prediction_ranges prediction_ranges sequences errs).
Proof.
  unfold check_prediction_ranges. apply builtin_only_bind; [builtin |].
  intros ranges. apply builtin_only_for_each. intros [key v] s.
  unfold check_one_prediction_range. cbv zeta.
  destruct (negb (truthy v)); [exact I |].
  repeat first
    [ exact I
    | apply builtin_only_py_lt | apply builtin_only_py_gt | apply builtin_only_py_ge
    | apply builtin_only_or_else
    | apply builtin_only_bind; [| intros]
    | match goal with
      | |- builtin_only (if ?b then _ else _) => destruct b
      | |- builtin_only (py_len ?x) => destruct x
      | |- builtin_only (py_iter ?x) => destruct x
      | |- builtin_only (py_get ?x _ _) => destruct x
      | |- builtin_only (getitem_nat ?x ?i) =>
          unfold getitem_nat; destruct x;
          try match goal with |- builtin_only (match ?o with _ => _ end) => destruct o end
      end ].
Qed.

Lemma builtin_only_remaining_checks (payload : dict) (errs : errors) :
  builtin_only (remaining_checks payload errs).
Proof.
  unfold remaining_checks.
  repeat first
    [ exact I
    | apply builtin_only_task_name | apply builtin_only_task_type
    | apply builtin_only_task_cell_type | apply builtin_only_task_species
    | apply builtin_only_task_scale | apply builtin_only_seq_ids
    | apply builtin_only_ranges
    | apply builtin_only_bind; [| intros]
    | progress cbv zeta
    | match goal with
      | |- builtin_only (if ?b then _ else _) => destruct b
      | |- builtin_only (getitem_str (VDict ?d) ?k) =>
          unfold getitem_str; destruct (lookup k d)
      end ].
Qed.

Lemma bind_Raise_cases {A B : Type} (c : result A) (k : A -> result B) (e : exn) :
  bind c k = Raise e -> c = Raise e \/ exists x, c = Ok x /\ k x = Raise e.
Proof.
  destruct c as [a | e']; simpl; intros H; [right; eauto | left; congruence].
Qed.

Lemma builtin_only_Raise {A : Type} (r : result A) (e : exn) :
  builtin_only r -> r = Raise e -> bad_request_or_builtin e.
Proof.
  intros H E. subst r. destruct e; simpl in H; try contradiction.
  right. eexists. reflexivity.
Qed.

Lemma raise_if_any_Raise (errs : errors) (e : exn) :
  raise_if_any errs = Raise e -> bad_request_or_builtin e.
Proof.
  unfold raise_if_any. destruct errs as [| m ms]; simpl; [discriminate |].
  intros H. inversion H. left. exists (m :: ms). split; [discriminate | reflexivity].
Qed.

Lemma validate_Raise (payload : value) (e : exn) :
  validate_request_payload payload = Raise e -> bad_request_or_builtin e.
Proof.
  unfold validate_request_payload. intros H.
  repeat match type of H with
         | bind _ _ = Raise _ =>
             apply bind_Raise_cases in H; destruct H as [H | [? [_ H]]]
         end;
    try (now apply raise_if_any_Raise in H);
    try (revert H; apply builtin_only_Raise; first
           [ apply builtin_only_task_keys | apply builtin_only_remaining_checks | builtin ]).
Qed.

(** X18. Whatever the payload, [validate_request_payload] either returns
    or ends with one of two kinds of exception: a [BadRequestError]
    (status 400) that carries at least one message, or a built-in Python
    exception; it never raises a [PredictionFailedError] or a
    [ServerError] itself. *)
Theorem validate_raises_bad_request_or_builtin (payload : value) (e : exn) :
  validate_request_payload payload = Raise e ->
  ((exists msgs, msgs <> [] /\ e = BadRequestError (Msgs msgs)) \/
   (exists x, e = PyExc x)) /\
  (exn_status e = Some 400 \/ exn_status e = None).
Proof.
  intros H. apply validate_Raise in H. split; [exact H |].
  destruct H as [[msgs [_ H]] | [x H]]; subst e; [now left | now right].
Qed.

Lemma validate_raises_bad_request_or_builtin_witness :
  exn_status (PyExc AttributeError) = Some 400 \/ exn_status (PyExc AttributeError) = None.
Proof.
  exact (proj2 (@validate_raises_bad_request_or_builtin (VInt 0) (PyExc AttributeError)
                  eq_refl)).
Defined.

(** ** How the failures of the route reach the client *)

Lemma decode_request_Raise (get_json : request -> result value)
    (unpackb : string -> result value) (req : request) (supported : list string)
    (e : exn) :
  decode_request get_json unpackb req supported = Raise e ->
  exists m, e = BadRequestError m.
Proof.
  unfold decode_request.
  destruct (mem_str (resolved_content_type req) supported); simpl negb; cbv iota.
  - destruct (String.eqb (resolved_content_type req) "application/json").
    + destruct (get_json req); [discriminate |]. intros H. inversion H. now eexists.
    + destruct (String.eqb (resolved_content_type req) "application/msgpack").
      * destruct (unpackb (data req)); [discriminate |].
        intros H. inversion H. now eexists.
      * intros H. inversion H. now eexists.
  - intros H. inversion H. now eexists.
Qed.

Lemma reraise_Raise {A : Type} (r : result A) (e : exn) :
  reraise r = Raise e -> exists c m, e = APIError c m.
Proof.
  destruct r as [a | [c m | x | w |]]; simpl; intros H; inversion H; now eexists; eexists.
Qed.

(** X19. The failures of the [/predict] route.  A request that cannot be
    decoded fails with the [BadRequestError] of [decode_request] (status
    400).  A body that decodes to anything but an object fails with a
    [ServerError] (status 500), not with a 400.  When validation raises its
    [BadRequestError], the route raises it unchanged, and when validation
    raises a built-in exception the route raises a [ServerError].  Whatever
    the route raises has the status 400, 422 or 500. *)
Theorem route_failures (get_json : request -> result value)
    (unpackb : string -> result value) (req : request) :
  let decoded := decode_request get_json unpackb req SUPPORTED_REQUEST_FORMATS in
  let route := predict_before_encode get_json unpackb req in
  (forall e, decoded = Raise e -> route = Raise e /\ exn_status e = Some 400) /\
  (forall v, decoded = Ok v -> (forall d, v <> VDict d) ->
     route = Raise unexpected_error /\ exn_status unexpected_error = Some 500) /\
  (forall v e, decoded = Ok v -> validate_request_payload v = Raise e ->
     (exists msgs, msgs <> [] /\ e = BadRequestError (Msgs msgs) /\ route = Raise e) \/
     (exists x, e = PyExc x /\ route = Raise unexpected_error)) /\
  (forall e, route = Raise e ->
     exn_status e = Some 400 \/ exn_status e = Some 422 \/ exn_status e = Some 500).
Proof.
  intros decoded route. unfold route, predict_before_encode. fold decoded.
  split; [| split; [| split]].
  - intros e He. rewrite He, bind_Raise.
    destruct (decode_request_Raise _ _ _ _ He) as [m Hm]. subst e.
    split; reflexivity.
  - intros v Hv Hnd. rewrite Hv, bind_Ok. split; [| reflexivity].
    destruct v as [| b | n | q | s | l | d]; try reflexivity.
    exfalso. now apply (Hnd d).
  - intros v e Hv He. rewrite Hv, bind_Ok, He, bind_Raise.
    destruct (validate_Raise _ He) as [[msgs [Hne Hm]] | [x Hx]]; subst e.
    + left. exists msgs. split; [exact Hne | split; reflexivity].
    + right. exists x. split; reflexivity.
  - intros e He. apply reraise_Raise in He. destruct He as [c [m He]]. subst e.
    destruct c; simpl; tauto.
Qed.

(** ** What the range check reports for a pair of integers *)

(** X20. For a range of two integers [[a, b]] and a sequence of length [n]
    under the same key (length 0 when there is none), the range check never
    raises and appends, in this order: a message when one of the two is
    negative, a message when [a] is above [b], and a message when one of the
    two is [n] or more; the three conditions are reported independently of
    each other, and nothing is appended exactly when [0 <= a <= b < n]. *)
Theorem integer_range_is_reported (sequences : dict) (key : string) (a b n : Z) :
  py_len (dict_get key (VStr "") sequences) = Ok n ->
  let reported :=
    check_one_prediction_range (VDict sequences) key (VList [VInt a; VInt b]) [] in
  let messages := range_pair_messages key (VInt a) (VInt b) a b n in
  let negative := (a <? 0) || (b <? 0) in
  let reversed := b <? a in
  let outside := (n <=? a) || (n <=? b) in
  reported = Ok messages /\
  (messages = [] <-> 0 <= a <= b /\ b < n) /\
  List.length messages = (Nat.b2n negative + Nat.b2n reversed + Nat.b2n outside)%nat.
Proof.
  intros Hn reported messages negative reversed outside. split; [| split].
  - unfold reported, messages.
    now apply (@check_range_pair_closed sequences key (VInt a) (VInt b) a b n).
  - apply range_pair_messages_nil.
  - unfold messages, range_pair_messages, negative, reversed, outside.
    destruct ((a <? 0) || (b <? 0)), (b <? a), ((n <=? a) || (n <=? b)); reflexivity.
Qed.

Lemma integer_range_is_reported_witness :
  List.length (range_pair_messages "s1" (VInt 3) (VInt (-1)) 3 (-1) 2) = 3%nat.
Proof.
  destruct (@integer_range_is_reported [("s1", VStr "AC")] "s1" 3 (-1) 2 eq_refl)
    as [_ [_ H]].
  exact H.
Defined.

(** ** One error for all the messages *)

(** X21. Once the two key-presence stages have passed and every check of
    the third stage has run to its end, the messages of all these checks
    are raised together, in the order of the checks, in one
    [BadRequestError] (status 400). *)
Theorem validation_raises_all_messages (payload : dict) (tasks : value)
    (found : errors) :
  missing_keys (keys payload) = [] ->
  lookup "prediction_tasks" payload = Some tasks ->
  check_prediction_task_mandatory_keys tasks [] = Ok [] ->
  remaining_messages payload = Ok found ->
  found <> [] ->
  validate_request_payload (VDict payload) = Raise (BadRequestError (Msgs found)) /\
  exn_status (BadRequestError (Msgs found)) = Some 400.
Proof.
  intros Hkeys Htasks Hstage2 Hfound Hne.
  rewrite (@validate_reports_every_violation payload tasks found Hkeys Htasks Hstage2 Hfound).
  destruct found as [| m ms]; [congruence |]. split; reflexivity.
Qed.

Lemma validation_raises_all_messages_witness :
  validate_request_payload
    (VDict [("readout", VStr "bogus"); ("prediction_tasks", VList [sample_task]);
            ("sequences", VDict [("s1", VStr "AAAA")]); ("upstream_seq", VInt 5)]) =
  Raise (BadRequestError
           (Msgs [[Lit "readout requested is not recognized. Please choose from ['point', 'track', 'interaction_matrix']"];
                  [Lit "'upstream_seq' value should be a string"]])).
Proof.
  refine (proj1 (@validation_raises_all_messages
                   [("readout", VStr "bogus"); ("prediction_tasks", VList [sample_task]);
                    ("sequences", VDict [("s1", VStr "AAAA")]); ("upstream_seq", VInt 5)]
                   (VList [sample_task]) _ eq_refl eq_refl eq_refl eq_refl _)).
  discriminate.
Defined.

(** ** The predictions of the track readout and of other readouts *)

Lemma track_values_closed (scale_requested : value) (s : string) :
  valid_scale scale_requested ->
  calculate_cpg_per_base (VStr s) (resolved_scale scale_requested) 50 =
  Ok (track_values (resolved_scale scale_requested) s).
Proof.
  intros Hs. rewrite calculate_cpg_per_base_closed, by_scale_cases. unfold track_values.
  destruct Hs as [H | [H | H]]; subst; reflexivity.
Qed.

Lemma length_track_values (scale_actual : value) (s : string) :
  List.length (track_values scale_actual s) = String.length (cleaned s).
Proof.
  unfold track_values.
  destruct (is_str scale_actual "log"); rewrite length_map, length_range;
    unfold len_str; lia.
Qed.

(** X22. Under the track readout, for sequences with distinct ids and a
    scale that is absent, "linear" or "log", [predict_cpg] returns one
    track per sequence, under the id of the sequence and in the order of
    the sequences, with one value per character of the cleaned sequence.
    Under a readout that is neither "point" nor "track" it returns no
    prediction at all, whatever the sequences and the scale are. *)
Theorem predict_cpg_track_and_other_readouts (seqs : list (string * string))
    (scale_requested : value) :
  NoDup (keys seqs) -> valid_scale scale_requested ->
  let scale_actual := resolved_scale scale_requested in
  predict_cpg (VDict (str_dict seqs)) (VStr "track") scale_requested =
    Ok (map (fun '(id, s) => (id, track_values scale_actual s)) seqs, scale_actual) /\
  (forall id s, In (id, s) seqs ->
     List.length (track_values scale_actual s) = String.length (cleaned s)) /\
  (forall sequences readout scale,
     is_str readout "point" = false -> is_str readout "track" = false ->
     predict_cpg sequences readout scale = Ok ([], resolved_scale scale)).
Proof.
  intros Hnd Hs scale_actual. split; [| split].
  - unfold predict_cpg. fold (resolved_scale scale_requested). fold scale_actual.
    simpl is_str. cbv iota. rewrite bind_Ok. simpl py_items. rewrite bind_Ok.
    pose proof (@predictions_loop
                  (fun seq_id sequence preds =>
                     xs <- calculate_cpg_per_base sequence scale_actual 50 ;;
                     Ok (dict_set seq_id xs preds))
                  (track_values scale_actual) seqs [] Hnd) as Hloop.
    cbn [map app] in Hloop. cbv beta in Hloop. rewrite Hloop; [reflexivity |].
    intros id s acc Hin. cbv beta. unfold scale_actual.
    now rewrite track_values_closed.
  - intros id s _. apply length_track_values.
  - intros sequences readout scale Hp Ht. unfold predict_cpg.
    fold (resolved_scale scale). rewrite Hp, Ht. reflexivity.
Qed.

Lemma predict_cpg_track_and_other_readouts_witness :
  predict_cpg (VDict (str_dict [("s1", "ACGT"); ("s2", "cg")])) (VStr "track") VNone =
  Ok ([("s1", track_values (VStr "linear") "ACGT");
       ("s2", track_values (VStr "linear") "cg")], VStr "linear").
Proof.
  assert (Hnd : NoDup (keys [("s1", "ACGT"); ("s2", "cg")])).
  { constructor; [simpl; intuition discriminate |].
    constructor; [simpl; tauto | constructor]. }
  exact (proj1 (@predict_cpg_track_and_other_readouts
                  [("s1", "ACGT"); ("s2", "cg")] VNone Hnd (or_introl eq_refl))).
Defined.

(** ** What [decode_request] returns *)

(** X23. With the request formats of the predictor, [decode_request]
    returns an object exactly in two cases: the content type (the header in
    lower case, JSON when there is none) is exactly "application/json" and
    the JSON parser returns the object, or it is exactly
    "application/msgpack" and the MsgPack parser returns the object from
    the body.  A header with anything more, such as a parameter, is not
    decoded. *)
Theorem decode_request_returns (get_json : request -> result value)
    (unpackb : string -> result value) (req : request) (v : value) :
  decode_request get_json unpackb req SUPPORTED_REQUEST_FORMATS = Ok v <->
  (resolved_content_type req = "application/json" /\ get_json req = Ok v) \/
  (resolved_content_type req = "application/msgpack" /\ unpackb (data req) = Ok v).
Proof.
  unfold decode_request.
  change SUPPORTED_REQUEST_FORMATS with ["application/json"; "application/msgpack"].
  unfold mem_str. cbn [existsb]. rewrite orb_false_r.
  destruct (String.eqb (resolved_content_type req) "application/json") eqn:Ej.
  - apply String.eqb_eq in Ej. simpl negb. cbv iota. rewrite Ej. split.
    + destruct (get_json req) as [x | e]; [| discriminate].
      intros H. left. split; [reflexivity | exact H].
    + intros [[_ H] | [H _]]; [now rewrite H | discriminate].
  - apply String.eqb_neq in Ej.
    destruct (String.eqb (resolved_content_type req) "application/msgpack") eqn:Em.
    + apply String.eqb_eq in Em. simpl negb. cbv iota. split.
      * destruct (unpackb (data req)) as [x | e]; [| discriminate].
        intros H. right. split; [exact Em | exact H].
      * intros [[H _] | [_ H]]; [contradiction | now rewrite H].
    + apply String.eqb_neq in Em. simpl negb. cbv iota. split; [discriminate |].
      intros [[H _] | [H _]]; contradiction.
Qed.

(** ** The name of the predictor in a response *)

(** X24. Every response [encode_response] returns is the serialisation of
    the payload with the name of the predictor: the payload itself when it
    has the key [predictor_name], and otherwise the payload with the given
    name put first; its other keys are unchanged.  The serialiser is the
    one of the media type of the response. *)
Theorem encode_response_names_predictor (packb jsonify : value -> result string)
    (req : request) (payload : dict) (status_code : Z) (isError : bool)
    (supported : option (list string)) (predictor_name : string) :
  let named := named_payload predictor_name payload in
  (forall r,
     encode_response packb jsonify req payload status_code isError supported
                     predictor_name = Ok r ->
     (mimetype r = "application/msgpack" /\ packb (VDict named) = Ok (body r)) \/
     (mimetype r = "application/json" /\ jsonify (VDict named) = Ok (body r))) /\
  (exists name, lookup "predictor_name" named = Some name /\
     (lookup "predictor_name" payload = None -> name = VStr predictor_name) /\
     (forall x, lookup "predictor_name" payload = Some x -> name = x)) /\
  (forall k, k <> "predictor_name" -> lookup k named = lookup k payload).
Proof.
  intros named. split; [| split].
  - intros r. unfold encode_response.
    assert (E : (if negb (has_key "predictor_name" payload)
                 then ("predictor_name", VStr predictor_name) :: payload
                 else payload) = named).
    { unfold named, named_payload. now destruct (has_key "predictor_name" payload). }
    rewrite E.
    destruct (String.eqb _ "application/msgpack").
    + destruct (packb (VDict named)) as [b |]; [| discriminate].
      intros H. inversion H. left. now split.
    + destruct (jsonify (VDict named)) as [b |]; [| discriminate].
      intros H. inversion H. right. now split.
  - unfold named, named_payload, has_key.
    destruct (lookup "predictor_name" payload) as [x |] eqn:El.
    + exists x. rewrite El. split; [reflexivity | split; [discriminate |]].
      intros y Hy. congruence.
    + exists (VStr predictor_name). split; [reflexivity | split; [reflexivity |]].
      intros y Hy. discriminate.
  - intros k Hk. unfold named, named_payload.
    destruct (has_key "predictor_name" payload); [reflexivity |].
    simpl. apply String.eqb_neq in Hk. now rewrite Hk.
Qed.
